(** * Rcpp attributes: exports generators and the sourceCpp build cache

    A shallow embedding of [src/Attributes.cpp] (Rcpp): the helpers that
    decide what an exported function is, the [SourceCppDynlib] build unit and
    its cache, the [ExportsGenerator] family with its safe-overwrite guard and
    its commit, and the two entry points [sourceCppContext] and
    [compileAttributes].

    Text is [string]; a [std::ostream] that is only appended to is the string
    written so far.  The file system, R's random number generator, R's
    [tempfile], the function-static cache and [Rcpp::Rcout] make up an
    explicit [World] that every effectful function threads; C++ exceptions
    are the [Throw] results of a state-and-exception monad that keeps the
    world reached when the exception was raised. *)

From Stdlib Require Import ZArith Ascii String List Lia.
From stdpp Require Import base option list gmap strings pretty.

Set Default Proof Using "Type".

(** ** Text *)

Module Text.

(** [std::endl] on a text stream. *)
Definition endl : string := String "010"%char EmptyString.

(** The double quote character, as a one-character string. *)
Definition dquote : string := String "034"%char EmptyString.

(** [std::string::empty]. *)
Definition empty (s : string) : bool :=
  match s with EmptyString => true | String _ _ => false end.

(** [std::string::find(needle)], the search starting at position 0;
    [None] is [std::string::npos]. *)
Definition find (needle hay : string) : option nat := String.index 0 needle hay.

(** [hay.find(needle) != std::string::npos]. *)
Definition found (needle hay : string) : bool :=
  match find needle hay with Some _ => true | None => false end.

(** [std::replace(s.begin(), s.end(), a, b)]. *)
Fixpoint replace (a b : ascii) (s : string) : string :=
  match s with
  | EmptyString => EmptyString
  | String c t => String (if Ascii.eqb c a then b else c) (replace a b t)
  end.

(** The loop [for (i = 0; i < v.size(); i++) body(i, v[i])] over a stream:
    [body] gets the index, the element and the stream written so far. *)
Definition for_i {A : Type} (v : list A) (body : nat -> A -> string -> string)
    (ostr : string) : string :=
  fold_left (fun ostr ix => body (fst ix) (snd ix) ostr)
            (combine (seq 0 (length v)) v) ostr.

(** [s.find_first_of(c) == 0]: the string starts with the character. *)
Definition starts_with (c : ascii) (s : string) : bool :=
  match s with EmptyString => false | String d _ => Ascii.eqb d c end.

End Text.

(** ** The parsed attributes (AttributesParser.h) *)

(** Modelled from the spec: the header [AttributesParser.h] is not among the
    sources.  An argument of a function signature: a name and a type. *)
Record Argument := mkArgument {
  Argument_name : string;
  Argument_type : string
}.

(** Modelled from the spec: the header [AttributesParser.h] is not among the
    sources.  A function signature is a return type, a name and ordered
    arguments; an attribute that is not attached to a function carries the
    empty signature [NoFunction]. *)
Inductive Function :=
| NoFunction
| Fn (type name : string) (arguments : list Argument).

(** Modelled from the spec: [Function::empty], [type], [name] and
    [arguments], which the header declares; the empty signature has an empty
    name, an empty type and no argument. *)
Definition Function_empty (f : Function) : bool :=
  match f with NoFunction => true | Fn _ _ _ => false end.

Definition Function_type (f : Function) : string :=
  match f with NoFunction => EmptyString | Fn t _ _ => t end.

Definition Function_name (f : Function) : string :=
  match f with NoFunction => EmptyString | Fn _ n _ => n end.

Definition Function_arguments (f : Function) : list Argument :=
  match f with NoFunction => [] | Fn _ _ a => a end.

(** Modelled from the spec: [Function::renamedTo], a copy with the same
    signature under another name. *)
Definition Function_renamedTo (f : Function) (name : string) : Function :=
  Fn (Function_type f) name (Function_arguments f).

(** Modelled from the spec: the header [AttributesParser.h] is not among the
    sources.  A name/value parameter of an attribute. *)
Record Param := mkParam {
  Param_name : string;
  Param_value : string
}.

(** Modelled from the spec: the header [AttributesParser.h] is not among the
    sources.  One parsed attribute: its name, its ordered parameters, the
    function it is attached to and its documentation (roxygen) lines. *)
Record Attribute := mkAttribute {
  Attribute_name : string;
  Attribute_params : list Param;
  Attribute_function : Function;
  Attribute_roxygen : list string
}.

(** Modelled from the spec: the header [AttributesParser.h] is not among the
    sources.  The attributes of one source file: the path of the file, the
    attributes in order, the forward-declaration prototypes, and the declared
    interface tags. *)
Record SourceFileAttributes := mkSourceFileAttributes {
  sfa_sourceFile : string;
  sfa_attributes : list Attribute;
  sfa_prototypes : list string;
  sfa_interfaces : list string
}.

(** Modelled from the spec: [SourceFileAttributes::empty], which the header
    declares; the file has no attribute. *)
Definition SourceFileAttributes_empty (a : SourceFileAttributes) : bool :=
  match sfa_attributes a with [] => true | _ :: _ => false end.

(** Modelled from the spec: [SourceFileAttributes::hasInterface], which the
    header declares; the name is among the declared interface tags. *)
Definition hasInterface (a : SourceFileAttributes) (name : string) : bool :=
  bool_decide (name ∈ sfa_interfaces a).

(** What the sources use of [AttributesParser.h] and do not define: the
    attribute and interface names, the parser behind the constructor
    [SourceFileAttributes(path)] (a function of the path and of what the file
    holds, [None] when there is no such file), and [operator<<] on a
    function signature. *)
Class AttributesParser := {
  kExportAttribute : string;
  kDependsAttribute : string;
  kInterfaceR : string;
  kInterfaceCpp : string;
  parseSourceFile : string -> option string -> SourceFileAttributes;
  printFunction : Function -> string
}.

(** ** Exported functions *)

Section Exported.
Context `{AttributesParser}.

(** Check if the passed attribute represents an exported function. *)
Definition isExportedFunction (attribute : Attribute) : bool :=
  String.eqb (Attribute_name attribute) kExportAttribute &&
  negb (Function_empty (Attribute_function attribute)).

(** Determine the exported name for a function. *)
Definition exportedName (attribute : Attribute) : string :=
  match Attribute_params attribute with
  | p :: _ => Param_name p
  | [] => Function_name (Attribute_function attribute)
  end.

End Exported.

(** ** The build unit and its cache: data *)

(** The platform information passed from R: [platform[["file.sep"]]] and
    [platform[["dynlib.ext"]]]. *)
Record Platform := mkPlatform {
  file_sep : string;
  dynlib_ext : string
}.

(** The fields of [class SourceCppDynlib]. *)
Record SourceCppDynlib := mkSourceCppDynlib {
  cppSourcePath_ : string;
  cppSourceLastModified_ : Z;
  generatedCpp_ : string;
  cppSourceFilename_ : string;
  moduleName_ : string;
  buildDirectory_ : string;
  fileSep_ : string;
  dynlibExt_ : string;
  exportedFunctions_ : list string;
  depends_ : list string
}.

(** [SourceCppDynlib()]: every string and vector is empty (the time stamp,
    which the default constructor leaves uninitialised, is taken as 0). *)
Definition SourceCppDynlib_default : SourceCppDynlib :=
  mkSourceCppDynlib EmptyString 0 EmptyString EmptyString EmptyString
                    EmptyString EmptyString EmptyString [] [].

(** [struct Entry] of the cache. *)
Record Entry := mkEntry {
  Entry_file : string;
  Entry_code : string;
  Entry_dynlib : SourceCppDynlib
}.

(** ** The world *)

(** What a path names: a regular file with its content and modification
    time, or a directory. *)
Inductive node :=
| RegFile (content : string) (mtime : Z)
| Directory (mtime : Z).

Definition node_mtime (n : node) : Z :=
  match n with RegFile _ t => t | Directory t => t end.

(** The state the program runs in.
    - [w_fs]: the file system, from paths to nodes;
    - [w_staterr]: the paths on which [stat] fails for another reason than
      the path not existing;
    - [w_openerr]: the paths that cannot be opened as a stream;
    - [w_clock]: the current time, which stamps what is written;
    - [w_sample], [w_sampled]: the integers R's [sample(100000, 1)] yields,
      and how many have been drawn;
    - [w_tempfile], [w_tempfiles]: the names R's [tempfile] yields, and how
      many have been drawn;
    - [w_cache]: the entries of the function-static [s_dynlibCache];
    - [w_Rcout]: what has been printed on [Rcpp::Rcout]. *)
Record World := mkWorld {
  w_fs : gmap string node;
  w_staterr : string -> bool;
  w_openerr : string -> bool;
  w_clock : Z;
  w_sample : nat -> Z;
  w_sampled : nat;
  w_tempfile : nat -> string;
  w_tempfiles : nat;
  w_cache : list Entry;
  w_Rcout : string
}.

Definition set_fs (f : gmap string node -> gmap string node) (w : World) : World :=
  mkWorld (f (w_fs w)) (w_staterr w) (w_openerr w) (w_clock w)
          (w_sample w) (w_sampled w) (w_tempfile w) (w_tempfiles w)
          (w_cache w) (w_Rcout w).

Definition set_sampled (n : nat) (w : World) : World :=
  mkWorld (w_fs w) (w_staterr w) (w_openerr w) (w_clock w)
          (w_sample w) n (w_tempfile w) (w_tempfiles w)
          (w_cache w) (w_Rcout w).

Definition set_tempfiles (n : nat) (w : World) : World :=
  mkWorld (w_fs w) (w_staterr w) (w_openerr w) (w_clock w)
          (w_sample w) (w_sampled w) (w_tempfile w) n
          (w_cache w) (w_Rcout w).

Definition set_cache (c : list Entry) (w : World) : World :=
  mkWorld (w_fs w) (w_staterr w) (w_openerr w) (w_clock w)
          (w_sample w) (w_sampled w) (w_tempfile w) (w_tempfiles w)
          c (w_Rcout w).

Definition set_Rcout (s : string) (w : World) : World :=
  mkWorld (w_fs w) (w_staterr w) (w_openerr w) (w_clock w)
          (w_sample w) (w_sampled w) (w_tempfile w) (w_tempfiles w)
          (w_cache w) s.

(** The node a path names; the empty path names nothing. *)
Definition fs_lookup (w : World) (path : string) : option node :=
  if Text.empty path then None else w_fs w !! path.

(** The content of the regular file at a path, if there is one. *)
Definition file_content (w : World) (path : string) : option string :=
  match fs_lookup w path with
  | Some (RegFile c _) => Some c
  | _ => None
  end.

(** Whether a stream can be opened on a path for writing: the path is not
    empty, not a directory, and the environment does not refuse it. *)
Definition can_open (w : World) (path : string) : bool :=
  negb (Text.empty path) && negb (w_openerr w path) &&
  match fs_lookup w path with Some (Directory _) => false | _ => true end.

(** ** Exceptions and the monad of effects *)

(** The exceptions of [Rcpp/exceptions.h] that the sources throw. *)
Inductive exception :=
| file_not_found (path : string)
| file_io_error (path : string)
| file_exists (path : string).

Inductive result (A : Type) :=
| Ok (a : A)
| Throw (e : exception).
Arguments Ok {A} a.
Arguments Throw {A} e.

(** A computation runs in a world and ends with a value or an exception,
    in the world it has reached. *)
Definition M (A : Type) : Type := World -> result A * World.

Definition ret {A : Type} (a : A) : M A := fun w => (Ok a, w).

Definition throw {A : Type} (e : exception) : M A := fun w => (Throw e, w).

Definition bind {A B : Type} (c : M A) (k : A -> M B) : M B :=
  fun w => match c w with
           | (Ok a, w') => k a w'
           | (Throw e, w') => (Throw e, w')
           end.

Notation "'let!' x ':=' c 'in' k" := (bind c (fun x => k))
  (at level 10, x name, c at level 100, k at level 200).
Notation "'run!' c 'in' k" := (bind c (fun _ => k))
  (at level 10, c at level 100, k at level 200).

(** Reading and changing the world. *)
Definition get : M World := fun w => (Ok w, w).
Definition modify (f : World -> World) : M unit := fun w => (Ok tt, f w).

(** [Rcpp::Rcout << s]. *)
Definition Rcout (s : string) : M unit :=
  modify (fun w => set_Rcout (w_Rcout w +:+ s) w).

(** ** Files *)

(** [class FileInfo]: existence and last modified time of a path. *)
Record FileInfo := mkFileInfo {
  path_ : string;
  exists_ : bool;
  lastModified_ : Z
}.

(** The constructor [FileInfo(path)]: [stat] either fails for another reason
    than [ENOENT] (an exception), fails with [ENOENT] (the path does not
    exist, the time stays 0), or gives the modification time. *)
Definition FileInfo_new (path : string) : M FileInfo :=
  let! w := get in
  if w_staterr w path then throw (file_io_error path)
  else match fs_lookup w path with
       | None => ret (mkFileInfo path false 0)
       | Some n => ret (mkFileInfo path true (node_mtime n))
       end.

(** R's [file.remove(path)]: removes a regular file. *)
Definition R_file_remove (path : string) : M unit :=
  modify (fun w =>
    match fs_lookup w path with
    | Some (RegFile _ _) => set_fs (delete path) w
    | _ => w
    end).

(** R's [dir.create(path)] (also with [recursive = TRUE]): creates the
    directory unless the path is taken. *)
Definition R_dir_create (path : string) : M unit :=
  modify (fun w =>
    if Text.empty path then w
    else match fs_lookup w path with
         | None => set_fs (<[path := Directory (w_clock w)]>) w
         | Some _ => w
         end).

(** R's [file.copy(from, to, overwrite = TRUE)]: copies a regular file, and
    does nothing (its result is ignored by the sources) when it cannot. *)
Definition R_file_copy (from to : string) : M unit :=
  modify (fun w =>
    match file_content w from with
    | Some c =>
        if can_open w to then set_fs (<[to := RegFile c (w_clock w)]>) w else w
    | None => w
    end).

(** R's [tempfile(pattern)]: the next name of the environment. *)
Definition R_tempfile (pattern : string) : M string :=
  let! w := get in
  run! modify (set_tempfiles (S (w_tempfiles w))) in
  ret (w_tempfile w (w_tempfiles w)).

(** R's [sample(n, 1)]: the next draw of the environment. *)
Definition R_sample (n : Z) : M Z :=
  let! w := get in
  run! modify (set_sampled (S (w_sampled w))) in
  ret (w_sample w (w_sampled w)).

(** Remove a file (call back into R for this). *)
Definition removeFile (path : string) : M unit :=
  let! info := FileInfo_new path in
  if exists_ info then R_file_remove path else ret tt.

(** Recursively create a directory (call back into R for this). *)
Definition createDirectory (path : string) : M unit :=
  let! info := FileInfo_new path in
  if negb (exists_ info) then R_dir_create path else ret tt.

(** [std::ifstream ifs(path); if (ifs.fail()) throw file_io_error(path);
    buffer << ifs.rdbuf(); buffer.str()]: the whole content of a file.  The
    opening fails on a path that names no regular file or that cannot be
    opened. *)
Definition read_stream (path : string) : M string :=
  let! w := get in
  match file_content w path with
  | Some c => if can_open w path then ret c else throw (file_io_error path)
  | None => throw (file_io_error path)
  end.

(** [std::ofstream ofs(path, out | trunc); if (ofs.fail()) throw
    file_io_error(path); ofs << text; ofs.close()]. *)
Definition write_stream (path text : string) : M unit :=
  let! w := get in
  if can_open w path
  then modify (set_fs (<[path := RegFile text (w_clock w)]>))
  else throw (file_io_error path).

(** [std::ofstream ofs(path, out | app); if (ofs.fail()) throw
    file_io_error(path); ofs << text; ofs.close()]. *)
Definition append_stream (path text : string) : M unit :=
  let! w := get in
  if can_open w path
  then modify (set_fs (<[path :=
         RegFile (default EmptyString (file_content w path) +:+ text) (w_clock w)]>))
  else throw (file_io_error path).

(** R's [basename], which the sources call back into R for. *)
Class RBase := {
  basename : string -> string
}.

(** ** Code generation *)

Section Generation.
Context `{AttributesParser} `{RBase}.

(** Generate function entries for passed attributes.  [ostr] is the stream
    written to and [rcout] what the verbose output adds to [Rcpp::Rcout];
    both are returned. *)
Definition generateCppModuleFunctions (ostr rcout : string)
    (attributes : SourceFileAttributes) (verbose : bool) : string * string :=
  fold_left
    (fun (streams : string * string) (it : Attribute) =>
       let (ostr, rcout) := streams in
       if isExportedFunction it then
         let function := Attribute_function it in
         let rcout :=
           if verbose
           then rcout +:+ "  " +:+ printFunction function +:+ Text.endl
           else rcout in
         (ostr +:+ "    Rcpp::function(" +:+ Text.dquote +:+ exportedName it
               +:+ Text.dquote +:+ ", &" +:+ Function_name function +:+ ");"
               +:+ Text.endl,
          rcout)
       else (ostr, rcout))
    (sfa_attributes attributes) (ostr, rcout).

(** Generate a module declaration. *)
Definition generateCppModule (ostr rcout : string) (moduleName : string)
    (attributes : SourceFileAttributes) (verbose : bool) : string * string :=
  let ostr := ostr +:+ "RCPP_MODULE(" +:+ moduleName +:+ ") {" +:+ Text.endl in
  let (ostr, rcout) := generateCppModuleFunctions ostr rcout attributes verbose in
  (ostr +:+ "}" +:+ Text.endl, rcout).

(** Generate placeholder function declaration (for roxygen). *)
Definition generateRoxygenPlaceholder (ostr : string) (attribute : Attribute)
    : string :=
  let ostr := ostr +:+ exportedName attribute +:+ "<- function(" in
  let args := Function_arguments (Attribute_function attribute) in
  let ostr :=
    Text.for_i args
      (fun i arg ostr =>
         let ostr := ostr +:+ Argument_name arg in
         if negb (Nat.eqb i (length args - 1)) then ostr +:+ ", " else ostr)
      ostr in
  ostr +:+ ") {}" +:+ Text.endl.

(** Generate roxygen. *)
Definition generateRoxygen (ostr : string) (attributes : SourceFileAttributes)
    : string :=
  fold_left
    (fun (ostr : string) (it : Attribute) =>
       if isExportedFunction it &&
          negb (bool_decide (Attribute_roxygen it = []))
       then
         let ostr := ostr +:+ Text.endl in
         let ostr :=
           Text.for_i (Attribute_roxygen it)
             (fun _ line ostr => ostr +:+ line +:+ Text.endl) ostr in
         let ostr := generateRoxygenPlaceholder ostr it in
         ostr +:+ Text.endl
       else ostr)
    (sfa_attributes attributes) ostr.

(** ** The build unit: [class SourceCppDynlib] *)

Definition moduleName (d : SourceCppDynlib) : string := moduleName_ d.
Definition cppSourcePath (d : SourceCppDynlib) : string := cppSourcePath_ d.
Definition buildDirectory (d : SourceCppDynlib) : string := buildDirectory_ d.
Definition generatedCpp (d : SourceCppDynlib) : string := generatedCpp_ d.
Definition cppSourceFilename (d : SourceCppDynlib) : string := cppSourceFilename_ d.
Definition exportedFunctions (d : SourceCppDynlib) : list string := exportedFunctions_ d.
Definition depends (d : SourceCppDynlib) : list string := depends_ d.

Definition dynlibFilename (d : SourceCppDynlib) : string :=
  moduleName d +:+ dynlibExt_ d.

Definition dynlibPath (d : SourceCppDynlib) : string :=
  buildDirectory_ d +:+ fileSep_ d +:+ dynlibFilename d.

Definition generatedCppSourcePath (d : SourceCppDynlib) : string :=
  buildDirectory_ d +:+ fileSep_ d +:+ cppSourceFilename d.

Definition isEmpty (d : SourceCppDynlib) : bool := Text.empty (cppSourcePath_ d).

Definition isBuilt (d : SourceCppDynlib) : M bool :=
  let! info := FileInfo_new (dynlibPath d) in
  ret (exists_ info).

Definition isSourceDirty (d : SourceCppDynlib) : M bool :=
  (* source file out of date means we're dirty *)
  let! source := FileInfo_new (cppSourcePath_ d) in
  let! generated := FileInfo_new (generatedCppSourcePath d) in
  if (lastModified_ source >? lastModified_ generated)%Z then ret true
  else
    (* no dynlib means we're dirty *)
    let! dynlib := FileInfo_new (dynlibPath d) in
    if negb (exists_ dynlib) then ret true
    else (* not dirty *) ret false.

(** The constructor [SourceFileAttributes(path)]: the parser applied to what
    the file holds. *)
Definition SourceFileAttributes_new (path : string) : M SourceFileAttributes :=
  let! w := get in
  ret (parseSourceFile path (file_content w path)).

(** The loop of [regenerateSource] that discovers exported functions and
    dependencies: the pair of [exportedFunctions_] and [depends_]. *)
Definition discover (sourceAttributes : SourceFileAttributes)
    : list string * list string :=
  fold_left
    (fun (found : list string * list string) (it : Attribute) =>
       let (exportedFunctions, depends) := found in
       if String.eqb (Attribute_name it) kExportAttribute &&
          negb (Function_empty (Attribute_function it))
       then (exportedFunctions ++ [exportedName it], depends)
       else if String.eqb (Attribute_name it) kDependsAttribute
       then (exportedFunctions,
             fold_left (fun depends p => depends ++ [Param_name p])
                       (Attribute_params it) depends)
       else (exportedFunctions, depends))
    (sfa_attributes sourceAttributes) ([], []).

Definition regenerateSource (d : SourceCppDynlib) : M SourceCppDynlib :=
  (* copy the source file to the build dir *)
  run! R_file_copy (cppSourcePath_ d) (generatedCppSourcePath d) in
  (* parse attributes *)
  let! sourceAttributes := SourceFileAttributes_new (cppSourcePath_ d) in
  (* generate RCPP module *)
  let generatedCpp :=
    fst (generateCppModule EmptyString EmptyString (moduleName d)
                           sourceAttributes false) in
  (* open source file and append module *)
  run! append_stream (generatedCppSourcePath d) (Text.endl +:+ generatedCpp) in
  (* discover exported functions, and dependencies *)
  let (exportedFunctions, depends) := discover sourceAttributes in
  ret (mkSourceCppDynlib (cppSourcePath_ d) (cppSourceLastModified_ d)
         generatedCpp (cppSourceFilename_ d) (moduleName_ d)
         (buildDirectory_ d) (fileSep_ d) (dynlibExt_ d)
         exportedFunctions depends).

(** [SourceCppDynlib(cppSourcePath, platform)]. *)
Definition SourceCppDynlib_new (cppSourcePath : string) (platform : Platform)
    : M SourceCppDynlib :=
  (* get cpp source file info *)
  let! cppSourceFilenameInfo := FileInfo_new cppSourcePath in
  if negb (exists_ cppSourceFilenameInfo) then throw (file_not_found cppSourcePath)
  else
    (* get last modified time *)
    let cppSourceLastModified := lastModified_ cppSourceFilenameInfo in
    (* record the base name of the source file *)
    let cppSourceFilename := basename cppSourcePath in
    (* get platform info *)
    let fileSep := file_sep platform in
    let dynlibExt := dynlib_ext platform in
    (* generate temp directory *)
    let! tmp := R_tempfile "sourcecpp_" in
    let buildDirectory := Text.replace "\"%char "/"%char tmp in
    run! R_dir_create buildDirectory in
    (* generate a random module name *)
    let! n := R_sample 100000 in
    let moduleName := "sourceCpp_" +:+ pretty n in
    (* regenerate the source code *)
    regenerateSource
      (mkSourceCppDynlib cppSourcePath cppSourceLastModified EmptyString
         cppSourceFilename moduleName buildDirectory fileSep dynlibExt [] []).

End Generation.

(** ** The cache: [class SourceCppDynlibCache] *)

(** The cache object is its vector [entries_]. *)
Definition SourceCppDynlibCache : Type := list Entry.

(** Insert into cache by file name. *)
Definition insertFile (entries_ : SourceCppDynlibCache) (file : string)
    (dynlib : SourceCppDynlib) : SourceCppDynlibCache :=
  entries_ ++ [mkEntry file EmptyString dynlib].

(** Insert into cache by code. *)
Definition insertCode (entries_ : SourceCppDynlibCache) (code : string)
    (dynlib : SourceCppDynlib) : SourceCppDynlibCache :=
  entries_ ++ [mkEntry EmptyString code dynlib].

(** Lookup by file. *)
Fixpoint lookupByFile (entries_ : SourceCppDynlibCache) (file : string)
    : SourceCppDynlib :=
  match entries_ with
  | [] => SourceCppDynlib_default
  | e :: rest =>
      if String.eqb (Entry_file e) file then Entry_dynlib e
      else lookupByFile rest file
  end.

(** Lookup by code. *)
Fixpoint lookupByCode (entries_ : SourceCppDynlibCache) (code : string)
    : SourceCppDynlib :=
  match entries_ with
  | [] => SourceCppDynlib_default
  | e :: rest =>
      if String.eqb (Entry_code e) code then Entry_dynlib e
      else lookupByCode rest code
  end.

(** ** The generators: [class ExportsGenerator] *)

(** The fields of the abstract class; [codeStream_] is the text written to
    the code stream so far. *)
Record ExportsGenerator := mkExportsGenerator {
  targetFile_ : string;
  commentPrefix_ : string;
  existingCode_ : string;
  codeStream_ : string
}.

(** UUID that we write into a comment within the file (so that we can
    strongly identify that a file was generated by us before overwriting
    it). *)
Definition generatorToken : string := "10BE3573-1514-4C36-9D1C-5A225CD40393".

(** Check whether it's safe to overwrite this file (i.e. whether we
    generated the file in the first place). *)
Definition isSafeToOverwrite (g : ExportsGenerator) : bool :=
  Text.empty (existingCode_ g) || Text.found generatorToken (existingCode_ g).

(** The protected constructor [ExportsGenerator(targetFile, commentPrefix)]. *)
Definition ExportsGenerator_new (targetFile commentPrefix : string)
    : M ExportsGenerator :=
  (* read the existing target file if it exists *)
  let! info := FileInfo_new targetFile in
  let! existingCode :=
    (if exists_ info then read_stream targetFile else ret EmptyString) in
  let g := mkExportsGenerator targetFile commentPrefix existingCode EmptyString in
  (* see if this is safe to overwite and throw if it isn't *)
  if negb (isSafeToOverwrite g) then throw (file_exists targetFile)
  else ret g.

(** [ostr() << text]. *)
Definition ostr_write (g : ExportsGenerator) (text : string) : ExportsGenerator :=
  mkExportsGenerator (targetFile_ g) (commentPrefix_ g) (existingCode_ g)
                     (codeStream_ g +:+ text).

(** The header that [commit] puts before the generated code. *)
Definition commit_header (commentPrefix preamble : string) : string :=
  let headerStream :=
    commentPrefix +:+ " This file was generated by "
                  +:+ "Rcpp::compileAttributes" +:+ Text.endl in
  let headerStream :=
    headerStream +:+ commentPrefix +:+ " Generator token: "
                 +:+ generatorToken +:+ Text.endl +:+ Text.endl in
  if negb (Text.empty preamble) then headerStream +:+ preamble
  else headerStream.

(** Commit the stream -- is a no-op if the existing code is identical to the
    generated code.  Returns true if data was written and false if it wasn't
    (throws exception on io error). *)
Definition ExportsGenerator_commit (g : ExportsGenerator) (preamble : string)
    : M bool :=
  (* get the generated code *)
  let code := codeStream_ g in
  (* if there is no generated code AND the exports file does not currently
     exist then do nothing *)
  let! nothing :=
    (if Text.empty code
     then let! info := FileInfo_new (targetFile_ g) in ret (negb (exists_ info))
     else ret false) in
  if nothing then ret false
  else
    (* write header/preamble *)
    let headerStream := commit_header (commentPrefix_ g) preamble in
    (* get generated code and only write it if there was a change *)
    let generatedCode := headerStream +:+ code in
    if negb (String.eqb generatedCode (existingCode_ g)) then
      run! write_stream (targetFile_ g) generatedCode in
      ret true
    else ret false.

(** Remove the generated file entirely. *)
Definition ExportsGenerator_remove (g : ExportsGenerator) : M unit :=
  removeFile (targetFile_ g).

(** [class CppExportsGenerator], which manages generating RcppExports.cpp. *)
Record CppExportsGenerator := mkCppExportsGenerator {
  cpp_base : ExportsGenerator
}.

(** [class CppIncludeGenerator], which manages the header of the package. *)
Record CppIncludeGenerator := mkCppIncludeGenerator {
  inc_base : ExportsGenerator;
  scope_ : string;
  includeDir_ : string;
  hasCppInterface_ : bool
}.

(** [class RExportsGenerator], which manages RcppExports.R. *)
Record RExportsGenerator := mkRExportsGenerator {
  r_base : ExportsGenerator;
  rExports_ : list string
}.

(** An object of one of the three concrete classes, as the orchestrator
    holds it behind an [ExportsGenerator*]. *)
Inductive Generator :=
| GenCpp (g : CppExportsGenerator)
| GenR (g : RExportsGenerator)
| GenInclude (g : CppIncludeGenerator).


Section Generators.
Context `{AttributesParser} `{RBase}.

(** *** CppExportsGenerator *)

Definition CppExportsGenerator_new (packageDir fileSep : string)
    : M CppExportsGenerator :=
  let! b := ExportsGenerator_new
              (packageDir +:+ fileSep +:+ "src" +:+ fileSep +:+ "RcppExports.cpp")
              "//" in
  ret (mkCppExportsGenerator b).

Definition CppExportsGenerator_writeBegin (g : CppExportsGenerator)
    : CppExportsGenerator :=
  mkCppExportsGenerator
    (ostr_write (cpp_base g) ("RCPP_MODULE(RcppExports) {" +:+ Text.endl)).

Definition CppExportsGenerator_writeFunctions (g : CppExportsGenerator)
    (rcout : string) (attributes : SourceFileAttributes) (verbose : bool)
    : CppExportsGenerator * string :=
  (* verbose output if requested *)
  let rcout :=
    if verbose
    then rcout +:+ "Exports from " +:+ sfa_sourceFile attributes +:+ ":"
               +:+ Text.endl
    else rcout in
  (* generate functions *)
  let (ostr, rcout) :=
    generateCppModuleFunctions (codeStream_ (cpp_base g)) rcout attributes verbose in
  (* verbose if requested *)
  let rcout := if verbose then rcout +:+ Text.endl else rcout in
  (mkCppExportsGenerator
     (mkExportsGenerator (targetFile_ (cpp_base g)) (commentPrefix_ (cpp_base g))
                         (existingCode_ (cpp_base g)) ostr),
   rcout).

Definition CppExportsGenerator_writeEnd (g : CppExportsGenerator)
    : CppExportsGenerator :=
  mkCppExportsGenerator (ostr_write (cpp_base g) ("}" +:+ Text.endl)).

(** The preamble made of the include lines. *)
Definition includes_preamble (includes : list string) : string :=
  if negb (bool_decide (includes = [])) then
    Text.for_i includes (fun _ x ostr => ostr +:+ x +:+ Text.endl) EmptyString
      +:+ Text.endl
  else EmptyString.

(** The preamble made of the prototypes. *)
Definition prototypes_preamble (ostr : string) (prototypes : list string) : string :=
  if negb (bool_decide (prototypes = [])) then
    Text.for_i prototypes (fun _ x ostr => ostr +:+ x +:+ ";" +:+ Text.endl) ostr
      +:+ Text.endl
  else ostr.

Definition CppExportsGenerator_commit (g : CppExportsGenerator)
    (includes prototypes : list string) : M bool :=
  (* generate preamble *)
  let ostr := includes_preamble includes in
  let ostr := prototypes_preamble ostr prototypes in
  (* commit with preamble *)
  ExportsGenerator_commit (cpp_base g) ostr.

(** *** CppIncludeGenerator *)

Definition CppIncludeGenerator_new (packageDir fileSep scope : string)
    : M CppIncludeGenerator :=
  let! b := ExportsGenerator_new
              (packageDir +:+ fileSep +:+ "inst" +:+ fileSep +:+ "include"
                          +:+ fileSep +:+ scope +:+ ".hpp")
              "//" in
  ret (mkCppIncludeGenerator b scope
         (packageDir +:+ fileSep +:+ "inst" +:+ fileSep +:+ "include") false).

Definition CppIncludeGenerator_writeBegin (g : CppIncludeGenerator)
    : CppIncludeGenerator :=
  mkCppIncludeGenerator
    (ostr_write (inc_base g) ("namespace " +:+ scope_ g +:+ " {" +:+ Text.endl))
    (scope_ g) (includeDir_ g) (hasCppInterface_ g).

(** The forwarding stub of one exported function, appended to [ostr]. *)
Definition forwarding_stub (ostr : string) (it : Attribute) : string :=
  let function :=
    Function_renamedTo (Attribute_function it) (exportedName it) in
  (* if the function starts with "." then it's a hidden R-only function *)
  if Text.starts_with "."%char (Function_name function) then ostr
  else
    let ostr := ostr +:+ "    inline " +:+ printFunction function +:+ " {"
                     +:+ Text.endl in
    let ostr := ostr +:+ "        static " +:+ Function_type function
                     +:+ "(*p_" +:+ Function_name function +:+ ")(" in
    let args := Function_arguments function in
    let ostr :=
      Text.for_i args
        (fun i arg ostr =>
           let ostr := ostr +:+ Argument_type arg in
           if negb (Nat.eqb i (length args - 1)) then ostr +:+ "," else ostr)
        ostr in
    let ostr := ostr +:+ ") = Rcpp::GetCppCallable(" +:+ Text.dquote
                     +:+ "RcppExports" +:+ Text.dquote +:+ ", "
                     +:+ Text.dquote +:+ Function_name function +:+ Text.dquote
                     +:+ ");" +:+ Text.endl in
    let ostr := ostr +:+ "        return p_" +:+ Function_name function +:+ "(" in
    let ostr :=
      Text.for_i args
        (fun i arg ostr =>
           let ostr := ostr +:+ Argument_name arg in
           if negb (Nat.eqb i (length args - 1)) then ostr +:+ "," else ostr)
        ostr in
    let ostr := ostr +:+ ");" +:+ Text.endl in
    ostr +:+ "    }" +:+ Text.endl.

Definition CppIncludeGenerator_writeFunctions (g : CppIncludeGenerator)
    (attributes : SourceFileAttributes) (verbose : bool) : CppIncludeGenerator :=
  (* don't write anything if there is no C++ interface *)
  if negb (hasInterface attributes kInterfaceCpp) then g
  else
    (* there is a C++ interface so set flag indicating so *)
    let ostr :=
      fold_left
        (fun (ostr : string) (it : Attribute) =>
           if isExportedFunction it then forwarding_stub ostr it else ostr)
        (sfa_attributes attributes) (codeStream_ (inc_base g)) in
    mkCppIncludeGenerator
      (mkExportsGenerator (targetFile_ (inc_base g)) (commentPrefix_ (inc_base g))
                          (existingCode_ (inc_base g)) ostr)
      (scope_ g) (includeDir_ g) true.

Definition CppIncludeGenerator_writeEnd (g : CppIncludeGenerator)
    : CppIncludeGenerator :=
  mkCppIncludeGenerator (ostr_write (inc_base g) ("}" +:+ Text.endl))
    (scope_ g) (includeDir_ g) (hasCppInterface_ g).

Definition CppIncludeGenerator_commit (g : CppIncludeGenerator)
    (includes prototypes : list string) : M bool :=
  if hasCppInterface_ g then
    (* create the include dir if necessary *)
    run! createDirectory (includeDir_ g) in
    (* generate preamble *)
    let ostr := includes_preamble includes in
    (* commit with preamble *)
    ExportsGenerator_commit (inc_base g) ostr
  else
    run! ExportsGenerator_remove (inc_base g) in
    ret false.

(** *** RExportsGenerator *)

Definition RExportsGenerator_new (packageDir fileSep : string)
    : M RExportsGenerator :=
  let! b := ExportsGenerator_new
              (packageDir +:+ fileSep +:+ "R" +:+ fileSep +:+ "RcppExports.R")
              "#" in
  ret (mkRExportsGenerator b []).

Definition RExportsGenerator_writeBegin (g : RExportsGenerator)
    : RExportsGenerator := g.

Definition RExportsGenerator_writeFunctions (g : RExportsGenerator)
    (attributes : SourceFileAttributes) (verbose : bool) : RExportsGenerator :=
  (* add to exported functions if we have an R interface *)
  if hasInterface attributes kInterfaceR then
    (* track exported functions *)
    let rExports :=
      fold_left
        (fun (rExports : list string) (it : Attribute) =>
           if isExportedFunction it then rExports ++ [exportedName it]
           else rExports)
        (sfa_attributes attributes) (rExports_ g) in
    (* generate roxygen *)
    let ostr := generateRoxygen (codeStream_ (r_base g)) attributes in
    mkRExportsGenerator
      (mkExportsGenerator (targetFile_ (r_base g)) (commentPrefix_ (r_base g))
                          (existingCode_ (r_base g)) ostr)
      rExports
  else g.

Definition RExportsGenerator_writeEnd (g : RExportsGenerator)
    : RExportsGenerator :=
  let ostr := codeStream_ (r_base g) +:+ "Rcpp::loadModule(" +:+ Text.dquote
                +:+ "RcppExports" +:+ Text.dquote +:+ ", " in
  let ostr :=
    if (0 <? length (rExports_ g))%nat then
      let ostr := ostr +:+ "what = c(" in
      let ostr :=
        Text.for_i (rExports_ g)
          (fun i name ostr =>
             let ostr :=
               if negb (Nat.eqb i 0)
               then ostr +:+ "                                         "
               else ostr in
             let ostr := ostr +:+ Text.dquote +:+ name +:+ Text.dquote in
             if negb (Nat.eqb i (length (rExports_ g) - 1))
             then ostr +:+ "," +:+ Text.endl
             else ostr)
          ostr in
      ostr +:+ "))" +:+ Text.endl
    else ostr +:+ "what = character())" in
  mkRExportsGenerator
    (mkExportsGenerator (targetFile_ (r_base g)) (commentPrefix_ (r_base g))
                        (existingCode_ (r_base g)) ostr)
    (rExports_ g).

Definition RExportsGenerator_commit (g : RExportsGenerator)
    (includes prototypes : list string) : M bool :=
  ExportsGenerator_commit (r_base g) EmptyString.

(** *** The virtual interface *)

Definition writeBegin (g : Generator) : Generator :=
  match g with
  | GenCpp g => GenCpp (CppExportsGenerator_writeBegin g)
  | GenR g => GenR (RExportsGenerator_writeBegin g)
  | GenInclude g => GenInclude (CppIncludeGenerator_writeBegin g)
  end.

Definition writeFunctions (g : Generator) (rcout : string)
    (attributes : SourceFileAttributes) (verbose : bool) : Generator * string :=
  match g with
  | GenCpp g =>
      let (g, rcout) := CppExportsGenerator_writeFunctions g rcout attributes verbose in
      (GenCpp g, rcout)
  | GenR g => (GenR (RExportsGenerator_writeFunctions g attributes verbose), rcout)
  | GenInclude g =>
      (GenInclude (CppIncludeGenerator_writeFunctions g attributes verbose), rcout)
  end.

Definition writeEnd (g : Generator) : Generator :=
  match g with
  | GenCpp g => GenCpp (CppExportsGenerator_writeEnd g)
  | GenR g => GenR (RExportsGenerator_writeEnd g)
  | GenInclude g => GenInclude (CppIncludeGenerator_writeEnd g)
  end.

Definition commit (g : Generator) (includes prototypes : list string) : M bool :=
  match g with
  | GenCpp g => CppExportsGenerator_commit g includes prototypes
  | GenR g => RExportsGenerator_commit g includes prototypes
  | GenInclude g => CppIncludeGenerator_commit g includes prototypes
  end.

(** ** The orchestrator: [class ExportsGenerators] *)

(** The object is its vector [generators_]. *)
Definition ExportsGenerators : Type := list Generator.

Definition ExportsGenerators_add (generators_ : ExportsGenerators)
    (pGenerator : Generator) : ExportsGenerators :=
  generators_ ++ [pGenerator].

Definition ExportsGenerators_writeBegin (generators_ : ExportsGenerators)
    : ExportsGenerators :=
  map writeBegin generators_.

Fixpoint ExportsGenerators_writeFunctions (generators_ : ExportsGenerators)
    (rcout : string) (attributes : SourceFileAttributes) (verbose : bool)
    : ExportsGenerators * string :=
  match generators_ with
  | [] => ([], rcout)
  | g :: rest =>
      let (g, rcout) := writeFunctions g rcout attributes verbose in
      let (rest, rcout) :=
        ExportsGenerators_writeFunctions rest rcout attributes verbose in
      (g :: rest, rcout)
  end.

Definition ExportsGenerators_writeEnd (generators_ : ExportsGenerators)
    : ExportsGenerators :=
  map writeEnd generators_.

(** The loop of [ExportsGenerators::commit], from the value of [wrote]. *)
Fixpoint ExportsGenerators_commit_from (generators_ : ExportsGenerators)
    (includes prototypes : list string) (wrote : bool) : M bool :=
  match generators_ with
  | [] => ret wrote
  | g :: rest =>
      let! b := commit g includes prototypes in
      ExportsGenerators_commit_from rest includes prototypes
        (if b then true else wrote)
  end.

Definition ExportsGenerators_commit (generators_ : ExportsGenerators)
    (includes prototypes : list string) : M bool :=
  let wrote := false in
  ExportsGenerators_commit_from generators_ includes prototypes wrote.

End Generators.

(** ** The entry points *)

(** The list that [sourceCppContext] returns to R. *)
Record Context := mkContext {
  ctx_moduleName : string;
  ctx_cppSourcePath : string;
  ctx_buildRequired : bool;
  ctx_buildDirectory : string;
  ctx_generatedCpp : string;
  ctx_exportedFunctions : list string;
  ctx_cppSourceFilename : string;
  ctx_dynlibFilename : string;
  ctx_dynlibPath : string;
  ctx_depends : list string
}.

Section EntryPoints.
Context `{AttributesParser} `{RBase}.

(** Create temporary build directory, generate code as necessary, and return
    the context required for the sourceCpp function to complete it's work.
    [sCode] is [None] for [R_NilValue]. *)
Definition sourceCppContext (sFile : string) (sCode : option string)
    (sPlatform : Platform) : M Context :=
  (* parameters *)
  let file := sFile in
  let code := match sCode with Some c => c | None => EmptyString end in
  let platform := sPlatform in
  (* get dynlib (using cache if possible) *)
  let! w := get in
  let dynlib :=
    if negb (Text.empty code) then lookupByCode (w_cache w) code
    else lookupByFile (w_cache w) file in
  (* check dynlib build state *)
  let! result :=
    (* if there is no dynlib in the cache then create one *)
    (if isEmpty dynlib then
       let! dynlib := SourceCppDynlib_new file platform in
       run! (if negb (Text.empty code)
             then modify (fun w => set_cache (insertCode (w_cache w) code dynlib) w)
             else modify (fun w => set_cache (insertFile (w_cache w) file dynlib) w)) in
       ret (dynlib, true)
     else
       (* if the cached dynlib is dirty then regenerate the source *)
       let! dirty := isSourceDirty dynlib in
       if dirty then
         let! dynlib := regenerateSource dynlib in
         ret (dynlib, true)
       else
         (* if the dynlib hasn't yet been built then note that *)
         let! built := isBuilt dynlib in
         if negb built then ret (dynlib, true)
         else ret (dynlib, false)) in
  let dynlib := fst result in
  let buildRequired := snd result in
  (* return context as a list *)
  ret (mkContext (moduleName dynlib) (cppSourcePath dynlib) buildRequired
         (buildDirectory dynlib) (generatedCpp dynlib) (exportedFunctions dynlib)
         (cppSourceFilename dynlib) (dynlibFilename dynlib) (dynlibPath dynlib)
         (depends dynlib)).

(** The loop of [compileAttributes] over the source files: the generators
    and the prototypes collected so far go in and come out. *)
Fixpoint compileAttributes_files (cppFiles : list string) (verbose : bool)
    (generators : ExportsGenerators) (prototypes : list string)
    : M (ExportsGenerators * list string) :=
  match cppFiles with
  | [] => ret (generators, prototypes)
  | cppFile :: rest =>
      (* parse attributes (continue if there are none) *)
      let! attributes := SourceFileAttributes_new cppFile in
      if SourceFileAttributes_empty attributes
      then compileAttributes_files rest verbose generators prototypes
      else
        (* copy prototypes *)
        let prototypes := prototypes ++ sfa_prototypes attributes in
        (* write functions *)
        let (generators, rcout) :=
          ExportsGenerators_writeFunctions generators EmptyString attributes verbose in
        run! Rcout rcout in
        compileAttributes_files rest verbose generators prototypes
  end.

(** Compile the attributes within the specified package directory into
    RcppExports.cpp and RcppExports.R. *)
Definition compileAttributes (sPackageDir sPackageName : string)
    (sCppFiles sCppFileBasenames sIncludes : list string) (sVerbose : bool)
    (sPlatform : Platform) : M bool :=
  (* arguments *)
  let packageDir := sPackageDir in
  let packageName := sPackageName in
  let cppFiles := sCppFiles in
  let includes := sIncludes in
  let verbose := sVerbose in
  let fileSep := file_sep sPlatform in
  (* initialize generators and namespace/prototype vectors *)
  let generators : ExportsGenerators := [] in
  let! g := CppExportsGenerator_new packageDir fileSep in
  let generators := ExportsGenerators_add generators (GenCpp g) in
  let! g := RExportsGenerator_new packageDir fileSep in
  let generators := ExportsGenerators_add generators (GenR g) in
  let! g := CppIncludeGenerator_new packageDir fileSep packageName in
  let generators := ExportsGenerators_add generators (GenInclude g) in
  let prototypes : list string := [] in
  (* write begin *)
  let generators := ExportsGenerators_writeBegin generators in
  (* Parse attributes from each file and generate code as required. *)
  let! state := compileAttributes_files cppFiles verbose generators prototypes in
  let generators := fst state in
  let prototypes := snd state in
  (* write end *)
  let generators := ExportsGenerators_writeEnd generators in
  (* commit *)
  let! wrote := ExportsGenerators_commit generators includes prototypes in
  (* verbose output *)
  run! (if verbose then
          if wrote
          then Rcout ("Rcpp exports files updated" +:+ Text.endl)
          else Rcout ("Rcpp exports files already up to date" +:+ Text.endl)
        else ret tt) in
  (* return status *)
  ret wrote.

End EntryPoints.

(** ** The environment, and concrete instances to run the model on *)

(** What [touch] does to a file: its modification time becomes the current
    time. *)
Definition touch (path : string) (w : World) : World :=
  match fs_lookup w path with
  | Some (RegFile c _) => set_fs (<[path := RegFile c (w_clock w)]>) w
  | _ => w
  end.

(** What a successful build leaves: the compiled artifact at its path. *)
Definition build (dynlibPath : string) (w : World) : World :=
  set_fs (<[dynlibPath := RegFile "ELF" (w_clock w)]>) w.

(** The cache entry that [sourceCppContext] consults for its arguments. *)
Definition cached (entries_ : SourceCppDynlibCache) (file code : string)
    : SourceCppDynlib :=
  if negb (Text.empty code) then lookupByCode entries_ code
  else lookupByFile entries_ file.

(** [FileInfo(path).lastModified()] in a world where [stat] does not fail. *)
Definition lastModified (w : World) (path : string) : Z :=
  match fs_lookup w path with Some n => node_mtime n | None => 0%Z end.

(** The invariant of the cache: no entry holds the empty build unit. *)
Definition cache_wf (entries_ : SourceCppDynlibCache) : Prop :=
  Forall (fun e => isEmpty (Entry_dynlib e) = false) entries_.

(** The three target files of [compileAttributes], and the directory of
    the third. *)
Definition cppExportsFile (packageDir fileSep : string) : string :=
  packageDir +:+ fileSep +:+ "src" +:+ fileSep +:+ "RcppExports.cpp".

Definition rExportsFile (packageDir fileSep : string) : string :=
  packageDir +:+ fileSep +:+ "R" +:+ fileSep +:+ "RcppExports.R".

Definition includeFile (packageDir fileSep scope : string) : string :=
  packageDir +:+ fileSep +:+ "inst" +:+ fileSep +:+ "include"
             +:+ fileSep +:+ scope +:+ ".hpp".

Definition includeDir (packageDir fileSep : string) : string :=
  packageDir +:+ fileSep +:+ "inst" +:+ fileSep +:+ "include".

(** ** Notions for the properties *)

(** The passing of time. *)
Definition later (seconds : Z) (w : World) : World :=
  mkWorld (w_fs w) (w_staterr w) (w_openerr w) (w_clock w + seconds)
          (w_sample w) (w_sampled w) (w_tempfile w) (w_tempfiles w)
          (w_cache w) (w_Rcout w).

(** Worlds that differ by their files only. *)
Definition same_but_fs (w w' : World) : Prop :=
  w_staterr w' = w_staterr w /\ w_openerr w' = w_openerr w /\
  w_clock w' = w_clock w /\ w_sample w' = w_sample w /\
  w_sampled w' = w_sampled w /\ w_tempfile w' = w_tempfile w /\
  w_tempfiles w' = w_tempfiles w /\ w_cache w' = w_cache w /\
  w_Rcout w' = w_Rcout w.

(** Worlds that differ at some paths only, the failures of the environment
    being the same. *)
Definition only_changes (paths : list string) (w w' : World) : Prop :=
  w_staterr w' = w_staterr w /\ w_openerr w' = w_openerr w /\
  forall p, ~ In p paths -> fs_lookup w' p = fs_lookup w p.

(** The world after the target file has been written. *)
Definition written (g : ExportsGenerator) (generatedCode : string) (w : World)
    : World :=
  set_fs (<[targetFile_ g := RegFile generatedCode (w_clock w)]>) w.

(** What the constructor of a generator reads as existing code. *)
Definition existing (w : World) (path : string) : string :=
  default EmptyString (file_content w path).

(** The target file lets the constructor of a generator return. *)
Definition target_ok (w : World) (path : string) : Prop :=
  w_staterr w path = false /\
  match fs_lookup w path with
  | None => True
  | Some (RegFile c _) =>
      can_open w path = true /\
      Text.empty c || Text.found generatorToken c = true
  | Some (Directory _) => False
  end.

(** The target file is as a commit of the generator leaves it: it holds the
    header and the code, or there is no code and no file. *)
Definition settled (b : ExportsGenerator) (preamble : string) (w : World) : Prop :=
  w_staterr w (targetFile_ b) = false /\
  ((file_content w (targetFile_ b) =
      Some (commit_header (commentPrefix_ b) preamble +:+ codeStream_ b) /\
    can_open w (targetFile_ b) = true) \/
   (codeStream_ b = EmptyString /\ fs_lookup w (targetFile_ b) = None)).

(** The fields that [regenerateSource] leaves as they are. *)
Definition same_unit (d d' : SourceCppDynlib) : Prop :=
  cppSourcePath_ d' = cppSourcePath_ d /\
  cppSourceFilename_ d' = cppSourceFilename_ d /\
  moduleName_ d' = moduleName_ d /\
  buildDirectory_ d' = buildDirectory_ d /\
  fileSep_ d' = fileSep_ d /\
  dynlibExt_ d' = dynlibExt_ d.

(** The context returned for a unit. *)
Definition context_of (dynlib : SourceCppDynlib) (buildRequired : bool) : Context :=
  mkContext (moduleName dynlib) (cppSourcePath dynlib) buildRequired
    (buildDirectory dynlib) (generatedCpp dynlib) (exportedFunctions dynlib)
    (cppSourceFilename dynlib) (dynlibFilename dynlib) (dynlibPath dynlib)
    (depends dynlib).

(** The generators that [compileAttributes] constructs, from the existing
    code of the three target files. *)
Definition initial_generators (packageDir fileSep scope : string)
    (e1 e2 e3 : string) : ExportsGenerators :=
  [GenCpp (mkCppExportsGenerator
             (mkExportsGenerator (cppExportsFile packageDir fileSep) "//"
                                 e1 EmptyString));
   GenR (mkRExportsGenerator
           (mkExportsGenerator (rExportsFile packageDir fileSep) "#"
                               e2 EmptyString) []);
   GenInclude (mkCppIncludeGenerator
                 (mkExportsGenerator (includeFile packageDir fileSep scope) "//"
                                     e3 EmptyString)
                 scope (includeDir packageDir fileSep) false)].

Section Batch.
Context `{AttributesParser}.

(** What the loop of [compileAttributes] computes from the parsed files:
    the generators and the prototypes. *)
Fixpoint generated (parsed : list SourceFileAttributes) (verbose : bool)
    (generators : ExportsGenerators) (prototypes : list string)
    : ExportsGenerators * list string :=
  match parsed with
  | [] => (generators, prototypes)
  | attributes :: rest =>
      if SourceFileAttributes_empty attributes
      then generated rest verbose generators prototypes
      else generated rest verbose
             (fst (ExportsGenerators_writeFunctions generators EmptyString
                     attributes verbose))
             (prototypes ++ sfa_prototypes attributes)
  end.

(** A file of the batch has attributes and declares the C++ interface. *)
Definition native_interface (parsed : list SourceFileAttributes) : bool :=
  existsb (fun a => negb (SourceFileAttributes_empty a) &&
                    hasInterface a kInterfaceCpp) parsed.

(** The files of a batch as the parser sees them in a world. *)
Definition parsed_in (w : World) (cppFiles : list string)
    : list SourceFileAttributes :=
  map (fun f => parseSourceFile f (file_content w f)) cppFiles.

End Batch.

(** ** The text generated for a package *)

Section Texts.
Context `{AttributesParser}.

(** The exported functions of some source files, in the order of the files
    and of their attributes. *)
Definition exported_in (parsed : list SourceFileAttributes) : list Attribute :=
  List.filter isExportedFunction (flat_map sfa_attributes parsed).

(** The source files that declare an interface. *)
Definition declaring (name : string) (parsed : list SourceFileAttributes)
    : list SourceFileAttributes :=
  List.filter (fun a => hasInterface a name) parsed.

(** The prototypes of the source files that have attributes. *)
Definition prototypes_in (parsed : list SourceFileAttributes) : list string :=
  flat_map sfa_prototypes
    (List.filter (fun a => negb (SourceFileAttributes_empty a)) parsed).

(** The line of the manifest that registers an exported function. *)
Definition registration (it : Attribute) : string :=
  "    Rcpp::function(" +:+ Text.dquote +:+ exportedName it +:+ Text.dquote
    +:+ ", &" +:+ Function_name (Attribute_function it) +:+ ");" +:+ Text.endl.

(** The lines of the wrapper script for a documented function: an empty
    line, the documentation, the placeholder and an empty line. *)
Definition documentation (it : Attribute) : string :=
  Text.endl +:+
  String.concat EmptyString
    (map (fun line => line +:+ Text.endl) (Attribute_roxygen it)) +:+
  exportedName it +:+ "<- function(" +:+
  String.concat ", "
    (map Argument_name (Function_arguments (Attribute_function it))) +:+
  ") {}" +:+ Text.endl +:+ Text.endl.

(** The call that ends the wrapper script. *)
Definition loadModule_call (names : list string) : string :=
  "Rcpp::loadModule(" +:+ Text.dquote +:+ "RcppExports" +:+ Text.dquote
    +:+ ", " +:+
  match names with
  | [] => "what = character())"
  | _ :: _ =>
      "what = c(" +:+
      String.concat
        ("," +:+ Text.endl +:+ "                                         ")
        (map (fun name => Text.dquote +:+ name +:+ Text.dquote) names)
      +:+ "))" +:+ Text.endl
  end.

(** The code of the manifest, of the wrapper script and of the header for
    the parsed files of a package. *)
Definition manifest_code (parsed : list SourceFileAttributes) : string :=
  "RCPP_MODULE(RcppExports) {" +:+ Text.endl +:+
  String.concat EmptyString (map registration (exported_in parsed)) +:+
  "}" +:+ Text.endl.

Definition wrapper_code (parsed : list SourceFileAttributes) : string :=
  String.concat EmptyString
    (map documentation
       (List.filter (fun it => negb (bool_decide (Attribute_roxygen it = [])))
                    (exported_in (declaring kInterfaceR parsed)))) +:+
  loadModule_call (map exportedName (exported_in (declaring kInterfaceR parsed))).

Definition header_code (scope : string) (parsed : list SourceFileAttributes)
    : string :=
  "namespace " +:+ scope +:+ " {" +:+ Text.endl +:+
  String.concat EmptyString
    (map (forwarding_stub EmptyString)
         (exported_in (declaring kInterfaceCpp parsed))) +:+
  "}" +:+ Text.endl.

End Texts.

Module Example.

(** The last component of a path written with slashes. *)
Fixpoint after_last_slash (s acc : string) : string :=
  match s with
  | EmptyString => acc
  | String c t =>
      if Ascii.eqb c "/"%char then after_last_slash t t
      else after_last_slash t acc
  end.

Definition rbase : RBase := {| basename := fun s => after_last_slash s s |}.

(** A parser that finds, in every file that is not empty, the one exported
    function [int f(int x)] with one line of documentation, and the R
    interface only. *)
Definition parser : AttributesParser := {|
  kExportAttribute := "export";
  kDependsAttribute := "depends";
  kInterfaceR := "r";
  kInterfaceCpp := "cpp";
  parseSourceFile path content :=
    match content with
    | Some (String _ _) =>
        mkSourceFileAttributes path
          [mkAttribute "export" [] (Fn "int" "f" [mkArgument "x" "int"])
                       ["//' doc"]]
          ["int f(int x)"] ["r"]
    | _ => mkSourceFileAttributes path [] [] []
    end;
  printFunction f := Function_type f +:+ " " +:+ Function_name f +:+ "()"
|}.

Definition platform : Platform := mkPlatform "/" ".so".

(** A world at time 100 that holds the files [fs]; [sample] always draws 7,
    [tempfile] numbers its names. *)
Definition world (fs : gmap string node) : World :=
  mkWorld fs (fun _ => false) (fun _ => false) 100%Z
          (fun _ => 7%Z) 0 (fun n => "/tmp/sourcecpp_" +:+ pretty n) 0
          [] EmptyString.

(** The manifest of the package [pkg] whose one source file exports
    [int f(int x)]. *)
Definition manifest_text : string :=
  "// This file was generated by Rcpp::compileAttributes" +:+ Text.endl +:+
  "// Generator token: 10BE3573-1514-4C36-9D1C-5A225CD40393" +:+ Text.endl +:+
  Text.endl +:+
  "#include <Rcpp.h>" +:+ Text.endl +:+
  Text.endl +:+
  "int f(int x);" +:+ Text.endl +:+
  Text.endl +:+
  "RCPP_MODULE(RcppExports) {" +:+ Text.endl +:+
  "    Rcpp::function(" +:+ Text.dquote +:+ "f" +:+ Text.dquote +:+ ", &f);"
    +:+ Text.endl +:+
  "}" +:+ Text.endl.

(** Its wrapper script. *)
Definition wrapper_text : string :=
  "# This file was generated by Rcpp::compileAttributes" +:+ Text.endl +:+
  "# Generator token: 10BE3573-1514-4C36-9D1C-5A225CD40393" +:+ Text.endl +:+
  Text.endl +:+
  Text.endl +:+
  "//' doc" +:+ Text.endl +:+
  "f<- function(x) {}" +:+ Text.endl +:+
  Text.endl +:+
  "Rcpp::loadModule(" +:+ Text.dquote +:+ "RcppExports" +:+ Text.dquote +:+
    ", what = c(" +:+ Text.dquote +:+ "f" +:+ Text.dquote +:+ "))" +:+ Text.endl.

(** A header generated for it earlier. *)
Definition header_text : string :=
  "// This file was generated by Rcpp::compileAttributes" +:+ Text.endl +:+
  "// Generator token: 10BE3573-1514-4C36-9D1C-5A225CD40393" +:+ Text.endl +:+
  Text.endl +:+
  "namespace mypkg {" +:+ Text.endl +:+
  "}" +:+ Text.endl.

(** The package with its source file only. *)
Definition package : World :=
  world {["pkg/src/a.cpp" := RegFile "int f(int x);" 50%Z]}.

(** The package with its generated files up to date and a header left from
    an earlier run. *)
Definition package_with_header : World :=
  world
    (<["pkg/src/a.cpp" := RegFile "int f(int x);" 50%Z]>
     (<["pkg/src/RcppExports.cpp" := RegFile manifest_text 60%Z]>
      (<["pkg/R/RcppExports.R" := RegFile wrapper_text 60%Z]>
       (<["pkg/inst/include/mypkg.hpp" := RegFile header_text 60%Z]> ∅)))).

End Example.

(** * Properties *)

(** ** Text *)

Lemma empty_true (s : string) : Text.empty s = true <-> s = EmptyString.
Proof. destruct s; simpl; split; congruence. Qed.

Lemma empty_false (s : string) : Text.empty s = false <-> s <> EmptyString.
Proof. destruct s; simpl; split; congruence. Qed.

Lemma app_nil_s (b : string) : EmptyString +:+ b = b.
Proof. reflexivity. Qed.

Lemma app_cons_s (x : ascii) (a b : string) :
  String x a +:+ b = String x (a +:+ b).
Proof. reflexivity. Qed.

Lemma app_empty_inv (a b : string) :
  a +:+ b = EmptyString -> a = EmptyString /\ b = EmptyString.
Proof.
  destruct a; [rewrite app_nil_s; tauto | rewrite app_cons_s; discriminate].
Qed.

Lemma app_assoc_s (a b c : string) : (a +:+ b) +:+ c = a +:+ (b +:+ c).
Proof.
  induction a as [|x a IH]; [reflexivity|].
  rewrite !app_cons_s. now rewrite IH.
Qed.

Lemma length_app_s (a b : string) :
  String.length (a +:+ b) = String.length a + String.length b.
Proof.
  induction a as [|x a IH]; [reflexivity|].
  rewrite app_cons_s. simpl. now rewrite IH.
Qed.

Lemma substring_app_here (t b : string) :
  String.substring 0 (String.length t) (t +:+ b) = t.
Proof.
  induction t as [|x t IH].
  - rewrite app_nil_s. destruct b; reflexivity.
  - rewrite app_cons_s. simpl. now rewrite IH.
Qed.

Lemma substring_app_skip (a s : string) (n : nat) :
  String.substring (String.length a) n (a +:+ s) = String.substring 0 n s.
Proof.
  induction a as [|x a IH]; [reflexivity|].
  rewrite app_cons_s. simpl. exact IH.
Qed.

(** A text that holds [needle] between any two texts is found to hold it. *)
Lemma found_inside (needle a b : string) :
  needle <> EmptyString -> Text.found needle (a +:+ needle +:+ b) = true.
Proof.
  intros Hne. unfold Text.found, Text.find.
  destruct (String.index 0 needle (a +:+ needle +:+ b)) eqn:E; [reflexivity|].
  exfalso.
  apply (String.index_correct3 0 (String.length a)) in E; [|assumption|lia].
  apply E. rewrite substring_app_skip. apply substring_app_here.
Qed.

(** ** Files *)

(** Unfolding the operations of the monad. *)
Ltac unfold_monad :=
  unfold bind, ret, throw, get, modify in *; cbv beta iota in *.

Lemma FileInfo_new_eq (path : string) (w : World) :
  w_staterr w path = false ->
  FileInfo_new path w =
    (Ok (mkFileInfo path (if fs_lookup w path is Some _ then true else false)
                    (lastModified w path)), w).
Proof.
  intros Hs. unfold FileInfo_new, lastModified. unfold_monad.
  rewrite Hs. destruct (fs_lookup w path); reflexivity.
Qed.

Lemma FileInfo_new_world (path : string) (w : World) :
  snd (FileInfo_new path w) = w.
Proof.
  unfold FileInfo_new. unfold_monad.
  destruct (w_staterr w path); [reflexivity|].
  destruct (fs_lookup w path); reflexivity.
Qed.

Lemma can_open_nonempty (w : World) (path : string) :
  can_open w path = true -> Text.empty path = false.
Proof. unfold can_open. destruct (Text.empty path); [discriminate | reflexivity]. Qed.

Lemma fs_lookup_insert_eq (w : World) (path : string) (n : node) :
  Text.empty path = false ->
  fs_lookup (set_fs (<[path := n]>) w) path = Some n.
Proof.
  intros E. unfold fs_lookup. rewrite E. simpl. apply lookup_insert_eq.
Qed.

Lemma fs_lookup_insert_ne (w : World) (path other : string) (n : node) :
  path <> other ->
  fs_lookup (set_fs (<[path := n]>) w) other = fs_lookup w other.
Proof.
  intros E. unfold fs_lookup. destruct (Text.empty other); [reflexivity|].
  simpl. now apply lookup_insert_ne.
Qed.

Lemma fs_lookup_delete_eq (w : World) (path : string) :
  fs_lookup (set_fs (delete path) w) path = None.
Proof.
  unfold fs_lookup. destruct (Text.empty path); [reflexivity|].
  simpl. apply lookup_delete_eq.
Qed.

Lemma fs_lookup_delete_ne (w : World) (path other : string) :
  path <> other ->
  fs_lookup (set_fs (delete path) w) other = fs_lookup w other.
Proof.
  intros E. unfold fs_lookup. destruct (Text.empty other); [reflexivity|].
  simpl. now apply lookup_delete_ne.
Qed.

(** ** The header of a generated file *)

Lemma header_code_nonempty (commentPrefix preamble code : string) :
  commit_header commentPrefix preamble +:+ code <> EmptyString.
Proof.
  intros E. apply app_empty_inv in E as [E _]. unfold commit_header in E.
  destruct (negb (Text.empty preamble)).
  - apply app_empty_inv in E as [E _]. apply app_empty_inv in E as [E _].
    apply app_empty_inv in E as [_ E]. discriminate E.
  - apply app_empty_inv in E as [E _].
    apply app_empty_inv in E as [_ E]. discriminate E.
Qed.

Lemma header_code_found (commentPrefix preamble code : string) :
  Text.found generatorToken (commit_header commentPrefix preamble +:+ code) = true.
Proof.
  unfold commit_header.
  destruct (negb (Text.empty preamble));
    rewrite ?app_assoc_s;
    match goal with
    | |- Text.found _ (?a +:+ ?b +:+ ?c +:+ ?d +:+ ?e +:+ ?f +:+ ?r) = true =>
        rewrite <- (app_assoc_s a), <- (app_assoc_s (a +:+ b)),
                <- (app_assoc_s ((a +:+ b) +:+ c)),
                <- (app_assoc_s (((a +:+ b) +:+ c) +:+ d)),
                <- (app_assoc_s ((((a +:+ b) +:+ c) +:+ d) +:+ e))
    end; apply found_inside; discriminate.
Qed.

(** ** The constructor of the abstract class *)

(** What the constructor does, case by case. *)
Lemma ExportsGenerator_new_eq (targetFile commentPrefix : string) (w : World) :
  w_staterr w targetFile = false ->
  ExportsGenerator_new targetFile commentPrefix w =
    match fs_lookup w targetFile with
    | None =>
        (Ok (mkExportsGenerator targetFile commentPrefix EmptyString EmptyString), w)
    | Some (RegFile c _) =>
        if can_open w targetFile then
          if Text.empty c || Text.found generatorToken c
          then (Ok (mkExportsGenerator targetFile commentPrefix c EmptyString), w)
          else (Throw (file_exists targetFile), w)
        else (Throw (file_io_error targetFile), w)
    | Some (Directory _) => (Throw (file_io_error targetFile), w)
    end.
Proof.
  intros Hs. unfold ExportsGenerator_new.
  unfold bind at 1. rewrite (FileInfo_new_eq _ _ Hs).
  unfold read_stream, file_content, isSafeToOverwrite. unfold_monad.
  destruct (fs_lookup w targetFile) as [[c t|t]|] eqn:E; simpl;
    rewrite ?E; simpl; try reflexivity.
  destruct (can_open w targetFile); simpl; [|reflexivity].
  destruct (Text.empty c || Text.found generatorToken c); reflexivity.
Qed.

Lemma ExportsGenerator_new_world (targetFile commentPrefix : string) (w : World) :
  snd (ExportsGenerator_new targetFile commentPrefix w) = w.
Proof.
  unfold ExportsGenerator_new, FileInfo_new, read_stream. unfold_monad.
  destruct (w_staterr w targetFile); [reflexivity|].
  destruct (fs_lookup w targetFile) as [n|] eqn:E; simpl.
  - destruct (file_content w targetFile); [|reflexivity].
    destruct (can_open w targetFile); [|reflexivity]. simpl.
    match goal with |- context [negb ?b] => destruct b end; reflexivity.
  - reflexivity.
Qed.

(** ** The commit of the abstract class *)

(** [commit], case by case. *)
Lemma ExportsGenerator_commit_eq (g : ExportsGenerator) (preamble : string)
    (w : World) :
  w_staterr w (targetFile_ g) = false ->
  ExportsGenerator_commit g preamble w =
    let generatedCode :=
      commit_header (commentPrefix_ g) preamble +:+ codeStream_ g in
    if Text.empty (codeStream_ g) &&
       (if fs_lookup w (targetFile_ g) is Some _ then false else true)
    then (Ok false, w)
    else if String.eqb generatedCode (existingCode_ g) then (Ok false, w)
    else if can_open w (targetFile_ g)
         then (Ok true, written g generatedCode w)
         else (Throw (file_io_error (targetFile_ g)), w).
Proof.
  intros Hs. unfold ExportsGenerator_commit, write_stream, written.
  destruct (Text.empty (codeStream_ g)) eqn:Ec.
  - unfold bind at 1. unfold bind at 1. rewrite (FileInfo_new_eq _ _ Hs).
    unfold_monad. simpl.
    destruct (fs_lookup w (targetFile_ g)); simpl; [|reflexivity].
    destruct (String.eqb _ _); simpl; [reflexivity|].
    destruct (can_open w (targetFile_ g)); reflexivity.
  - unfold_monad. simpl.
    destruct (String.eqb _ _); simpl; [reflexivity|].
    destruct (can_open w (targetFile_ g)); reflexivity.
Qed.

(** When [commit] reports a write, the target file holds the header
    followed by the generated code. *)
Lemma ExportsGenerator_commit_true (g : ExportsGenerator) (preamble : string)
    (w w' : World) :
  ExportsGenerator_commit g preamble w = (Ok true, w') ->
  w' = written g (commit_header (commentPrefix_ g) preamble +:+ codeStream_ g) w /\
  can_open w (targetFile_ g) = true.
Proof.
  unfold ExportsGenerator_commit, write_stream, FileInfo_new, written.
  unfold_monad.
  destruct (Text.empty (codeStream_ g)); simpl.
  - destruct (w_staterr w (targetFile_ g)); [discriminate|].
    destruct (fs_lookup w (targetFile_ g)); simpl; [|discriminate].
    destruct (String.eqb _ _); simpl; [discriminate|].
    destruct (can_open w (targetFile_ g)); simpl; [|discriminate].
    intros [= <-]. split; reflexivity.
  - destruct (String.eqb _ _); simpl; [discriminate|].
    destruct (can_open w (targetFile_ g)); simpl; [|discriminate].
    intros [= <-]. split; reflexivity.
Qed.

Lemma file_content_written (g : ExportsGenerator) (code : string) (w : World) :
  can_open w (targetFile_ g) = true ->
  file_content (written g code w) (targetFile_ g) = Some code.
Proof.
  intros Ho. unfold file_content, written.
  rewrite fs_lookup_insert_eq; [reflexivity|]. now apply (can_open_nonempty w).
Qed.

(** ** Exported functions *)

Section ExportedFunctions.
Context `{AttributesParser}.

(** C8. An attribute counts as an exported function exactly when its name is
    the export attribute and the function it carries is not empty; its
    exported name is the name of its first parameter when it has parameters,
    and the name of its function otherwise. *)
Theorem export_filter_rule (attribute : Attribute) :
  (isExportedFunction attribute = true <->
     Attribute_name attribute = kExportAttribute /\
     Function_empty (Attribute_function attribute) = false) /\
  (forall p rest, Attribute_params attribute = p :: rest ->
     exportedName attribute = Param_name p) /\
  (Attribute_params attribute = [] ->
     exportedName attribute = Function_name (Attribute_function attribute)).
Proof.
  unfold isExportedFunction, exportedName. split; [split | split].
  - intros [E1 E2]%andb_prop. split.
    + now apply String.eqb_eq.
    + now destruct (Function_empty _).
  - intros [E1 E2]. apply andb_true_intro. split.
    + now apply String.eqb_eq.
    + now rewrite E2.
  - intros p rest ->. reflexivity.
  - intros ->. reflexivity.
Qed.

(** The build unit records the exported names by the same rule. *)
Lemma discover_exported (a : SourceFileAttributes) :
  fst (discover a) =
  map exportedName (List.filter isExportedFunction (sfa_attributes a)).
Proof.
  unfold discover.
  assert (G : forall l acc dep,
    fst (fold_left
      (fun (found : list string * list string) (it : Attribute) =>
         let (exportedFunctions, depends) := found in
         if String.eqb (Attribute_name it) kExportAttribute &&
            negb (Function_empty (Attribute_function it))
         then (exportedFunctions ++ [exportedName it], depends)
         else if String.eqb (Attribute_name it) kDependsAttribute
         then (exportedFunctions,
               fold_left (fun depends p => depends ++ [Param_name p])
                         (Attribute_params it) depends)
         else (exportedFunctions, depends)) l (acc, dep))
    = acc ++ map exportedName (List.filter isExportedFunction l)).
  { induction l as [|it l IH]; intros acc dep; simpl.
    - now rewrite app_nil_r.
    - unfold isExportedFunction at 1.
      destruct (String.eqb (Attribute_name it) kExportAttribute &&
                negb (Function_empty (Attribute_function it))) eqn:E.
      + rewrite IH. simpl. now rewrite <- app_assoc.
      + destruct (String.eqb (Attribute_name it) kDependsAttribute); apply IH. }
  apply G.
Qed.

End ExportedFunctions.

(** ** The contract of the commit and of the safe-overwrite guard *)

(** C3. With [stat] and the opening of the target file succeeding, [commit]
    does nothing and returns false when the accumulated code is empty and the
    target file does not exist; otherwise it does nothing and returns false
    when the header followed by the code is the content read at
    construction, and it writes the target file and returns true when they
    differ.  So it returns true exactly when they differ, the first case
    apart. *)
Theorem commit_writes_iff_changed (g : ExportsGenerator) (preamble : string)
    (w : World) :
  w_staterr w (targetFile_ g) = false ->
  can_open w (targetFile_ g) = true ->
  let generatedCode :=
    commit_header (commentPrefix_ g) preamble +:+ codeStream_ g in
  let nothing :=
    codeStream_ g = EmptyString /\ fs_lookup w (targetFile_ g) = None in
  (nothing -> ExportsGenerator_commit g preamble w = (Ok false, w)) /\
  (~ nothing -> generatedCode = existingCode_ g ->
     ExportsGenerator_commit g preamble w = (Ok false, w)) /\
  (~ nothing -> generatedCode <> existingCode_ g ->
     ExportsGenerator_commit g preamble w =
       (Ok true,
        set_fs (<[targetFile_ g := RegFile generatedCode (w_clock w)]>) w) /\
     file_content
       (snd (ExportsGenerator_commit g preamble w)) (targetFile_ g)
       = Some generatedCode) /\
  (fst (ExportsGenerator_commit g preamble w) = Ok true <->
     generatedCode <> existingCode_ g /\ ~ nothing).
Proof.
  intros Hs Ho generatedCode nothing.
  pose proof (ExportsGenerator_commit_eq g preamble w Hs) as E.
  cbv zeta in E. fold generatedCode in E. rewrite Ho in E.
  assert (Hn : Text.empty (codeStream_ g) &&
               (if fs_lookup w (targetFile_ g) is Some _ then false else true)
               = true <-> nothing).
  { unfold nothing. rewrite andb_true_iff, empty_true.
    destruct (fs_lookup w (targetFile_ g)); intuition congruence. }
  destruct (Text.empty (codeStream_ g) &&
            (if fs_lookup w (targetFile_ g) is Some _ then false else true)) eqn:En.
  - assert (N : nothing) by now apply Hn.
    rewrite E. split; [reflexivity|]. split; [tauto|]. split; [tauto|].
    simpl. split; [discriminate | tauto].
  - assert (N : ~ nothing) by (intros N; apply Hn in N; discriminate).
    destruct (String.eqb_spec generatedCode (existingCode_ g)) as [Eq|Ne];
      rewrite E.
    + split; [tauto|]. split; [reflexivity|]. split; [tauto|].
      simpl. split; [discriminate | tauto].
    + split; [tauto|]. split; [tauto|]. split.
      * intros _ _. split; [reflexivity|].
        simpl. apply (file_content_written g generatedCode w Ho).
      * simpl. tauto.
Qed.

(** C3 at a wrapper script whose code is one line and whose target file
    does not exist. *)
Lemma commit_writes_iff_changed_witness :
  let g := mkExportsGenerator "pkg/R/RcppExports.R" "#" EmptyString "f <- 1" in
  let w := Example.world ∅ in
  w_staterr w (targetFile_ g) = false /\
  can_open w (targetFile_ g) = true /\
  fst (ExportsGenerator_commit g EmptyString w) = Ok true.
Proof.
  intros g w. split; [reflexivity|]. split; [reflexivity|].
  apply (commit_writes_iff_changed g EmptyString w eq_refl eq_refl).
  split.
  - vm_compute. discriminate.
  - intros [E _]. vm_compute in E. discriminate E.
Defined.

(** C9. A target file that exists and is empty does not hold the generator
    token, yet the constructor accepts it, for each of the three classes;
    and the generator so constructed overwrites it at commit, whatever it
    has generated. *)
Theorem empty_existing_file_is_safe (targetFile commentPrefix : string)
    (mtime : Z) (w : World) :
  w_staterr w targetFile = false ->
  can_open w targetFile = true ->
  fs_lookup w targetFile = Some (RegFile EmptyString mtime) ->
  Text.found generatorToken EmptyString = false /\
  ExportsGenerator_new targetFile commentPrefix w =
    (Ok (mkExportsGenerator targetFile commentPrefix EmptyString EmptyString), w) /\
  (forall packageDir fileSep, targetFile = cppExportsFile packageDir fileSep ->
     exists g, CppExportsGenerator_new packageDir fileSep w = (Ok g, w)) /\
  (forall packageDir fileSep, targetFile = rExportsFile packageDir fileSep ->
     exists g, RExportsGenerator_new packageDir fileSep w = (Ok g, w)) /\
  (forall packageDir fileSep scope,
     targetFile = includeFile packageDir fileSep scope ->
     exists g, CppIncludeGenerator_new packageDir fileSep scope w = (Ok g, w)) /\
  (forall code preamble,
     fst (ExportsGenerator_commit
            (mkExportsGenerator targetFile commentPrefix EmptyString code)
            preamble w) = Ok true).
Proof.
  intros Hs Ho Hf.
  assert (New : forall prefix, ExportsGenerator_new targetFile prefix w =
            (Ok (mkExportsGenerator targetFile prefix EmptyString EmptyString), w)).
  { intros prefix. rewrite (ExportsGenerator_new_eq _ _ _ Hs), Hf, Ho.
    reflexivity. }
  split; [reflexivity|]. split; [apply New|].
  split; [|split; [|split]].
  - intros packageDir fileSep ->. eexists.
    unfold CppExportsGenerator_new, bind. unfold cppExportsFile in New.
    rewrite New. reflexivity.
  - intros packageDir fileSep ->. eexists.
    unfold RExportsGenerator_new, bind. unfold rExportsFile in New.
    rewrite New. reflexivity.
  - intros packageDir fileSep scope ->. eexists.
    unfold CppIncludeGenerator_new, bind. unfold includeFile in New.
    rewrite New. reflexivity.
  - intros code preamble.
    rewrite ExportsGenerator_commit_eq by exact Hs. cbv zeta. simpl.
    rewrite Hf, andb_false_r, Ho.
    destruct (String.eqb_spec (commit_header commentPrefix preamble +:+ code)
                              EmptyString) as [E|_]; [|reflexivity].
    now apply header_code_nonempty in E.
Qed.

(** C9 at an empty RcppExports.R. *)
Lemma empty_existing_file_is_safe_witness :
  let w := Example.world {["pkg/R/RcppExports.R" := RegFile EmptyString 50%Z]} in
  w_staterr w "pkg/R/RcppExports.R" = false /\
  can_open w "pkg/R/RcppExports.R" = true /\
  fs_lookup w "pkg/R/RcppExports.R" = Some (RegFile EmptyString 50%Z) /\
  exists g, RExportsGenerator_new "pkg" "/" w = (Ok g, w).
Proof.
  intros w. split; [reflexivity|]. split; [reflexivity|]. split; [reflexivity|].
  apply (empty_existing_file_is_safe "pkg/R/RcppExports.R" "#" 50%Z w
           eq_refl eq_refl eq_refl).
  reflexivity.
Defined.

(** C2 fails at an empty file: the file exists and does not hold the
    generator token, and the constructor of the wrapper-script generator
    returns a generator instead of throwing. *)
Lemma unsafe_overwrite_counterexample :
  let w := Example.world {["pkg/R/RcppExports.R" := RegFile EmptyString 50%Z]} in
  file_content w "pkg/R/RcppExports.R" = Some EmptyString /\
  Text.found generatorToken EmptyString = false /\
  fst (RExportsGenerator_new "pkg" "/" w)
    = Ok (mkRExportsGenerator
            (mkExportsGenerator "pkg/R/RcppExports.R" "#" EmptyString EmptyString)
            []) /\
  fst (RExportsGenerator_new "pkg" "/" w) <> Throw (file_exists "pkg/R/RcppExports.R").
Proof.
  intros w. split; [reflexivity|]. split; [reflexivity|].
  split; [reflexivity|]. vm_compute. discriminate.
Qed.

(** C2, amended. A target file that exists, can be read, is not empty and
    does not hold the generator token makes the constructor throw
    [file_exists], for each of the three classes, and the world is left as
    it was: nothing is written. *)
Theorem unsafe_overwrite_refused (targetFile commentPrefix existingCode : string)
    (w : World) :
  w_staterr w targetFile = false ->
  can_open w targetFile = true ->
  file_content w targetFile = Some existingCode ->
  existingCode <> EmptyString ->
  Text.found generatorToken existingCode = false ->
  ExportsGenerator_new targetFile commentPrefix w =
    (Throw (file_exists targetFile), w) /\
  (forall packageDir fileSep, targetFile = cppExportsFile packageDir fileSep ->
     CppExportsGenerator_new packageDir fileSep w =
       (Throw (file_exists targetFile), w)) /\
  (forall packageDir fileSep, targetFile = rExportsFile packageDir fileSep ->
     RExportsGenerator_new packageDir fileSep w =
       (Throw (file_exists targetFile), w)) /\
  (forall packageDir fileSep scope,
     targetFile = includeFile packageDir fileSep scope ->
     CppIncludeGenerator_new packageDir fileSep scope w =
       (Throw (file_exists targetFile), w)).
Proof.
  intros Hs Ho Hc Hne Hf.
  assert (New : forall prefix, ExportsGenerator_new targetFile prefix w =
                               (Throw (file_exists targetFile), w)).
  { intros prefix. rewrite (ExportsGenerator_new_eq _ _ _ Hs).
    unfold file_content in Hc.
    destruct (fs_lookup w targetFile) as [[c t|t]|]; try discriminate.
    injection Hc as ->. rewrite Ho, Hf.
    apply empty_false in Hne. rewrite Hne. reflexivity. }
  split; [apply New|]. split; [|split].
  - intros packageDir fileSep ->.
    unfold CppExportsGenerator_new, bind. unfold cppExportsFile in New.
    rewrite New. reflexivity.
  - intros packageDir fileSep ->.
    unfold RExportsGenerator_new, bind. unfold rExportsFile in New.
    rewrite New. reflexivity.
  - intros packageDir fileSep scope ->.
    unfold CppIncludeGenerator_new, bind. unfold includeFile in New.
    rewrite New. reflexivity.
Qed.

(** C2, amended, at a hand-written RcppExports.R. *)
Lemma unsafe_overwrite_refused_witness :
  let w := Example.world {["pkg/R/RcppExports.R" := RegFile "f <- 1" 50%Z]} in
  w_staterr w "pkg/R/RcppExports.R" = false /\
  can_open w "pkg/R/RcppExports.R" = true /\
  file_content w "pkg/R/RcppExports.R" = Some "f <- 1" /\
  "f <- 1" <> EmptyString /\
  Text.found generatorToken "f <- 1" = false /\
  RExportsGenerator_new "pkg" "/" w =
    (Throw (file_exists "pkg/R/RcppExports.R"), w).
Proof.
  intros w.
  assert (N : "f <- 1" <> EmptyString) by discriminate.
  split; [reflexivity|]. split; [reflexivity|]. split; [reflexivity|].
  split; [exact N|]. split; [reflexivity|].
  apply (unsafe_overwrite_refused "pkg/R/RcppExports.R" "#" "f <- 1" w
           eq_refl eq_refl eq_refl N eq_refl).
  reflexivity.
Defined.

(** C10. The commit of the wrapper-script generator does not depend on the
    include lines and the prototypes it is given: it is the commit of the
    abstract class with an empty preamble, so that a file it writes holds
    the header and the generated code and nothing else. *)
Theorem RExports_commit_ignores_arguments `{AttributesParser}
    (g : RExportsGenerator)
    (includes1 prototypes1 includes2 prototypes2 : list string) (w : World) :
  commit (GenR g) includes1 prototypes1 w =
  commit (GenR g) includes2 prototypes2 w /\
  (forall w', commit (GenR g) includes1 prototypes1 w = (Ok true, w') ->
     file_content w' (targetFile_ (r_base g)) =
       Some (commit_header (commentPrefix_ (r_base g)) EmptyString
               +:+ codeStream_ (r_base g))).
Proof.
  split; [reflexivity|].
  intros w' E. simpl in E. unfold RExportsGenerator_commit in E.
  apply ExportsGenerator_commit_true in E as [-> Ho].
  now apply file_content_written.
Qed.

(** ** Worlds that differ by their files only *)

Lemma same_but_fs_refl (w : World) : same_but_fs w w.
Proof. repeat split. Qed.

Lemma same_but_fs_trans (w1 w2 w3 : World) :
  same_but_fs w1 w2 -> same_but_fs w2 w3 -> same_but_fs w1 w3.
Proof.
  unfold same_but_fs. intros (?&?&?&?&?&?&?&?&?) (?&?&?&?&?&?&?&?&?).
  repeat split; congruence.
Qed.

Lemma same_but_fs_set_fs (f : gmap string node -> gmap string node) (w : World) :
  same_but_fs w (set_fs f w).
Proof. repeat split. Qed.

Lemma bind_Ok {A B : Type} (c : M A) (k : A -> M B) (w w' : World) (b : B) :
  bind c k w = (Ok b, w') ->
  exists a w1, c w = (Ok a, w1) /\ k a w1 = (Ok b, w').
Proof.
  unfold bind. destruct (c w) as [[a|e] w1]; [eauto | discriminate].
Qed.

Lemma bind_eq {A B : Type} (c : M A) (k : A -> M B) (w w1 : World) (a : A) :
  c w = (Ok a, w1) -> bind c k w = k a w1.
Proof. unfold bind. now intros ->. Qed.

Lemma FileInfo_new_Ok (path : string) (info : FileInfo) (w w' : World) :
  FileInfo_new path w = (Ok info, w') ->
  w' = w /\ w_staterr w path = false /\
  info = mkFileInfo path (if fs_lookup w path is Some _ then true else false)
                    (lastModified w path).
Proof.
  intros E. destruct (w_staterr w path) eqn:Es.
  - unfold FileInfo_new in E. unfold_monad. rewrite Es in E. discriminate.
  - rewrite (FileInfo_new_eq _ _ Es) in E. injection E as <- <-. tauto.
Qed.

Lemma R_tempfile_eq (pattern : string) (w : World) :
  R_tempfile pattern w =
  (Ok (w_tempfile w (w_tempfiles w)), set_tempfiles (S (w_tempfiles w)) w).
Proof. reflexivity. Qed.

Lemma R_sample_eq (n : Z) (w : World) :
  R_sample n w = (Ok (w_sample w (w_sampled w)), set_sampled (S (w_sampled w)) w).
Proof. reflexivity. Qed.

Lemma R_file_copy_frame (from to : string) (w : World) :
  fst (R_file_copy from to w) = Ok tt /\
  same_but_fs w (snd (R_file_copy from to w)).
Proof.
  unfold R_file_copy. unfold_monad. simpl. split; [reflexivity|].
  destruct (file_content w from); [|apply same_but_fs_refl].
  destruct (can_open w to); [apply same_but_fs_set_fs | apply same_but_fs_refl].
Qed.

Lemma R_dir_create_frame (path : string) (w : World) :
  fst (R_dir_create path w) = Ok tt /\
  same_but_fs w (snd (R_dir_create path w)).
Proof.
  unfold R_dir_create. unfold_monad. simpl. split; [reflexivity|].
  destruct (Text.empty path); [apply same_but_fs_refl|].
  destruct (fs_lookup w path); [apply same_but_fs_refl | apply same_but_fs_set_fs].
Qed.


Lemma can_open_after_copy (from to : string) (w : World) :
  can_open (snd (R_file_copy from to w)) to = can_open w to.
Proof.
  unfold R_file_copy. unfold_monad. simpl.
  destruct (file_content w from); [|reflexivity].
  destruct (can_open w to) eqn:E; [|exact E].
  unfold can_open in *. simpl.
  apply andb_prop in E as [[E1 E2]%andb_prop _].
  rewrite E1, E2. simpl.
  destruct (Text.empty to) eqn:Ee; [discriminate|].
  rewrite fs_lookup_insert_eq by exact Ee. reflexivity.
Qed.

(** ** The build unit *)

Section BuildUnit.
Context `{AttributesParser} `{RBase}.

Lemma regenerateSource_inv (d d' : SourceCppDynlib) (w w' : World) :
  regenerateSource d w = (Ok d', w') ->
  same_unit d d' /\ same_but_fs w w'.
Proof.
  unfold regenerateSource. unfold bind at 1.
  destruct (R_file_copy_frame (cppSourcePath_ d) (generatedCppSourcePath d) w)
    as [Eo Ef].
  destruct (R_file_copy _ _ w) as [r w1]. simpl in Ef, Eo. subst r.
  unfold SourceFileAttributes_new, append_stream. unfold_monad. simpl.
  destruct (can_open w1 (generatedCppSourcePath d)); simpl; [|discriminate].
  destruct (discover _) as [ex de]. intros [= <- <-]. simpl.
  split; [repeat split|].
  eapply same_but_fs_trans; [exact Ef | apply same_but_fs_set_fs].
Qed.

Lemma regenerateSource_ok (d : SourceCppDynlib) (w : World) :
  can_open w (generatedCppSourcePath d) = true ->
  exists d' w', regenerateSource d w = (Ok d', w').
Proof.
  intros Ho. unfold regenerateSource. unfold bind at 1.
  pose proof (can_open_after_copy (cppSourcePath_ d) (generatedCppSourcePath d) w) as Ea.
  destruct (R_file_copy_frame (cppSourcePath_ d) (generatedCppSourcePath d) w)
    as [Eo _].
  destruct (R_file_copy _ _ w) as [r w1]. simpl in Ea, Eo. subst r.
  unfold SourceFileAttributes_new, append_stream. unfold_monad. simpl.
  rewrite Ea, Ho. simpl.
  destruct (discover _) as [ex de]. eauto.
Qed.

(** What the constructor of a build unit gives when it returns: the unit of
    the path, named after the draw, and the draw is consumed. *)
Lemma SourceCppDynlib_new_inv (cppSourcePath : string) (platform : Platform)
    (d : SourceCppDynlib) (w w' : World) :
  SourceCppDynlib_new cppSourcePath platform w = (Ok d, w') ->
  cppSourcePath_ d = cppSourcePath /\
  Text.empty cppSourcePath = false /\
  moduleName_ d = "sourceCpp_" +:+ pretty (w_sample w (w_sampled w)) /\
  fileSep_ d = file_sep platform /\
  dynlibExt_ d = dynlib_ext platform /\
  w_cache w' = w_cache w /\
  w_sample w' = w_sample w /\
  w_sampled w' = S (w_sampled w).
Proof.
  intros E. unfold SourceCppDynlib_new in E.
  apply bind_Ok in E as (info & wa & E1 & E).
  apply FileInfo_new_Ok in E1 as (-> & _ & ->). simpl in E.
  destruct (fs_lookup w cppSourcePath) as [n|] eqn:El; simpl in E;
    [|discriminate].
  apply bind_Ok in E as (tmp & wb & E1 & E).
  rewrite R_tempfile_eq in E1. injection E1 as <- <-.
  apply bind_Ok in E as ([] & wc & E1 & E).
  pose proof (R_dir_create_frame
    (Text.replace "\"%char "/"%char (w_tempfile w (w_tempfiles w)))
    (set_tempfiles (S (w_tempfiles w)) w)) as [_ Ef].
  rewrite E1 in Ef. simpl in Ef.
  destruct Ef as (_ & _ & _ & Es & En & _ & _ & Ec & _). simpl in *.
  apply bind_Ok in E as (n0 & wd & E2 & E).
  rewrite R_sample_eq in E2. injection E2 as <- <-.
  apply regenerateSource_inv in E as [Su Sf].
  destruct Su as (S1 & S2 & S3 & S4 & S5 & S6).
  destruct Sf as (_ & _ & _ & Es' & En' & _ & _ & Ec' & _). simpl in *.
  unfold fs_lookup in El. destruct (Text.empty cppSourcePath); [discriminate|].
  rewrite Es, En in S3.
  repeat split; congruence.
Qed.

(** C4, amended. The module name of a build unit is [sourceCpp_] followed by
    the integer that [sample] drew for it, and each construction consumes
    one draw; so two units have the same module name exactly when the two
    draws are the same integer. *)
Theorem moduleName_follows_draw (path1 path2 : string)
    (platform1 platform2 : Platform) (d1 d2 : SourceCppDynlib)
    (w1 w1' w2 w2' : World) :
  SourceCppDynlib_new path1 platform1 w1 = (Ok d1, w1') ->
  SourceCppDynlib_new path2 platform2 w2 = (Ok d2, w2') ->
  moduleName d1 = "sourceCpp_" +:+ pretty (w_sample w1 (w_sampled w1)) /\
  moduleName d2 = "sourceCpp_" +:+ pretty (w_sample w2 (w_sampled w2)) /\
  w_sampled w1' = S (w_sampled w1) /\
  w_sampled w2' = S (w_sampled w2) /\
  (moduleName d1 = moduleName d2 <->
   w_sample w1 (w_sampled w1) = w_sample w2 (w_sampled w2)).
Proof.
  intros E1 E2.
  apply SourceCppDynlib_new_inv in E1 as (_ & _ & N1 & _ & _ & _ & _ & D1).
  apply SourceCppDynlib_new_inv in E2 as (_ & _ & N2 & _ & _ & _ & _ & D2).
  unfold moduleName. rewrite N1, N2. repeat split; try assumption.
  - intros E. apply String.app_inj in E. now apply pretty_Z_inj in E.
  - intros ->. reflexivity.
Qed.

End BuildUnit.

(** [evaluate E c] computes [c] and records the result as [E : c = value]. *)
Ltac evaluate E c :=
  let v := eval vm_compute in c in
  assert (E : c = v) by (vm_compute; reflexivity).

(** C4, amended, at two units built one after the other from the same
    file. *)
Lemma moduleName_follows_draw_witness :
  let w := Example.world {["a.cpp" := RegFile "int f(int x);" 50%Z]} in
  exists d1 w1 d2 w2,
    @SourceCppDynlib_new Example.parser Example.rbase "a.cpp" Example.platform w
      = (Ok d1, w1) /\
    @SourceCppDynlib_new Example.parser Example.rbase "a.cpp" Example.platform w1
      = (Ok d2, w2) /\
    (moduleName d1 = moduleName d2 <->
     w_sample w (w_sampled w) = w_sample w1 (w_sampled w1)).
Proof.
  intros w.
  evaluate E1 (@SourceCppDynlib_new Example.parser Example.rbase
                 "a.cpp" Example.platform w).
  match type of E1 with _ = (Ok ?d1, ?w1) =>
    evaluate E2 (@SourceCppDynlib_new Example.parser Example.rbase
                   "a.cpp" Example.platform w1);
    match type of E2 with _ = (Ok ?d2, ?w2) => exists d1, w1, d2, w2 end
  end.
  split; [exact E1|]. split; [exact E2|].
  apply (@moduleName_follows_draw Example.parser Example.rbase
           _ _ _ _ _ _ _ _ _ _ E1 E2).
Defined.

(** C4 fails when [sample] draws the same integer twice: the two units,
    built one after the other from the same file, are both named
    [sourceCpp_7]. *)
Lemma moduleName_unique_counterexample :
  let w := Example.world {["a.cpp" := RegFile "int f(int x);" 50%Z]} in
  let r1 := @SourceCppDynlib_new Example.parser Example.rbase "a.cpp" Example.platform w in
  let r2 := @SourceCppDynlib_new Example.parser Example.rbase "a.cpp" Example.platform (snd r1) in
  exists d1 d2,
    fst r1 = Ok d1 /\ fst r2 = Ok d2 /\
    moduleName d1 = "sourceCpp_7" /\ moduleName d2 = "sourceCpp_7" /\
    buildDirectory d1 <> buildDirectory d2.
Proof.
  intros w r1 r2. vm_compute in r1. vm_compute in r2.
  do 2 eexists. split; [reflexivity|]. split; [reflexivity|].
  split; [reflexivity|]. split; [reflexivity|]. simpl. discriminate.
Qed.

(** ** The cache *)

Lemma lookupByFile_app_miss (entries_ rest : SourceCppDynlibCache) (file : string) :
  cache_wf entries_ ->
  isEmpty (lookupByFile entries_ file) = true ->
  lookupByFile (entries_ ++ rest) file = lookupByFile rest file.
Proof.
  intros Hwf. induction Hwf as [|e l He Hl IH]; simpl; [reflexivity|].
  destruct (String.eqb (Entry_file e) file); [congruence | exact IH].
Qed.

Lemma lookupByCode_app_miss (entries_ rest : SourceCppDynlibCache) (code : string) :
  cache_wf entries_ ->
  isEmpty (lookupByCode entries_ code) = true ->
  lookupByCode (entries_ ++ rest) code = lookupByCode rest code.
Proof.
  intros Hwf. induction Hwf as [|e l He Hl IH]; simpl; [reflexivity|].
  destruct (String.eqb (Entry_code e) code); [congruence | exact IH].
Qed.

Lemma cache_wf_snoc (entries_ : SourceCppDynlibCache) (e : Entry) :
  cache_wf entries_ -> isEmpty (Entry_dynlib e) = false ->
  cache_wf (entries_ ++ [e]).
Proof.
  intros Hwf He. unfold cache_wf. apply Forall_app. split; [exact Hwf|].
  now constructor.
Qed.

Section Lookup.
Context `{AttributesParser} `{RBase}.

Lemma isSourceDirty_eq (d : SourceCppDynlib) (w : World) :
  w_staterr w (cppSourcePath d) = false ->
  w_staterr w (generatedCppSourcePath d) = false ->
  w_staterr w (dynlibPath d) = false ->
  isSourceDirty d w =
    (Ok ((lastModified w (cppSourcePath d)
            >? lastModified w (generatedCppSourcePath d))%Z
         || (if fs_lookup w (dynlibPath d) is Some _ then false else true)), w).
Proof.
  intros H1 H2 H3. unfold isSourceDirty.
  rewrite (bind_eq _ _ _ _ _ (FileInfo_new_eq _ _ H1)).
  rewrite (bind_eq _ _ _ _ _ (FileInfo_new_eq _ _ H2)). simpl.
  destruct (_ >? _)%Z; [reflexivity|].
  rewrite (bind_eq _ _ _ _ _ (FileInfo_new_eq _ _ H3)). simpl.
  destruct (fs_lookup w (dynlibPath d)); reflexivity.
Qed.

Lemma FileInfo_new_snd (path : string) (r : result FileInfo) (w w' : World) :
  FileInfo_new path w = (r, w') -> w' = w.
Proof.
  intros E. pose proof (FileInfo_new_world path w) as F.
  rewrite E in F. exact F.
Qed.

Lemma isSourceDirty_world (d : SourceCppDynlib) (r : result bool) (w w' : World) :
  isSourceDirty d w = (r, w') -> w' = w.
Proof.
  unfold isSourceDirty, bind.
  destruct (FileInfo_new (cppSourcePath_ d) w) as [[i1|e] w1] eqn:E1;
    apply FileInfo_new_snd in E1 as ->; [|now intros [= _ <-]].
  destruct (FileInfo_new (generatedCppSourcePath d) w) as [[i2|e] w1] eqn:E2;
    apply FileInfo_new_snd in E2 as ->; [|now intros [= _ <-]].
  match goal with |- context [if ?b then _ else _] => destruct b end;
    [now intros [= _ <-]|].
  destruct (FileInfo_new (dynlibPath d) w) as [[i3|e] w1] eqn:E3;
    apply FileInfo_new_snd in E3 as ->; [|now intros [= _ <-]].
  destruct (negb (exists_ i3)); now intros [= _ <-].
Qed.

Lemma isBuilt_world (d : SourceCppDynlib) (r : result bool) (w w' : World) :
  isBuilt d w = (r, w') -> w' = w.
Proof.
  unfold isBuilt, bind.
  destruct (FileInfo_new (dynlibPath d) w) as [[i3|e] w1] eqn:E3;
    apply FileInfo_new_snd in E3 as ->; now intros [= _ <-].
Qed.

(** [sourceCppContext] when the cache holds a unit for its arguments. *)
Lemma sourceCppContext_hit (sFile : string) (sCode : option string)
    (sPlatform : Platform) (w : World) :
  let d := cached (w_cache w) sFile (default EmptyString sCode) in
  isEmpty d = false ->
  sourceCppContext sFile sCode sPlatform w =
    (let! dirty := isSourceDirty d in
     if dirty then
       let! dynlib := regenerateSource d in ret (context_of dynlib true)
     else
       let! built := isBuilt d in
       ret (context_of d (negb built))) w.
Proof.
  intros d Hd. unfold sourceCppContext.
  destruct sCode as [code|]; simpl; unfold bind at 1, get;
    fold d; unfold cached in d; simpl in d; fold d; rewrite Hd;
    unfold bind;
    (destruct (isSourceDirty d w) as [[[]|e] w1]; [| |reflexivity]);
    [ destruct (regenerateSource d w1) as [[d'|e] w2]; reflexivity
    | destruct (isBuilt d w1) as [[[]|e] w2]; reflexivity
    | destruct (regenerateSource d w1) as [[d'|e] w2]; reflexivity
    | destruct (isBuilt d w1) as [[[]|e] w2]; reflexivity ].
Qed.

(** [sourceCppContext] when the cache holds no unit for its arguments. *)
Lemma sourceCppContext_miss (sFile : string) (sCode : option string)
    (sPlatform : Platform) (w : World) :
  let code := default EmptyString sCode in
  isEmpty (cached (w_cache w) sFile code) = true ->
  sourceCppContext sFile sCode sPlatform w =
    (let! dynlib := SourceCppDynlib_new sFile sPlatform in
     run! modify (fun w =>
            set_cache (if negb (Text.empty code)
                       then insertCode (w_cache w) code dynlib
                       else insertFile (w_cache w) sFile dynlib) w) in
     ret (context_of dynlib true)) w.
Proof.
  intros code Hd. unfold sourceCppContext.
  unfold cached in Hd. fold code in Hd.
  destruct sCode as [c|]; simpl in *; unfold bind at 1, get;
    fold code; rewrite Hd; unfold bind;
    (destruct (SourceCppDynlib_new sFile sPlatform w) as [[d'|e] w1];
     [|reflexivity]); destruct (negb (Text.empty code)); reflexivity.
Qed.

(** After a call that returns, the cache holds, for the arguments of the
    call, the unit that the call returned; and the invariant of the cache
    is kept. *)
Lemma sourceCppContext_cached (sFile : string) (sCode : option string)
    (sPlatform : Platform) (ctx : Context) (w w' : World) :
  cache_wf (w_cache w) ->
  sourceCppContext sFile sCode sPlatform w = (Ok ctx, w') ->
  let d := cached (w_cache w') sFile (default EmptyString sCode) in
  cache_wf (w_cache w') /\
  isEmpty d = false /\
  moduleName d = ctx_moduleName ctx /\
  cppSourcePath d = ctx_cppSourcePath ctx /\
  dynlibPath d = ctx_dynlibPath ctx.
Proof.
  intros Hwf E.
  destruct (isEmpty (cached (w_cache w) sFile (default EmptyString sCode))) eqn:Hd.
  - rewrite (sourceCppContext_miss _ _ _ _ Hd) in E.
    apply bind_Ok in E as (d & w1 & E1 & E).
    apply SourceCppDynlib_new_inv in E1 as (P1 & P2 & _ & _ & _ & Pc & _).
    unfold_monad. injection E as <- <-. simpl. rewrite Pc.
    assert (Hne : isEmpty d = false) by (unfold isEmpty; now rewrite P1).
    unfold cached in *.
    destruct (negb (Text.empty (default EmptyString sCode))) eqn:Ec.
    + unfold insertCode. split; [now apply cache_wf_snoc|].
      rewrite lookupByCode_app_miss by assumption. simpl.
      rewrite String.eqb_refl. tauto.
    + unfold insertFile. split; [now apply cache_wf_snoc|].
      rewrite lookupByFile_app_miss by assumption. simpl.
      rewrite String.eqb_refl. tauto.
  - rewrite (sourceCppContext_hit _ _ _ _ Hd) in E.
    apply bind_Ok in E as (dirty & w1 & E1 & E).
    apply isSourceDirty_world in E1 as ->.
    destruct dirty.
    + apply bind_Ok in E as (d' & w2 & E1 & E).
      apply regenerateSource_inv in E1 as [Su Sf].
      destruct Su as (S1 & S2 & S3 & S4 & S5 & S6).
      destruct Sf as (_ & _ & _ & _ & _ & _ & _ & Ec & _).
      unfold_monad. injection E as <- <-. simpl. rewrite Ec.
      split; [assumption|]. split; [assumption|].
      unfold moduleName, cppSourcePath, dynlibPath, dynlibFilename, moduleName.
      rewrite S1, S3, S4, S5, S6. tauto.
    + apply bind_Ok in E as (built & w2 & E1 & E).
      apply isBuilt_world in E1 as ->.
      unfold_monad. injection E as <- <-. simpl. tauto.
Qed.

End Lookup.

(** ** The invariant of the cache *)

Section Invariant.
Context `{AttributesParser} `{RBase}.

Lemma regenerateSource_frame (d : SourceCppDynlib) (r : result SourceCppDynlib)
    (w w' : World) :
  regenerateSource d w = (r, w') -> same_but_fs w w'.
Proof.
  unfold regenerateSource. unfold bind at 1.
  destruct (R_file_copy_frame (cppSourcePath_ d) (generatedCppSourcePath d) w)
    as [Eo Ef].
  destruct (R_file_copy _ _ w) as [r0 w1]. simpl in Ef, Eo. subst r0.
  unfold SourceFileAttributes_new, append_stream. unfold_monad. simpl.
  destruct (can_open w1 (generatedCppSourcePath d)); simpl.
  - destruct (discover _) as [ex de]. intros [= _ <-].
    eapply same_but_fs_trans; [exact Ef | apply same_but_fs_set_fs].
  - intros [= _ <-]. exact Ef.
Qed.

Lemma SourceCppDynlib_new_cache (cppSourcePath : string) (platform : Platform)
    (r : result SourceCppDynlib) (w w' : World) :
  SourceCppDynlib_new cppSourcePath platform w = (r, w') ->
  w_cache w' = w_cache w.
Proof.
  unfold SourceCppDynlib_new. unfold bind at 1.
  destruct (FileInfo_new cppSourcePath w) as [[info|e] w1] eqn:E1;
    apply FileInfo_new_snd in E1 as ->; [|now intros [= _ <-]].
  destruct (negb (exists_ info)); [now intros [= _ <-]|].
  unfold bind at 1. rewrite R_tempfile_eq.
  unfold bind at 1.
  match goal with |- context [R_dir_create ?p ?w0] =>
    destruct (R_dir_create_frame p w0) as [Eo Ef];
    destruct (R_dir_create p w0) as [r0 wd] end.
  simpl in Eo, Ef. subst r0.
  unfold bind at 1. rewrite R_sample_eq.
  intros E. apply regenerateSource_frame in E.
  destruct Ef as (_ & _ & _ & _ & _ & _ & _ & Ec & _).
  destruct E as (_ & _ & _ & _ & _ & _ & _ & Ec' & _).
  simpl in *. congruence.
Qed.

(** The invariant of the cache holds of the empty cache, with which the
    process starts, and every call of [sourceCppContext] keeps it, whether
    it returns or throws. *)
Lemma cache_wf_invariant (sFile : string) (sCode : option string)
    (sPlatform : Platform) (w : World) :
  cache_wf [] /\
  (cache_wf (w_cache w) ->
   cache_wf (w_cache (snd (sourceCppContext sFile sCode sPlatform w)))).
Proof.
  split; [constructor|]. intros Hwf.
  destruct (sourceCppContext sFile sCode sPlatform w) as [[ctx|e] w'] eqn:E.
  - now apply sourceCppContext_cached in E as (Hwf' & _).
  - simpl.
    destruct (isEmpty (cached (w_cache w) sFile (default EmptyString sCode)))
      eqn:Hd.
    + rewrite (sourceCppContext_miss _ _ _ _ Hd) in E. unfold bind at 1 in E.
      destruct (SourceCppDynlib_new sFile sPlatform w) as [[d|e'] w1] eqn:En.
      * unfold_monad. discriminate E.
      * injection E as <- <-.
        now rewrite (SourceCppDynlib_new_cache _ _ _ _ _ En).
    + rewrite (sourceCppContext_hit _ _ _ _ Hd) in E. unfold bind at 1 in E.
      destruct (isSourceDirty _ w) as [[dirty|e'] w1] eqn:Ed;
        apply isSourceDirty_world in Ed as ->; [|now injection E as <- <-].
      destruct dirty.
      * unfold bind at 1 in E.
        destruct (regenerateSource _ w) as [[d|e'] w1] eqn:Er;
          [discriminate E|]. injection E as <- <-.
        apply regenerateSource_frame in Er
          as (_ & _ & _ & _ & _ & _ & _ & Ec & _). now rewrite Ec.
      * unfold bind at 1 in E.
        destruct (isBuilt _ w) as [[built|e'] w1] eqn:Eb;
          apply isBuilt_world in Eb as ->; [discriminate E|].
        now injection E as <- <-.
Qed.

End Invariant.

(** ** Touching a file *)

Lemma lastModified_touch (path : string) (c : string) (t : Z) (w : World) :
  fs_lookup w path = Some (RegFile c t) ->
  lastModified (touch path w) path = w_clock w.
Proof.
  intros E. unfold touch, lastModified. rewrite E.
  rewrite fs_lookup_insert_eq; [reflexivity|].
  unfold fs_lookup in E. now destruct (Text.empty path).
Qed.

Lemma lastModified_touch_ne (path other : string) (w : World) :
  path <> other -> lastModified (touch path w) other = lastModified w other.
Proof.
  intros E. unfold touch, lastModified.
  destruct (fs_lookup w path) as [[c t|t]|]; try reflexivity.
  now rewrite fs_lookup_insert_ne.
Qed.

(** ** Staleness, and the second lookup *)

Section Staleness.
Context `{AttributesParser} `{RBase}.

(** C6, amended. With [stat] succeeding, [isSourceDirty] is true exactly
    when the modification time of the source file is strictly newer than
    that of the generated copy (a missing file counting as time 0), or the
    compiled artifact does not exist; a lookup that finds the unit in the
    cache with its source strictly newer than the generated copy returns
    [buildRequired] true; and touching the source makes it strictly newer
    when the current time is past the modification time of the copy. *)
Theorem isSourceDirty_iff (d : SourceCppDynlib) (w : World) :
  w_staterr w (cppSourcePath d) = false ->
  w_staterr w (generatedCppSourcePath d) = false ->
  w_staterr w (dynlibPath d) = false ->
  (exists dirty, isSourceDirty d w = (Ok dirty, w) /\
     (dirty = true <->
        (lastModified w (cppSourcePath d)
           > lastModified w (generatedCppSourcePath d))%Z \/
        fs_lookup w (dynlibPath d) = None)) /\
  (forall sFile sCode sPlatform,
     cached (w_cache w) sFile (default EmptyString sCode) = d ->
     isEmpty d = false ->
     (lastModified w (cppSourcePath d)
        > lastModified w (generatedCppSourcePath d))%Z ->
     can_open w (generatedCppSourcePath d) = true ->
     exists ctx w',
       sourceCppContext sFile sCode sPlatform w = (Ok ctx, w') /\
       ctx_buildRequired ctx = true /\
       ctx_moduleName ctx = moduleName d) /\
  (forall w0 c t,
     w = touch (cppSourcePath d) w0 ->
     fs_lookup w0 (cppSourcePath d) = Some (RegFile c t) ->
     cppSourcePath d <> generatedCppSourcePath d ->
     (w_clock w0 > lastModified w0 (generatedCppSourcePath d))%Z ->
     (lastModified w (cppSourcePath d)
        > lastModified w (generatedCppSourcePath d))%Z).
Proof.
  intros H1 H2 H3.
  pose proof (isSourceDirty_eq d w H1 H2 H3) as Ed.
  split; [|split].
  - eexists. split; [exact Ed|].
    rewrite orb_true_iff, Z.gtb_gt.
    destruct (fs_lookup w (dynlibPath d)); intuition congruence.
  - intros sFile sCode sPlatform Hc Hne Hnew Ho.
    rewrite sourceCppContext_hit by (rewrite Hc; exact Hne).
    rewrite Hc. rewrite (bind_eq _ _ _ _ _ Ed).
    apply Z.gtb_gt in Hnew. rewrite Hnew. simpl.
    destruct (regenerateSource_ok d w Ho) as (d' & w' & Er).
    rewrite (bind_eq _ _ _ _ _ Er).
    apply regenerateSource_inv in Er as [(_ & _ & Em & _) _].
    exists (context_of d' true), w'. unfold ret. simpl.
    split; [reflexivity|]. split; [reflexivity|]. exact Em.
  - intros w0 c t -> Hf Hne Hclock.
    rewrite (lastModified_touch _ _ _ _ Hf).
    rewrite lastModified_touch_ne by exact Hne. exact Hclock.
Qed.

(** C5, amended. After a call that returned, in any world with the same
    cache, a call with the same arguments returns the same module name;
    it changes nothing and returns [buildRequired] false when the source
    file is not newer than the generated copy and the compiled artifact
    exists; and it returns [buildRequired] true when the compiled artifact
    does not exist. *)
Theorem second_lookup_same_module (sFile : string) (sCode : option string)
    (sPlatform : Platform) (ctx1 : Context) (w0 w1 w2 : World) :
  cache_wf (w_cache w0) ->
  sourceCppContext sFile sCode sPlatform w0 = (Ok ctx1, w1) ->
  w_cache w2 = w_cache w1 ->
  let d := cached (w_cache w1) sFile (default EmptyString sCode) in
  (moduleName d = ctx_moduleName ctx1 /\
   cppSourcePath d = ctx_cppSourcePath ctx1 /\
   dynlibPath d = ctx_dynlibPath ctx1) /\
  (forall ctx2 w3,
     sourceCppContext sFile sCode sPlatform w2 = (Ok ctx2, w3) ->
     ctx_moduleName ctx2 = ctx_moduleName ctx1) /\
  (w_staterr w2 (cppSourcePath d) = false ->
   w_staterr w2 (generatedCppSourcePath d) = false ->
   w_staterr w2 (dynlibPath d) = false ->
   (lastModified w2 (cppSourcePath d)
      <= lastModified w2 (generatedCppSourcePath d))%Z ->
   fs_lookup w2 (dynlibPath d) <> None ->
   exists ctx2,
     sourceCppContext sFile sCode sPlatform w2 = (Ok ctx2, w2) /\
     ctx_moduleName ctx2 = ctx_moduleName ctx1 /\
     ctx_buildRequired ctx2 = false) /\
  (w_staterr w2 (cppSourcePath d) = false ->
   w_staterr w2 (generatedCppSourcePath d) = false ->
   w_staterr w2 (dynlibPath d) = false ->
   fs_lookup w2 (dynlibPath d) = None ->
   forall ctx2 w3,
     sourceCppContext sFile sCode sPlatform w2 = (Ok ctx2, w3) ->
     ctx_buildRequired ctx2 = true).
Proof.
  intros Hwf E1 Hc d.
  destruct (sourceCppContext_cached _ _ _ _ _ _ Hwf E1)
    as (_ & Hne & Hm & Hp & Hl).
  fold d in Hne, Hm, Hp, Hl.
  assert (Hit : isEmpty (cached (w_cache w2) sFile (default EmptyString sCode))
                = false) by (rewrite Hc; exact Hne).
  pose proof (sourceCppContext_hit sFile sCode sPlatform w2 Hit) as E2.
  cbv zeta in E2. rewrite Hc in E2. fold d in E2.
  split; [tauto|]. split; [|split].
  - intros ctx2 w3 E. rewrite E2 in E.
    apply bind_Ok in E as (dirty & wa & Ea & E).
    destruct dirty.
    + apply bind_Ok in E as (d' & wb & Eb & E).
      apply regenerateSource_inv in Eb as [(_ & _ & Em & _) _].
      unfold ret in E. injection E as <- <-. simpl.
      unfold moduleName in *. congruence.
    + apply bind_Ok in E as (built & wb & Eb & E).
      unfold ret in E. injection E as <- <-. simpl. exact Hm.
  - intros H1 H2 H3 Hle Hex. rewrite E2.
    rewrite (bind_eq _ _ _ _ _ (isSourceDirty_eq d w2 H1 H2 H3)).
    assert (Hgt : (lastModified w2 (cppSourcePath d)
                     >? lastModified w2 (generatedCppSourcePath d))%Z = false).
    { rewrite Z.gtb_ltb. apply Z.ltb_ge. exact Hle. }
    rewrite Hgt.
    destruct (fs_lookup w2 (dynlibPath d)) as [n|] eqn:El; [|congruence].
    simpl. unfold isBuilt.
    rewrite (bind_eq _ _ _ _ _
               (bind_eq _ _ _ _ _ (FileInfo_new_eq _ _ H3))).
    rewrite El. simpl.
    eexists. split; [reflexivity|]. split; [exact Hm | reflexivity].
  - intros H1 H2 H3 Hmiss ctx2 w3 E. rewrite E2 in E.
    rewrite (bind_eq _ _ _ _ _ (isSourceDirty_eq d w2 H1 H2 H3)) in E.
    rewrite Hmiss, orb_true_r in E.
    apply bind_Ok in E as (d' & wb & Eb & E).
    unfold ret in E. injection E as <- <-. reflexivity.
Qed.

End Staleness.

(** C5 fails when nothing is built between the two calls: the source file
    is as it was, the module name is the same, and the second call returns
    [buildRequired] true. *)
Lemma second_lookup_counterexample :
  let w0 := Example.world {["a.cpp" := RegFile "int f(int x);" 50%Z]} in
  let r1 := @sourceCppContext Example.parser Example.rbase
              "a.cpp" None Example.platform w0 in
  let r2 := @sourceCppContext Example.parser Example.rbase
              "a.cpp" None Example.platform (snd r1) in
  fs_lookup (snd r1) "a.cpp" = fs_lookup w0 "a.cpp" /\
  exists ctx1 ctx2,
    fst r1 = Ok ctx1 /\ fst r2 = Ok ctx2 /\
    ctx_moduleName ctx2 = ctx_moduleName ctx1 /\
    ctx_buildRequired ctx2 = true.
Proof.
  intros w0 r1 r2. vm_compute in r1. vm_compute in r2.
  split; [reflexivity|].
  do 2 eexists. split; [reflexivity|]. split; [reflexivity|].
  split; reflexivity.
Qed.

(** C5, amended, at a source file that is built between the two calls. *)
Lemma second_lookup_same_module_witness :
  let w0 := Example.world {["a.cpp" := RegFile "int f(int x);" 50%Z]} in
  exists ctx1 w1,
    cache_wf (w_cache w0) /\
    @sourceCppContext Example.parser Example.rbase "a.cpp" None Example.platform w0
      = (Ok ctx1, w1) /\
    let w2 := build (ctx_dynlibPath ctx1) w1 in
    w_cache w2 = w_cache w1 /\
    exists ctx2,
      @sourceCppContext Example.parser Example.rbase "a.cpp" None Example.platform w2
        = (Ok ctx2, w2) /\
      ctx_moduleName ctx2 = ctx_moduleName ctx1 /\
      ctx_buildRequired ctx2 = false.
Proof.
  intros w0.
  evaluate E1 (@sourceCppContext Example.parser Example.rbase
                 "a.cpp" None Example.platform w0).
  match type of E1 with _ = (Ok ?ctx1, ?w1) => exists ctx1, w1 end.
  assert (Hwf : cache_wf (w_cache w0)) by constructor.
  split; [exact Hwf|]. split; [exact E1|]. intros w2.
  assert (Hc : w_cache w2 = w_cache
    (snd (@sourceCppContext Example.parser Example.rbase
            "a.cpp" None Example.platform w0))) by reflexivity.
  rewrite E1 in Hc. simpl snd in Hc.
  split; [reflexivity|].
  apply (@second_lookup_same_module Example.parser Example.rbase
           _ _ _ _ _ _ w2 Hwf E1 Hc).
  - reflexivity.
  - reflexivity.
  - reflexivity.
  - vm_compute. discriminate.
  - vm_compute. discriminate.
Defined.

(** C6 fails when the source file is touched within the second in which the
    copy was generated: its modification time changes from 50 to 100, the
    time of the copy, the unit is not dirty, and the lookup returns
    [buildRequired] false. *)
Lemma touch_counterexample :
  let w0 := Example.world {["a.cpp" := RegFile "int f(int x);" 50%Z]} in
  let r1 := @sourceCppContext Example.parser Example.rbase
              "a.cpp" None Example.platform w0 in
  let built := build "/tmp/sourcecpp_0/sourceCpp_7.so" (snd r1) in
  let w := touch "a.cpp" built in
  let d := cached (w_cache w) "a.cpp" EmptyString in
  let r2 := @sourceCppContext Example.parser Example.rbase
              "a.cpp" None Example.platform w in
  (exists ctx1, fst r1 = Ok ctx1 /\
     ctx_dynlibPath ctx1 = "/tmp/sourcecpp_0/sourceCpp_7.so") /\
  lastModified built "a.cpp" = 50%Z /\
  lastModified w "a.cpp" = 100%Z /\
  lastModified w (generatedCppSourcePath d) = 100%Z /\
  fst (isSourceDirty d w) = Ok false /\
  exists ctx2, fst r2 = Ok ctx2 /\ ctx_buildRequired ctx2 = false.
Proof.
  intros w0 r1 built w d r2.
  vm_compute in r1. vm_compute in built. vm_compute in w.
  vm_compute in d. vm_compute in r2.
  split; [eexists; split; reflexivity|].
  split; [reflexivity|]. split; [reflexivity|]. split; [reflexivity|].
  split; [reflexivity|]. eexists; split; reflexivity.
Qed.

(** C6, amended, at a source file touched ten seconds after it was built. *)
Lemma isSourceDirty_iff_witness :
  let w0 := Example.world {["a.cpp" := RegFile "int f(int x);" 50%Z]} in
  let r1 := @sourceCppContext Example.parser Example.rbase
              "a.cpp" None Example.platform w0 in
  let w := touch "a.cpp"
             (later 10 (build "/tmp/sourcecpp_0/sourceCpp_7.so" (snd r1))) in
  let d := cached (w_cache w) "a.cpp" EmptyString in
  w_staterr w (cppSourcePath d) = false /\
  w_staterr w (generatedCppSourcePath d) = false /\
  w_staterr w (dynlibPath d) = false /\
  exists ctx w',
    @sourceCppContext Example.parser Example.rbase "a.cpp" None Example.platform w
      = (Ok ctx, w') /\
    ctx_buildRequired ctx = true /\
    ctx_moduleName ctx = moduleName d.
Proof.
  intros w0 r1 w d.
  assert (H1 : w_staterr w (cppSourcePath d) = false) by reflexivity.
  assert (H2 : w_staterr w (generatedCppSourcePath d) = false) by reflexivity.
  assert (H3 : w_staterr w (dynlibPath d) = false) by reflexivity.
  split; [exact H1|]. split; [exact H2|]. split; [exact H3|].
  apply (@isSourceDirty_iff Example.parser Example.rbase d w H1 H2 H3).
  - reflexivity.
  - vm_compute. reflexivity.
  - vm_compute. reflexivity.
  - vm_compute. reflexivity.
Defined.

(** ** The target files of [compileAttributes] *)

Lemma app_eq_self (a b : string) : a = a +:+ b -> b = EmptyString.
Proof.
  intros E. apply (f_equal String.length) in E. rewrite length_app_s in E.
  destruct b; [reflexivity | simpl in E; lia].
Qed.

Lemma targets_distinct (packageDir fileSep scope : string) :
  cppExportsFile packageDir fileSep <> rExportsFile packageDir fileSep /\
  cppExportsFile packageDir fileSep <> includeFile packageDir fileSep scope /\
  rExportsFile packageDir fileSep <> includeFile packageDir fileSep scope /\
  includeDir packageDir fileSep <> cppExportsFile packageDir fileSep /\
  includeDir packageDir fileSep <> rExportsFile packageDir fileSep /\
  includeDir packageDir fileSep <> includeFile packageDir fileSep scope.
Proof.
  unfold cppExportsFile, rExportsFile, includeFile, includeDir.
  repeat split; intros E;
    apply String.app_inj in E; apply String.app_inj in E;
    try discriminate E.
  change ("inst" +:+ fileSep +:+ "include" =
          "inst" +:+ fileSep +:+ "include" +:+ fileSep +:+ scope +:+ ".hpp") in E.
  apply String.app_inj in E. apply String.app_inj in E.
  change ("include" = "include" +:+ (fileSep +:+ scope +:+ ".hpp")) in E.
  apply app_eq_self in E.
  apply app_empty_inv in E as [_ E]. apply app_empty_inv in E as [_ E].
  discriminate E.
Qed.

Lemma includeDir_nonempty (packageDir fileSep : string) :
  Text.empty (includeDir packageDir fileSep) = false.
Proof.
  apply empty_false. unfold includeDir. intros E.
  apply app_empty_inv in E as [_ E]. apply app_empty_inv in E as [_ E].
  discriminate E.
Qed.

(** ** The constructor and the commit, seen from the target file *)

Lemma can_open_same (w w' : World) (path : string) :
  w_openerr w' = w_openerr w -> fs_lookup w' path = fs_lookup w path ->
  can_open w' path = can_open w path.
Proof. intros E1 E2. unfold can_open. now rewrite E1, E2. Qed.

Lemma file_content_same (w w' : World) (path : string) :
  fs_lookup w' path = fs_lookup w path ->
  file_content w' path = file_content w path.
Proof. intros E. unfold file_content. now rewrite E. Qed.

Lemma ExportsGenerator_new_Ok (targetFile commentPrefix : string)
    (g : ExportsGenerator) (w w' : World) :
  ExportsGenerator_new targetFile commentPrefix w = (Ok g, w') ->
  w' = w /\ target_ok w targetFile /\
  g = mkExportsGenerator targetFile commentPrefix (existing w targetFile)
                         EmptyString.
Proof.
  intros E.
  assert (Hs : w_staterr w targetFile = false).
  { unfold ExportsGenerator_new in E.
    apply bind_Ok in E as (info & w1 & E1 & _).
    now apply FileInfo_new_Ok in E1 as (_ & Hs & _). }
  rewrite (ExportsGenerator_new_eq _ _ _ Hs) in E.
  unfold target_ok, existing, file_content. rewrite Hs.
  destruct (fs_lookup w targetFile) as [[c t|t]|]; try discriminate.
  - destruct (can_open w targetFile); [|discriminate].
    destruct (Text.empty c || Text.found generatorToken c); [|discriminate].
    injection E as <- <-. tauto.
  - injection E as <- <-. tauto.
Qed.

Lemma ExportsGenerator_new_ok (targetFile commentPrefix : string) (w : World) :
  target_ok w targetFile ->
  ExportsGenerator_new targetFile commentPrefix w =
    (Ok (mkExportsGenerator targetFile commentPrefix (existing w targetFile)
                            EmptyString), w).
Proof.
  intros [Hs Hf]. rewrite (ExportsGenerator_new_eq _ _ _ Hs).
  unfold existing, file_content.
  destruct (fs_lookup w targetFile) as [[c t|t]|]; [|contradiction|reflexivity].
  destruct Hf as [-> ->]. reflexivity.
Qed.

Lemma written_frame (b : ExportsGenerator) (code : string) (w : World) :
  same_but_fs w (written b code w) /\
  (forall p, p <> targetFile_ b ->
     fs_lookup (written b code w) p = fs_lookup w p).
Proof.
  split; [apply same_but_fs_set_fs|].
  intros p Hp. unfold written. apply fs_lookup_insert_ne. congruence.
Qed.

(** A commit that returns has either written the target file, which it
    could open, with code that differs from the existing code; or done
    nothing. *)
Lemma ExportsGenerator_commit_Ok (b : ExportsGenerator) (preamble : string)
    (x : bool) (w w' : World) :
  w_staterr w (targetFile_ b) = false ->
  ExportsGenerator_commit b preamble w = (Ok x, w') ->
  let generatedCode :=
    commit_header (commentPrefix_ b) preamble +:+ codeStream_ b in
  (x = true /\ can_open w (targetFile_ b) = true /\
   generatedCode <> existingCode_ b /\ w' = written b generatedCode w) \/
  (x = false /\ w' = w /\
   (generatedCode = existingCode_ b \/
    (codeStream_ b = EmptyString /\ fs_lookup w (targetFile_ b) = None))).
Proof.
  intros Hs E generatedCode. rewrite (ExportsGenerator_commit_eq _ _ _ Hs) in E.
  cbv zeta in E. fold generatedCode in E.
  destruct (Text.empty (codeStream_ b)) eqn:Ec; simpl in E.
  - apply empty_true in Ec.
    destruct (fs_lookup w (targetFile_ b)) eqn:El.
    + destruct (String.eqb_spec generatedCode (existingCode_ b)).
      * injection E as <- <-. right. tauto.
      * destruct (can_open w (targetFile_ b)); [|discriminate].
        injection E as <- <-. left. tauto.
    + injection E as <- <-. right. tauto.
  - destruct (String.eqb_spec generatedCode (existingCode_ b)).
    + injection E as <- <-. right. tauto.
    + destruct (can_open w (targetFile_ b)); [|discriminate].
      injection E as <- <-. left. tauto.
Qed.

Lemma ExportsGenerator_commit_frame (b : ExportsGenerator) (preamble : string)
    (r : result bool) (w w' : World) :
  ExportsGenerator_commit b preamble w = (r, w') ->
  same_but_fs w w' /\
  (forall p, p <> targetFile_ b -> fs_lookup w' p = fs_lookup w p).
Proof.
  unfold ExportsGenerator_commit, write_stream. unfold bind at 1.
  destruct (Text.empty (codeStream_ b)).
  - unfold bind at 1.
    destruct (FileInfo_new (targetFile_ b) w) as [[i|e] w1] eqn:E1;
      apply FileInfo_new_snd in E1 as ->.
    + unfold ret at 1. destruct (negb (exists_ i)).
      * intros [= _ <-]. split; [apply same_but_fs_refl | reflexivity].
      * destruct (negb (String.eqb _ _)).
        -- unfold_monad. destruct (can_open w (targetFile_ b)); intros [= _ <-].
           ++ apply written_frame.
           ++ split; [apply same_but_fs_refl | reflexivity].
        -- intros [= _ <-]. split; [apply same_but_fs_refl | reflexivity].
    + intros [= _ <-]. split; [apply same_but_fs_refl | reflexivity].
  - unfold ret at 1. destruct (negb (String.eqb _ _)).
    + unfold_monad. destruct (can_open w (targetFile_ b)); intros [= _ <-].
      * apply written_frame.
      * split; [apply same_but_fs_refl | reflexivity].
    + intros [= _ <-]. split; [apply same_but_fs_refl | reflexivity].
Qed.

(** After a commit that returns, the target file is settled. *)
Lemma settled_after_commit (b : ExportsGenerator) (preamble : string)
    (x : bool) (w w' : World) :
  target_ok w (targetFile_ b) ->
  existingCode_ b = existing w (targetFile_ b) ->
  ExportsGenerator_commit b preamble w = (Ok x, w') ->
  settled b preamble w' /\
  (x = true <->
   file_content w' (targetFile_ b) <> file_content w (targetFile_ b)).
Proof.
  intros [Hs Hf] He E.
  pose proof (ExportsGenerator_commit_frame _ _ _ _ _ E) as [(Es & _) _].
  apply (ExportsGenerator_commit_Ok _ _ _ _ _ Hs) in E. cbv zeta in E.
  unfold settled. rewrite Es.
  destruct E as [(-> & Ho & Hne & ->) | (-> & -> & Hc)].
  - rewrite (file_content_written b _ w Ho). split.
    + split; [exact Hs|]. left. split; [reflexivity|].
      unfold can_open in *. simpl. unfold written.
      apply andb_prop in Ho as [[E1 E2]%andb_prop _]. rewrite E1, E2. simpl.
      rewrite fs_lookup_insert_eq; [reflexivity|].
      now destruct (Text.empty (targetFile_ b)).
    + split; [|reflexivity]. intros _ Eq. apply Hne. rewrite He.
      unfold existing. now rewrite <- Eq.
  - split.
    + split; [exact Hs|]. destruct Hc as [Hc | Hc]; [left | right; exact Hc].
      rewrite He in Hc. unfold existing, file_content in *.
      destruct (fs_lookup w (targetFile_ b)) as [[c t|t]|]; simpl in *.
      * subst c. rewrite Hc. tauto.
      * contradiction.
      * now apply header_code_nonempty in Hc.
    + split; [discriminate | congruence].
Qed.

Lemma settled_same (b : ExportsGenerator) (preamble : string) (w w' : World) :
  w_staterr w' = w_staterr w -> w_openerr w' = w_openerr w ->
  fs_lookup w' (targetFile_ b) = fs_lookup w (targetFile_ b) ->
  settled b preamble w -> settled b preamble w'.
Proof.
  intros E1 E2 E3 [Hs H]. unfold settled.
  rewrite (file_content_same _ _ _ E3), (can_open_same _ _ _ E2 E3), E1, E3.
  tauto.
Qed.

(** On a settled target file the constructor returns, ... *)
Lemma settled_target_ok (b : ExportsGenerator) (preamble : string) (w : World) :
  settled b preamble w -> target_ok w (targetFile_ b).
Proof.
  intros [Hs H]. split; [exact Hs|].
  destruct H as [[Hc Ho] | [_ ->]]; [|exact I].
  unfold file_content in Hc.
  destruct (fs_lookup w (targetFile_ b)) as [[c t|t]|]; try discriminate.
  injection Hc as ->. split; [exact Ho|].
  rewrite header_code_found. apply orb_true_r.
Qed.

(** ... and the commit of the same code does nothing. *)
Lemma settled_commit (b : ExportsGenerator) (preamble : string) (w : World) :
  settled b preamble w ->
  existingCode_ b = existing w (targetFile_ b) ->
  ExportsGenerator_commit b preamble w = (Ok false, w).
Proof.
  intros [Hs H] He. rewrite (ExportsGenerator_commit_eq _ _ _ Hs). cbv zeta.
  destruct H as [[Hc Ho] | [Hc Hf]].
  - unfold file_content in Hc. rewrite He. unfold existing, file_content.
    destruct (fs_lookup w (targetFile_ b)) as [[c t|t]|]; try discriminate.
    injection Hc as ->. rewrite andb_false_r. simpl.
    now rewrite String.eqb_refl.
  - rewrite Hc, Hf. reflexivity.
Qed.

(** ** The generation phase of [compileAttributes] *)

Section Generated.
Context `{AttributesParser} `{RBase}.

Lemma compileAttributes_files_eq (cppFiles : list string) (verbose : bool)
    (generators : ExportsGenerators) (prototypes : list string) (w : World) :
  exists out,
    compileAttributes_files cppFiles verbose generators prototypes w =
    (Ok (generated (parsed_in w cppFiles) verbose generators prototypes),
     set_Rcout out w).
Proof.
  revert generators prototypes w.
  induction cppFiles as [|f rest IH]; intros generators prototypes w.
  - exists (w_Rcout w). destruct w; reflexivity.
  - simpl. unfold bind at 1. unfold SourceFileAttributes_new at 1.
    unfold bind at 1, get, ret.
    destruct (SourceFileAttributes_empty (parseSourceFile f (file_content w f))).
    + apply IH.
    + destruct (ExportsGenerators_writeFunctions generators EmptyString
                  (parseSourceFile f (file_content w f)) verbose)
        as [gens rcout] eqn:Ew.
      unfold bind at 1, Rcout, modify. simpl.
      destruct (IH gens (prototypes ++
                  sfa_prototypes (parseSourceFile f (file_content w f)))
                  (set_Rcout (w_Rcout w +:+ rcout) w)) as [out Eo].
      exists out. rewrite Eo. reflexivity.
Qed.

(** The generators that come out of the loop are the three that went in,
    with more code; what is added does not depend on the existing code. *)
Lemma generated_triple (parsed : list SourceFileAttributes) (verbose : bool) :
  forall t1 p1 code1 t2 p2 code2 rex t3 p3 code3 sc dir hc prototypes,
  exists code1' code2' rex' code3' prototypes',
  forall e1 e2 e3,
    generated parsed verbose
      [GenCpp (mkCppExportsGenerator (mkExportsGenerator t1 p1 e1 code1));
       GenR (mkRExportsGenerator (mkExportsGenerator t2 p2 e2 code2) rex);
       GenInclude (mkCppIncludeGenerator (mkExportsGenerator t3 p3 e3 code3)
                                         sc dir hc)]
      prototypes
    = ([GenCpp (mkCppExportsGenerator (mkExportsGenerator t1 p1 e1 code1'));
        GenR (mkRExportsGenerator (mkExportsGenerator t2 p2 e2 code2') rex');
        GenInclude (mkCppIncludeGenerator (mkExportsGenerator t3 p3 e3 code3')
                      sc dir (hc || native_interface parsed))],
       prototypes').
Proof.
  induction parsed as [|a rest IH]; intros.
  - exists code1, code2, rex, code3, prototypes. intros.
    simpl. now rewrite orb_false_r.
  - simpl. destruct (SourceFileAttributes_empty a) eqn:Ea; simpl.
    + apply IH.
    + unfold CppExportsGenerator_writeFunctions,
        RExportsGenerator_writeFunctions,
        CppIncludeGenerator_writeFunctions. simpl.
      destruct (generateCppModuleFunctions code1 _ a verbose) as [o1 rc1].
      destruct (hasInterface a kInterfaceR), (hasInterface a kInterfaceCpp);
        simpl.
      * edestruct IH as (c1 & c2 & r & c3 & pr & E).
        exists c1, c2, r, c3, pr. intros. rewrite E.
        now rewrite orb_true_r.
      * apply IH.
      * edestruct IH as (c1 & c2 & r & c3 & pr & E).
        exists c1, c2, r, c3, pr. intros. rewrite E.
        now rewrite orb_true_r.
      * apply IH.
Qed.

(** The generators at commit time. *)
Lemma final_generators (packageDir fileSep scope : string)
    (parsed : list SourceFileAttributes) (verbose : bool) :
  exists code1 code2 rex code3 prototypes,
  forall e1 e2 e3,
    let state :=
      generated parsed verbose
        (ExportsGenerators_writeBegin
           (initial_generators packageDir fileSep scope e1 e2 e3)) [] in
    snd state = prototypes /\
    ExportsGenerators_writeEnd (fst state) =
      [GenCpp (mkCppExportsGenerator
                 (mkExportsGenerator (cppExportsFile packageDir fileSep) "//"
                                     e1 code1));
       GenR (mkRExportsGenerator
               (mkExportsGenerator (rExportsFile packageDir fileSep) "#"
                                   e2 code2) rex);
       GenInclude (mkCppIncludeGenerator
                     (mkExportsGenerator (includeFile packageDir fileSep scope)
                                         "//" e3 code3)
                     scope (includeDir packageDir fileSep)
                     (native_interface parsed))].
Proof.
  unfold initial_generators, ExportsGenerators_writeBegin. simpl.
  unfold CppExportsGenerator_writeBegin, RExportsGenerator_writeBegin,
    CppIncludeGenerator_writeBegin, ostr_write. simpl.
  edestruct (generated_triple parsed verbose) as (c1 & c2 & r & c3 & pr & E).
  eexists _, _, _, _, pr. intros e1 e2 e3. cbv zeta. rewrite E. simpl.
  split; [reflexivity|].
  unfold CppExportsGenerator_writeEnd, RExportsGenerator_writeEnd,
    CppIncludeGenerator_writeEnd, ostr_write. simpl. reflexivity.
Qed.

End Generated.

(** ** Directories and removal *)

Lemma createDirectory_Ok (path : string) (w w' : World) :
  createDirectory path w = (Ok tt, w') ->
  w_staterr w path = false /\ same_but_fs w w' /\
  (forall p, p <> path -> fs_lookup w' p = fs_lookup w p) /\
  (Text.empty path = false -> fs_lookup w' path <> None).
Proof.
  intros E. unfold createDirectory in E.
  apply bind_Ok in E as (info & w1 & E1 & E).
  apply FileInfo_new_Ok in E1 as (-> & Hs & ->). simpl in E.
  split; [exact Hs|].
  destruct (fs_lookup w path) as [n|] eqn:El; simpl in E.
  - injection E as <-. split; [apply same_but_fs_refl|].
    split; [reflexivity|]. intros _. congruence.
  - unfold R_dir_create, modify in E. injection E as <-.
    destruct (Text.empty path) eqn:Ee.
    + split; [apply same_but_fs_refl|]. split; [reflexivity | discriminate].
    + rewrite El. split; [apply same_but_fs_set_fs|]. split.
      * intros p Hp. apply fs_lookup_insert_ne. congruence.
      * intros _. now rewrite fs_lookup_insert_eq.
Qed.

Lemma createDirectory_exists (path : string) (w : World) :
  w_staterr w path = false -> fs_lookup w path <> None ->
  createDirectory path w = (Ok tt, w).
Proof.
  intros Hs Hf. unfold createDirectory.
  rewrite (bind_eq _ _ _ _ _ (FileInfo_new_eq _ _ Hs)). simpl.
  destruct (fs_lookup w path); [reflexivity | congruence].
Qed.

Lemma removeFile_Ok (path : string) (w w' : World) :
  removeFile path w = (Ok tt, w') ->
  w_staterr w path = false /\ same_but_fs w w' /\
  (forall p, p <> path -> fs_lookup w' p = fs_lookup w p) /\
  ((forall t, fs_lookup w path <> Some (Directory t)) ->
   fs_lookup w' path = None).
Proof.
  intros E. unfold removeFile in E.
  apply bind_Ok in E as (info & w1 & E1 & E).
  apply FileInfo_new_Ok in E1 as (-> & Hs & ->). simpl in E.
  split; [exact Hs|].
  destruct (fs_lookup w path) as [[c t|t]|] eqn:El; simpl in E.
  - unfold R_file_remove, modify in E. rewrite El in E. injection E as <-.
    split; [apply same_but_fs_set_fs|]. split.
    + intros p Hp. apply fs_lookup_delete_ne. congruence.
    + intros _. apply fs_lookup_delete_eq.
  - unfold R_file_remove, modify in E. rewrite El in E. injection E as <-.
    split; [apply same_but_fs_refl|]. split; [reflexivity|].
    intros Hd. now destruct (Hd t).
  - injection E as <-. split; [apply same_but_fs_refl|].
    split; [reflexivity|]. intros _. exact El.
Qed.

Lemma removeFile_absent (path : string) (w : World) :
  w_staterr w path = false -> fs_lookup w path = None ->
  removeFile path w = (Ok tt, w).
Proof.
  intros Hs Hf. unfold removeFile.
  rewrite (bind_eq _ _ _ _ _ (FileInfo_new_eq _ _ Hs)). simpl.
  now rewrite Hf.
Qed.

Lemma target_ok_same (w w' : World) (path : string) :
  w_staterr w' = w_staterr w -> w_openerr w' = w_openerr w ->
  fs_lookup w' path = fs_lookup w path ->
  target_ok w path -> target_ok w' path.
Proof.
  intros E1 E2 E3. unfold target_ok.
  rewrite (can_open_same _ _ _ E2 E3), E1, E3. tauto.
Qed.

Lemma existing_same (w w' : World) (path : string) :
  fs_lookup w' path = fs_lookup w path -> existing w' path = existing w path.
Proof. intros E. unfold existing. now rewrite (file_content_same _ _ _ E). Qed.

Lemma fs_lookup_set_Rcout (out : string) (w : World) (path : string) :
  fs_lookup (set_Rcout out w) path = fs_lookup w path.
Proof. reflexivity. Qed.

(** ** A run of [compileAttributes], step by step *)

Section Run.
Context `{AttributesParser} `{RBase}.

(** A run of [compileAttributes] that returns, step by step: the three
    constructors find their target files in order, the loop leaves the
    files as they are, and the three commits follow one another. *)
Lemma compileAttributes_Ok (packageDir scope : string)
    (cppFiles basenames includes : list string) (verbose : bool)
    (platform : Platform) (wrote : bool) (w0 w1 : World) :
  compileAttributes packageDir scope cppFiles basenames includes verbose
                    platform w0 = (Ok wrote, w1) ->
  let fileSep := file_sep platform in
  let t1 := cppExportsFile packageDir fileSep in
  let t2 := rExportsFile packageDir fileSep in
  let t3 := includeFile packageDir fileSep scope in
  let parsed := parsed_in w0 cppFiles in
  target_ok w0 t1 /\ target_ok w0 t2 /\ target_ok w0 t3 /\
  exists code1 code2 rex code3 prototypes,
    (forall e1 e2 e3,
       let state :=
         generated parsed verbose
           (ExportsGenerators_writeBegin
              (initial_generators packageDir fileSep scope e1 e2 e3)) [] in
       snd state = prototypes /\
       ExportsGenerators_writeEnd (fst state) =
         [GenCpp (mkCppExportsGenerator (mkExportsGenerator t1 "//" e1 code1));
          GenR (mkRExportsGenerator (mkExportsGenerator t2 "#" e2 code2) rex);
          GenInclude (mkCppIncludeGenerator
                        (mkExportsGenerator t3 "//" e3 code3)
                        scope (includeDir packageDir fileSep)
                        (native_interface parsed))]) /\
    exists x1 x2 x3 out wa wb wc out',
      ExportsGenerator_commit
        (mkExportsGenerator t1 "//" (existing w0 t1) code1)
        (prototypes_preamble (includes_preamble includes) prototypes)
        (set_Rcout out w0) = (Ok x1, wa) /\
      ExportsGenerator_commit
        (mkExportsGenerator t2 "#" (existing w0 t2) code2) EmptyString wa
        = (Ok x2, wb) /\
      CppIncludeGenerator_commit
        (mkCppIncludeGenerator
           (mkExportsGenerator t3 "//" (existing w0 t3) code3)
           scope (includeDir packageDir fileSep) (native_interface parsed))
        includes prototypes wb = (Ok x3, wc) /\
      wrote = x1 || x2 || x3 /\
      w1 = set_Rcout out' wc.
Proof.
  intros E fileSep t1 t2 t3 parsed.
  unfold compileAttributes in E. cbv zeta in E.
  apply bind_Ok in E as (g1 & w' & E1 & E).
  unfold CppExportsGenerator_new in E1.
  apply bind_Ok in E1 as (b1 & w'' & E1 & Er). injection Er as <- <-.
  apply ExportsGenerator_new_Ok in E1 as (-> & Hok1 & ->).
  apply bind_Ok in E as (g2 & w' & E2 & E).
  unfold RExportsGenerator_new in E2.
  apply bind_Ok in E2 as (b2 & w'' & E2 & Er). injection Er as <- <-.
  apply ExportsGenerator_new_Ok in E2 as (-> & Hok2 & ->).
  apply bind_Ok in E as (g3 & w' & E3 & E).
  unfold CppIncludeGenerator_new in E3.
  apply bind_Ok in E3 as (b3 & w'' & E3 & Er). injection Er as <- <-.
  apply ExportsGenerator_new_Ok in E3 as (-> & Hok3 & ->).
  split; [exact Hok1|]. split; [exact Hok2|]. split; [exact Hok3|].
  destruct (final_generators packageDir fileSep scope parsed verbose)
    as (code1 & code2 & rex & code3 & prototypes & Hfinal).
  exists code1, code2, rex, code3, prototypes. split; [exact Hfinal|].
  apply bind_Ok in E as (state & wL & El & E).
  match type of El with compileAttributes_files _ _ ?gens _ _ = _ =>
    destruct (compileAttributes_files_eq cppFiles verbose gens [] w0)
      as [out Eo]; rewrite Eo in El; injection El as <- <-
  end.
  fold parsed in E.
  match type of E with context [generated parsed verbose ?gens []] =>
    change gens with (ExportsGenerators_writeBegin
      (initial_generators packageDir fileSep scope
         (existing w0 t1) (existing w0 t2) (existing w0 t3))) in E
  end.
  destruct (Hfinal (existing w0 t1) (existing w0 t2) (existing w0 t3))
    as [Hp Hg]. cbv zeta in Hp, Hg.
  rewrite Hp, Hg in E.
  apply bind_Ok in E as (wr & wc' & Ec & E).
  unfold ExportsGenerators_commit in Ec. simpl in Ec.
  apply bind_Ok in Ec as (x1 & wa & Ec1 & Ec).
  apply bind_Ok in Ec as (x2 & wb & Ec2 & Ec).
  apply bind_Ok in Ec as (x3 & wc & Ec3 & Ec).
  unfold ret in Ec. injection Ec as <- <-.
  unfold CppExportsGenerator_commit in Ec1. simpl in Ec1.
  unfold RExportsGenerator_commit in Ec2. simpl in Ec2.
  exists x1, x2, x3, out, wa, wb, wc.
  apply bind_Ok in E as ([] & w2 & Ev & E). unfold ret in E.
  injection E as <- <-.
  assert (Hv : exists out', w2 = set_Rcout out' wc).
  { destruct verbose.
    - destruct (if x3 then true else if x2 then true else if x1 then true else false);
        unfold Rcout, modify in Ev; injection Ev as <-; eauto.
    - unfold ret in Ev. injection Ev as <-. exists (w_Rcout wc).
      destruct wc; reflexivity. }
  destruct Hv as [out' ->]. exists out'.
  split; [exact Ec1|]. split; [exact Ec2|]. split; [exact Ec3|].
  split; [|reflexivity].
  destruct x1, x2, x3; reflexivity.
Qed.

End Run.

(** ** Worlds that differ at some paths only *)

Lemma only_changes_trans (ps qs : list string) (w1 w2 w3 : World) :
  only_changes ps w1 w2 -> only_changes qs w2 w3 ->
  only_changes (ps ++ qs) w1 w3.
Proof.
  intros (A1 & A2 & A3) (B1 & B2 & B3). split; [congruence|].
  split; [congruence|]. intros p Hp. rewrite B3, A3; [reflexivity|..];
    intros Hin; apply Hp, in_or_app; tauto.
Qed.

Lemma only_changes_frame (path : string) (w w' : World) :
  same_but_fs w w' ->
  (forall p, p <> path -> fs_lookup w' p = fs_lookup w p) ->
  only_changes [path] w w'.
Proof.
  intros (A1 & A2 & _) F. split; [exact A1|]. split; [exact A2|].
  intros p Hp. apply F. intros ->. apply Hp. now left.
Qed.

Lemma only_changes_Rcout (out : string) (w : World) :
  only_changes [] w (set_Rcout out w).
Proof. repeat split. Qed.

Lemma only_changes_commit (b : ExportsGenerator) (preamble : string)
    (r : result bool) (w w' : World) :
  ExportsGenerator_commit b preamble w = (r, w') ->
  only_changes [targetFile_ b] w w'.
Proof.
  intros E. apply ExportsGenerator_commit_frame in E as [A F].
  now apply only_changes_frame.
Qed.

Lemma settled_only (ps : list string) (b : ExportsGenerator)
    (preamble : string) (w w' : World) :
  only_changes ps w w' -> ~ In (targetFile_ b) ps ->
  settled b preamble w -> settled b preamble w'.
Proof. intros (A1 & A2 & A3) Hp. apply settled_same; auto. Qed.

Lemma target_ok_only (ps : list string) (path : string) (w w' : World) :
  only_changes ps w w' -> ~ In path ps ->
  target_ok w path -> target_ok w' path.
Proof. intros (A1 & A2 & A3) Hp. apply target_ok_same; auto. Qed.

Lemma existing_only (ps : list string) (path : string) (w w' : World) :
  only_changes ps w w' -> ~ In path ps ->
  existing w' path = existing w path.
Proof. intros (A1 & A2 & A3) Hp. apply existing_same; auto. Qed.

Lemma file_content_only (ps : list string) (path : string) (w w' : World) :
  only_changes ps w w' -> ~ In path ps ->
  file_content w' path = file_content w path.
Proof. intros (A1 & A2 & A3) Hp. apply file_content_same; auto. Qed.

(** ** What a run of [compileAttributes] leaves behind *)

Section Effect.
Context `{AttributesParser} `{RBase}.

(** What a run of [compileAttributes] that returns leaves behind: the
    manifest and the wrapper script are settled; the header is settled, in
    the directory made for it, when a file of the batch declares the C++
    interface, and does not exist otherwise; and the run reports a write
    exactly when the content of the manifest or of the wrapper script has
    changed, or that of the header when the C++ interface is declared. *)
Lemma compileAttributes_effect (packageDir scope : string)
    (cppFiles basenames includes : list string) (verbose : bool)
    (platform : Platform) (wrote : bool) (w0 w1 : World) :
  compileAttributes packageDir scope cppFiles basenames includes verbose
                    platform w0 = (Ok wrote, w1) ->
  let fileSep := file_sep platform in
  let t1 := cppExportsFile packageDir fileSep in
  let t2 := rExportsFile packageDir fileSep in
  let t3 := includeFile packageDir fileSep scope in
  let dir := includeDir packageDir fileSep in
  let parsed := parsed_in w0 cppFiles in
  exists code1 code2 rex code3 prototypes,
    (forall e1 e2 e3,
       let state :=
         generated parsed verbose
           (ExportsGenerators_writeBegin
              (initial_generators packageDir fileSep scope e1 e2 e3)) [] in
       snd state = prototypes /\
       ExportsGenerators_writeEnd (fst state) =
         [GenCpp (mkCppExportsGenerator (mkExportsGenerator t1 "//" e1 code1));
          GenR (mkRExportsGenerator (mkExportsGenerator t2 "#" e2 code2) rex);
          GenInclude (mkCppIncludeGenerator
                        (mkExportsGenerator t3 "//" e3 code3)
                        scope dir (native_interface parsed))]) /\
    w_staterr w1 = w_staterr w0 /\ w_openerr w1 = w_openerr w0 /\
    settled (mkExportsGenerator t1 "//" EmptyString code1)
            (prototypes_preamble (includes_preamble includes) prototypes) w1 /\
    settled (mkExportsGenerator t2 "#" EmptyString code2) EmptyString w1 /\
    (if native_interface parsed
     then settled (mkExportsGenerator t3 "//" EmptyString code3)
                  (includes_preamble includes) w1 /\
          w_staterr w1 dir = false /\ fs_lookup w1 dir <> None
     else w_staterr w1 t3 = false /\ fs_lookup w1 t3 = None) /\
    (wrote = true <->
       file_content w1 t1 <> file_content w0 t1 \/
       file_content w1 t2 <> file_content w0 t2 \/
       (native_interface parsed = true /\
        file_content w1 t3 <> file_content w0 t3)).
Proof.
  intros E fileSep t1 t2 t3 dir parsed.
  apply compileAttributes_Ok in E.
  destruct E as (Hok1 & Hok2 & Hok3 & code1 & code2 & rex & code3 & prototypes
                 & Hfinal & x1 & x2 & x3 & out & wa & wb & wc & out'
                 & E1 & E2 & E3 & -> & ->).
  fold fileSep t1 t2 t3 dir parsed in Hok1, Hok2, Hok3, Hfinal, E1, E2, E3.
  exists code1, code2, rex, code3, prototypes. split; [exact Hfinal|].
  destruct (targets_distinct packageDir fileSep scope)
    as (D12 & D13 & D23 & Dd1 & Dd2 & Dd3).
  fold t1 t2 t3 dir in D12, D13, D23, Dd1, Dd2, Dd3.
  (* the first commit *)
  pose proof (only_changes_Rcout out w0) as C0.
  pose proof (only_changes_commit _ _ _ _ _ E1) as C1. simpl in C1.
  match type of E1 with ExportsGenerator_commit ?b ?pre ?w = _ =>
    assert (S1 := settled_after_commit b pre _ w _
                    (target_ok_only [] t1 _ _ C0 (fun x => x) Hok1) eq_refl E1)
  end.
  destruct S1 as [S1 X1]. simpl in X1.
  (* the second commit *)
  pose proof (only_changes_trans _ _ _ _ _ C0 C1) as C01. simpl in C01.
  assert (N2 : ~ In t2 [t1]) by (simpl; intuition congruence).
  pose proof (only_changes_commit _ _ _ _ _ E2) as C2. simpl in C2.
  match type of E2 with ExportsGenerator_commit ?b ?pre ?w = _ =>
    assert (S2 := settled_after_commit b pre _ w _
                    (target_ok_only _ t2 _ _ C01 N2 Hok2)
                    (eq_sym (existing_only _ t2 _ _ C01 N2)) E2)
  end.
  destruct S2 as [S2 X2]. simpl in X2.
  pose proof (only_changes_trans _ _ _ _ _ C01 C2) as C02. simpl in C02.
  assert (N3 : ~ In t3 [t1; t2]) by (simpl; intuition congruence).
  pose proof (target_ok_only _ t3 _ _ C02 N3 Hok3) as Hok3b.
  pose proof (existing_only _ t3 _ _ C02 N3) as Hex3.
  (* the third commit *)
  assert (T : exists ps, only_changes ps wb wc /\
                ~ In t1 ps /\ ~ In t2 ps /\ (forall p, In p ps -> p = t3 \/ p = dir) /\
                (if native_interface parsed
                 then settled (mkExportsGenerator t3 "//" EmptyString code3)
                              (includes_preamble includes) wc /\
                      w_staterr wc dir = false /\ fs_lookup wc dir <> None /\
                      (x3 = true <->
                       file_content wc t3 <> file_content wb t3)
                 else w_staterr wc t3 = false /\ fs_lookup wc t3 = None /\
                      x3 = false)).
  { unfold CppIncludeGenerator_commit in E3. simpl in E3.
    destruct (native_interface parsed).
    - apply bind_Ok in E3 as ([] & wd & Ed & E3).
      apply createDirectory_Ok in Ed as (Hsd & Fd1 & Fd2 & Fd3).
      pose proof (only_changes_frame _ _ _ Fd1 Fd2) as Cd.
      pose proof (only_changes_commit _ _ _ _ _ E3) as C3. simpl in C3.
      assert (Nd : ~ In t3 [dir]) by (simpl; intuition congruence).
      match type of E3 with ExportsGenerator_commit ?b ?pre ?w = _ =>
        assert (S3 := settled_after_commit b pre _ w _
                        (target_ok_only _ t3 _ _ Cd Nd Hok3b)
                        (eq_sym (eq_trans (existing_only _ t3 _ _ Cd Nd) Hex3))
                        E3)
      end.
      destruct S3 as [S3 X3]. simpl in X3.
      exists ([dir] ++ [t3]). split; [eapply only_changes_trans; eassumption|].
      split; [simpl; intuition congruence|].
      split; [simpl; intuition congruence|].
      split; [simpl; intuition congruence|].
      split; [exact S3|].
      destruct C3 as (A1 & A2 & A3). destruct Cd as (B1 & B2 & B3).
      split; [rewrite A1, B1; exact Hsd|]. split.
      + rewrite A3 by (simpl; intuition congruence).
        apply Fd3, includeDir_nonempty.
      + rewrite X3.
        rewrite (file_content_same wb wd t3)
          by (apply B3; simpl; intuition congruence).
        reflexivity.
    - apply bind_Ok in E3 as ([] & wd & Ed & E3).
      unfold ret in E3. injection E3 as <- <-.
      unfold ExportsGenerator_remove in Ed. simpl in Ed.
      apply removeFile_Ok in Ed as (Hsd & Fd1 & Fd2 & Fd3).
      exists [t3]. split; [now apply only_changes_frame|].
      split; [simpl; intuition congruence|].
      split; [simpl; intuition congruence|].
      split; [simpl; intuition congruence|].
      destruct Fd1 as (B1 & _). split; [rewrite B1; exact Hsd|].
      split; [|reflexivity]. apply Fd3. intros t Ht.
      destruct Hok3b as [_ Hd]. now rewrite Ht in Hd. }
  destruct T as (ps & C3 & P1 & P2 & P3 & T).
  pose proof (only_changes_Rcout out' wc) as C4.
  pose proof (only_changes_trans _ _ _ _ _ C3 C4) as C34.
  rewrite app_nil_r in C34.
  pose proof (only_changes_trans _ _ _ _ _ C2 C34) as C24. simpl in C24.
  pose proof (only_changes_trans _ _ _ _ _ C02 C34) as C04. simpl in C04.
  assert (Q1 : ~ In t1 (t2 :: ps)) by (simpl; intuition congruence).
  split; [apply C04|]. split; [apply C04|].
  split; [exact (settled_only _ (mkExportsGenerator t1 "//" EmptyString code1)
                    _ _ _ C24 Q1 S1)|].
  split; [exact (settled_only _ (mkExportsGenerator t2 "#" EmptyString code2)
                    _ _ _ C34 P2 S2)|].
  assert (K1 : file_content (set_Rcout out' wc) t1 = file_content wa t1)
    by exact (file_content_only _ _ _ _ C24 Q1).
  assert (K2 : file_content (set_Rcout out' wc) t2 = file_content wb t2)
    by exact (file_content_only _ _ _ _ C34 P2).
  assert (K2' : file_content wa t2 = file_content w0 t2)
    by exact (file_content_only _ _ _ _ C01 N2).
  assert (K3' : file_content wb t3 = file_content w0 t3)
    by exact (file_content_only _ _ _ _ C02 N3).
  rewrite K1, K2. rewrite K2' in X2.
  change (file_content (set_Rcout out w0) t1) with (file_content w0 t1) in X1.
  change (file_content (set_Rcout out' wc) t3) with (file_content wc t3).
  change (fs_lookup (set_Rcout out' wc)) with (fs_lookup wc).
  change (w_staterr (set_Rcout out' wc)) with (w_staterr wc).
  change (settled (mkExportsGenerator t3 "//" EmptyString code3)
            (includes_preamble includes) (set_Rcout out' wc))
    with (settled (mkExportsGenerator t3 "//" EmptyString code3)
            (includes_preamble includes) wc).
  destruct (native_interface parsed).
  - destruct T as (S3 & Hd1 & Hd2 & X3). rewrite K3' in X3.
    split; [tauto|].
    rewrite <- X1, <- X2, <- X3. destruct x1, x2, x3; simpl; intuition congruence.
  - destruct T as (Hs3 & Hf3 & ->).
    split; [tauto|].
    rewrite <- X1, <- X2. destruct x1, x2; simpl; intuition congruence.
Qed.

End Effect.

(** ** What a run reports, and the second run *)

Section Idempotence.
Context `{AttributesParser} `{RBase}.

(** A run of [compileAttributes] over settled target files writes nothing
    and returns false. *)
Lemma compileAttributes_settled (packageDir scope : string)
    (cppFiles basenames includes : list string) (verbose : bool)
    (platform : Platform) (w : World)
    (code1 code2 code3 : string) (rex prototypes : list string) :
  let fileSep := file_sep platform in
  let t1 := cppExportsFile packageDir fileSep in
  let t2 := rExportsFile packageDir fileSep in
  let t3 := includeFile packageDir fileSep scope in
  let dir := includeDir packageDir fileSep in
  let parsed := parsed_in w cppFiles in
  (forall e1 e2 e3,
     let state :=
       generated parsed verbose
         (ExportsGenerators_writeBegin
            (initial_generators packageDir fileSep scope e1 e2 e3)) [] in
     snd state = prototypes /\
     ExportsGenerators_writeEnd (fst state) =
       [GenCpp (mkCppExportsGenerator (mkExportsGenerator t1 "//" e1 code1));
        GenR (mkRExportsGenerator (mkExportsGenerator t2 "#" e2 code2) rex);
        GenInclude (mkCppIncludeGenerator
                      (mkExportsGenerator t3 "//" e3 code3)
                      scope dir (native_interface parsed))]) ->
  settled (mkExportsGenerator t1 "//" EmptyString code1)
          (prototypes_preamble (includes_preamble includes) prototypes) w ->
  settled (mkExportsGenerator t2 "#" EmptyString code2) EmptyString w ->
  (if native_interface parsed
   then settled (mkExportsGenerator t3 "//" EmptyString code3)
                (includes_preamble includes) w /\
        w_staterr w dir = false /\ fs_lookup w dir <> None
   else w_staterr w t3 = false /\ fs_lookup w t3 = None) ->
  exists out,
    compileAttributes packageDir scope cppFiles basenames includes verbose
                      platform w = (Ok false, set_Rcout out w).
Proof.
  intros fileSep t1 t2 t3 dir parsed Hfinal S1 S2 S3.
  assert (Hok3 : target_ok w t3).
  { destruct (native_interface parsed).
    - destruct S3 as (S3 & _).
      exact (settled_target_ok (mkExportsGenerator t3 "//" EmptyString code3) _ _ S3).
    - destruct S3 as (Hs & Hf). split; [exact Hs|]. now rewrite Hf. }
  pose proof (settled_target_ok
                (mkExportsGenerator t1 "//" EmptyString code1) _ _ S1) as Hok1.
  pose proof (settled_target_ok
                (mkExportsGenerator t2 "#" EmptyString code2) _ _ S2) as Hok2.
  simpl in Hok1, Hok2.
  unfold compileAttributes. cbv zeta.
  unfold CppExportsGenerator_new.
  rewrite (bind_eq _ _ _ _ _
             (bind_eq _ _ _ _ _ (ExportsGenerator_new_ok t1 "//" w Hok1))).
  unfold RExportsGenerator_new.
  rewrite (bind_eq _ _ _ _ _
             (bind_eq _ _ _ _ _ (ExportsGenerator_new_ok t2 "#" w Hok2))).
  unfold CppIncludeGenerator_new.
  rewrite (bind_eq _ _ _ _ _
             (bind_eq _ _ _ _ _ (ExportsGenerator_new_ok t3 "//" w Hok3))).
  match goal with |- context [compileAttributes_files _ _ ?gens _] =>
    destruct (compileAttributes_files_eq cppFiles verbose gens [] w)
      as [out Eo]; rewrite (bind_eq _ _ _ _ _ Eo)
  end.
  fold parsed.
  match goal with |- context [generated parsed verbose ?gens []] =>
    change gens with (ExportsGenerators_writeBegin
      (initial_generators packageDir fileSep scope
         (existing w t1) (existing w t2) (existing w t3)))
  end.
  destruct (Hfinal (existing w t1) (existing w t2) (existing w t3))
    as [Hp Hg]. cbv zeta in Hp, Hg.
  rewrite Hp, Hg.
  assert (Ec : ExportsGenerators_commit
    [GenCpp (mkCppExportsGenerator
               (mkExportsGenerator t1 "//" (existing w t1) code1));
     GenR (mkRExportsGenerator
             (mkExportsGenerator t2 "#" (existing w t2) code2) rex);
     GenInclude (mkCppIncludeGenerator
                   (mkExportsGenerator t3 "//" (existing w t3) code3)
                   scope dir (native_interface parsed))]
    includes prototypes (set_Rcout out w) = (Ok false, set_Rcout out w)).
  { unfold ExportsGenerators_commit. simpl.
    unfold CppExportsGenerator_commit, RExportsGenerator_commit,
      CppIncludeGenerator_commit. simpl.
    rewrite (bind_eq _ _ _ _ _
      (settled_commit
         (mkExportsGenerator t1 "//" (existing w t1) code1) _
         (set_Rcout out w) S1 eq_refl)).
    rewrite (bind_eq _ _ _ _ _
      (settled_commit
         (mkExportsGenerator t2 "#" (existing w t2) code2) _
         (set_Rcout out w) S2 eq_refl)).
    assert (E3 :
      (if native_interface parsed
       then run! createDirectory dir in
            ExportsGenerator_commit
              (mkExportsGenerator t3 "//" (existing w t3) code3)
              (includes_preamble includes)
       else run! ExportsGenerator_remove
                   (mkExportsGenerator t3 "//" (existing w t3) code3) in
            ret false) (set_Rcout out w) = (Ok false, set_Rcout out w)).
    { destruct (native_interface parsed).
      - destruct S3 as (S3 & Hs & Hf).
        rewrite (bind_eq _ _ _ _ _
                   (createDirectory_exists dir (set_Rcout out w) Hs Hf)).
        exact (settled_commit
                 (mkExportsGenerator t3 "//" (existing w t3) code3) _
                 (set_Rcout out w) S3 eq_refl).
      - destruct S3 as (Hs & Hf).
        unfold ExportsGenerator_remove. simpl.
        rewrite (bind_eq _ _ _ _ _
                   (removeFile_absent t3 (set_Rcout out w) Hs Hf)).
        reflexivity. }
    rewrite (bind_eq _ _ _ _ _ E3). reflexivity. }
  rewrite (bind_eq _ _ _ _ _ Ec).
  destruct verbose.
  - eexists. unfold bind, Rcout, modify, ret. simpl. reflexivity.
  - exists out. reflexivity.
Qed.

Lemma parsed_in_same (w w' : World) (cppFiles : list string) :
  Forall (fun f => file_content w' f = file_content w f) cppFiles ->
  parsed_in w' cppFiles = parsed_in w cppFiles.
Proof.
  intros Hf. unfold parsed_in. induction Hf as [|f l Hf Hl IH]; simpl.
  - reflexivity.
  - now rewrite Hf, IH.
Qed.

(** C7. When a run of [compileAttributes] has returned and has left the
    source files of the batch as they were, a second run with the same
    arguments returns false, and the files are after it as they were
    before it: nothing is written or removed. *)
Theorem compileAttributes_twice (packageDir scope : string)
    (cppFiles basenames includes : list string) (verbose : bool)
    (platform : Platform) (wrote : bool) (w0 w1 : World) :
  compileAttributes packageDir scope cppFiles basenames includes verbose
                    platform w0 = (Ok wrote, w1) ->
  Forall (fun f => file_content w1 f = file_content w0 f) cppFiles ->
  exists w2,
    compileAttributes packageDir scope cppFiles basenames includes verbose
                      platform w1 = (Ok false, w2) /\
    w_fs w2 = w_fs w1.
Proof.
  intros E Hsrc.
  apply compileAttributes_effect in E.
  destruct E as (code1 & code2 & rex & code3 & prototypes & Hfinal
                 & _ & _ & S1 & S2 & S3 & _).
  rewrite <- (parsed_in_same _ _ _ Hsrc) in Hfinal, S3.
  destruct (compileAttributes_settled packageDir scope cppFiles basenames
              includes verbose platform w1 code1 code2 code3 rex prototypes
              Hfinal S1 S2 S3) as [out Eo].
  exists (set_Rcout out w1). split; [exact Eo | reflexivity].
Qed.

(** C1, amended. A run of [compileAttributes] that returns reports true
    exactly when the content of the manifest or of the wrapper script has
    changed, or, with a file of the batch that declares the C++ interface,
    the content of the header; without such a file the header does not
    exist after the run, and to remove it does not count. *)
Theorem compileAttributes_reports_writes (packageDir scope : string)
    (cppFiles basenames includes : list string) (verbose : bool)
    (platform : Platform) (wrote : bool) (w0 w1 : World) :
  compileAttributes packageDir scope cppFiles basenames includes verbose
                    platform w0 = (Ok wrote, w1) ->
  let fileSep := file_sep platform in
  let manifest := cppExportsFile packageDir fileSep in
  let wrapper := rExportsFile packageDir fileSep in
  let header := includeFile packageDir fileSep scope in
  let native := native_interface (parsed_in w0 cppFiles) in
  (wrote = true <->
     file_content w1 manifest <> file_content w0 manifest \/
     file_content w1 wrapper <> file_content w0 wrapper \/
     (native = true /\ file_content w1 header <> file_content w0 header)) /\
  (native = false ->
     fs_lookup w1 header = None /\
     (wrote = true <->
        file_content w1 manifest <> file_content w0 manifest \/
        file_content w1 wrapper <> file_content w0 wrapper)).
Proof.
  intros E fileSep manifest wrapper header native.
  apply compileAttributes_effect in E.
  destruct E as (code1 & code2 & rex & code3 & prototypes & _
                 & _ & _ & _ & _ & S3 & X).
  fold fileSep manifest wrapper header native in S3, X.
  split; [exact X|].
  intros Hn. rewrite Hn in S3, X. split; [tauto|].
  rewrite X. intuition congruence.
Qed.

End Idempotence.

(** C1 fails on a package whose manifest and wrapper script are up to
    date, whose batch declares no C++ interface, and which has a header from
    an earlier run: the run removes the header and returns false. *)
Lemma removed_header_counterexample :
  let w := Example.package_with_header in
  let r := @compileAttributes Example.parser
             "pkg" "mypkg" ["pkg/src/a.cpp"] ["a.cpp"] ["#include <Rcpp.h>"]
             false Example.platform w in
  @native_interface Example.parser (@parsed_in Example.parser w ["pkg/src/a.cpp"])
    = false /\
  file_content w "pkg/inst/include/mypkg.hpp" = Some Example.header_text /\
  fs_lookup (snd r) "pkg/inst/include/mypkg.hpp" = None /\
  file_content (snd r) "pkg/src/RcppExports.cpp"
    = file_content w "pkg/src/RcppExports.cpp" /\
  file_content (snd r) "pkg/R/RcppExports.R"
    = file_content w "pkg/R/RcppExports.R" /\
  fst r = Ok false.
Proof.
  intros w r. vm_compute in r.
  split; [reflexivity|]. split; [reflexivity|]. split; [reflexivity|].
  split; [reflexivity|]. split; reflexivity.
Qed.

(** C1, amended, at the first run over a package. *)
Lemma compileAttributes_reports_writes_witness :
  let w0 := Example.package in
  exists wrote w1,
    @compileAttributes Example.parser
      "pkg" "mypkg" ["pkg/src/a.cpp"] ["a.cpp"] ["#include <Rcpp.h>"]
      false Example.platform w0 = (Ok wrote, w1) /\
    (wrote = true <->
       file_content w1 "pkg/src/RcppExports.cpp"
         <> file_content w0 "pkg/src/RcppExports.cpp" \/
       file_content w1 "pkg/R/RcppExports.R"
         <> file_content w0 "pkg/R/RcppExports.R" \/
       (@native_interface Example.parser
          (@parsed_in Example.parser w0 ["pkg/src/a.cpp"]) = true /\
        file_content w1 "pkg/inst/include/mypkg.hpp"
          <> file_content w0 "pkg/inst/include/mypkg.hpp")).
Proof.
  intros w0.
  evaluate E (@compileAttributes Example.parser
      "pkg" "mypkg" ["pkg/src/a.cpp"] ["a.cpp"] ["#include <Rcpp.h>"]
      false Example.platform w0).
  match type of E with _ = (Ok ?b, ?w) => exists b, w end.
  split; [exact E|].
  apply (@compileAttributes_reports_writes Example.parser _ _ _ _ _ _ _ _ _ _ E).
Defined.

(** C7 at two runs over a package. *)
Lemma compileAttributes_twice_witness :
  let w0 := Example.package in
  exists wrote w1,
    @compileAttributes Example.parser
      "pkg" "mypkg" ["pkg/src/a.cpp"] ["a.cpp"] ["#include <Rcpp.h>"]
      false Example.platform w0 = (Ok wrote, w1) /\
    Forall (fun f => file_content w1 f = file_content w0 f) ["pkg/src/a.cpp"] /\
    exists w2,
      @compileAttributes Example.parser
        "pkg" "mypkg" ["pkg/src/a.cpp"] ["a.cpp"] ["#include <Rcpp.h>"]
        false Example.platform w1 = (Ok false, w2) /\
      w_fs w2 = w_fs w1.
Proof.
  intros w0.
  evaluate E (@compileAttributes Example.parser
      "pkg" "mypkg" ["pkg/src/a.cpp"] ["a.cpp"] ["#include <Rcpp.h>"]
      false Example.platform w0).
  match type of E with _ = (Ok ?b, ?w) =>
    exists b, w;
    assert (Hsrc : Forall (fun f => file_content w f = file_content w0 f)
                          ["pkg/src/a.cpp"])
      by (constructor; [vm_compute; reflexivity | constructor])
  end.
  split; [exact E|]. split; [exact Hsrc|].
  apply (@compileAttributes_twice Example.parser _ _ _ _ _ _ _ _ _ _ E Hsrc).
Defined.

(** * Further properties *)

(** ** The cache: insertion and lookup *)

Lemma lookupByFile_app (entries_ rest : SourceCppDynlibCache) (file : string) :
  lookupByFile (entries_ ++ rest) file =
    if existsb (fun e => String.eqb (Entry_file e) file) entries_
    then lookupByFile entries_ file
    else lookupByFile rest file.
Proof.
  induction entries_ as [|e l IH]; simpl; [reflexivity|].
  destruct (String.eqb (Entry_file e) file); [reflexivity | exact IH].
Qed.

Lemma lookupByCode_app (entries_ rest : SourceCppDynlibCache) (code : string) :
  lookupByCode (entries_ ++ rest) code =
    if existsb (fun e => String.eqb (Entry_code e) code) entries_
    then lookupByCode entries_ code
    else lookupByCode rest code.
Proof.
  induction entries_ as [|e l IH]; simpl; [reflexivity|].
  destruct (String.eqb (Entry_code e) code); [reflexivity | exact IH].
Qed.

(** X1. A lookup returns the unit of the first entry under the key, and the
    empty unit when there is none: after an insertion under a key, the lookup
    of any key of the same kind returns what it returned before when an
    entry was under it, the inserted unit when the key is the inserted one,
    and the empty unit otherwise.  An insertion under a key already present
    adds an entry that no lookup reaches. *)
Theorem lookup_after_insert (entries_ : SourceCppDynlibCache)
    (key other : string) (dynlib : SourceCppDynlib) :
  lookupByFile (insertFile entries_ key dynlib) other =
    (if existsb (fun e => String.eqb (Entry_file e) other) entries_
     then lookupByFile entries_ other
     else if String.eqb key other then dynlib else SourceCppDynlib_default) /\
  lookupByCode (insertCode entries_ key dynlib) other =
    (if existsb (fun e => String.eqb (Entry_code e) other) entries_
     then lookupByCode entries_ other
     else if String.eqb key other then dynlib else SourceCppDynlib_default) /\
  isEmpty SourceCppDynlib_default = true /\
  lookupByFile [] other = SourceCppDynlib_default /\
  lookupByCode [] other = SourceCppDynlib_default.
Proof.
  unfold insertFile, insertCode.
  rewrite lookupByFile_app, lookupByCode_app. simpl. repeat split.
Qed.

(** X2. The two kinds of keys are not kept apart: an entry inserted by code
    has the empty file name and one inserted by file the empty code, so the
    lookup by file of the empty path reaches the units inserted by code, and
    the lookup by code of the empty code those inserted by file. *)
Theorem lookup_across_keys (entries_ : SourceCppDynlibCache)
    (key : string) (dynlib : SourceCppDynlib) :
  lookupByFile (insertCode entries_ key dynlib) EmptyString =
    (if existsb (fun e => String.eqb (Entry_file e) EmptyString) entries_
     then lookupByFile entries_ EmptyString else dynlib) /\
  lookupByCode (insertFile entries_ key dynlib) EmptyString =
    (if existsb (fun e => String.eqb (Entry_code e) EmptyString) entries_
     then lookupByCode entries_ EmptyString else dynlib) /\
  (forall file, file <> EmptyString ->
     lookupByFile (insertCode entries_ key dynlib) file =
     lookupByFile entries_ file).
Proof.
  unfold insertFile, insertCode.
  rewrite lookupByFile_app, lookupByCode_app. simpl. split; [reflexivity|].
  split; [reflexivity|]. intros file Hf. rewrite lookupByFile_app. simpl.
  destruct file; [congruence|]. simpl.
  destruct (existsb _ entries_) eqn:E; [reflexivity|].
  clear Hf. induction entries_ as [|e l IH]; simpl in *; [reflexivity|].
  destruct (String.eqb (Entry_file e) (String a file)); [discriminate|].
  now apply IH.
Qed.

(** ** Requests for a build unit *)

Section LookupMore.
Context `{AttributesParser} `{RBase}.

(** X3. A request that misses the cache for a source file that does not
    exist throws [file_not_found] and leaves the world as it was: no build
    directory is made, no module name is drawn, nothing enters the cache. *)
Theorem missing_source_not_found (sFile : string) (sCode : option string)
    (sPlatform : Platform) (w : World) :
  isEmpty (cached (w_cache w) sFile (default EmptyString sCode)) = true ->
  w_staterr w sFile = false ->
  fs_lookup w sFile = None ->
  sourceCppContext sFile sCode sPlatform w = (Throw (file_not_found sFile), w).
Proof.
  intros Hm Hs Hf. rewrite (sourceCppContext_miss _ _ _ _ Hm).
  unfold bind at 1. unfold SourceCppDynlib_new. unfold bind at 1.
  rewrite (FileInfo_new_eq _ _ Hs), Hf. reflexivity.
Qed.

(** X4. The cache only grows, and by one entry at most: a call that finds a
    unit, or that throws, leaves the cache as it was; a call that finds none
    and returns appends one entry, under the code when there is code and
    under the file otherwise, that holds the unit it returns. *)
Theorem cache_append_only (sFile : string) (sCode : option string)
    (sPlatform : Platform) (w : World) :
  let code := default EmptyString sCode in
  let r := sourceCppContext sFile sCode sPlatform w in
  (isEmpty (cached (w_cache w) sFile code) = false ->
     w_cache (snd r) = w_cache w) /\
  (forall e, fst r = Throw e -> w_cache (snd r) = w_cache w) /\
  (isEmpty (cached (w_cache w) sFile code) = true ->
   forall ctx, fst r = Ok ctx ->
   exists d,
     w_cache (snd r) =
       w_cache w ++ [if negb (Text.empty code)
                     then mkEntry EmptyString code d
                     else mkEntry sFile EmptyString d] /\
     cppSourcePath d = sFile /\
     context_of d true = ctx).
Proof.
  intros code r.
  assert (Hit : isEmpty (cached (w_cache w) sFile code) = false ->
                w_cache (snd r) = w_cache w).
  { intros Hd. unfold r. rewrite (sourceCppContext_hit _ _ _ _ Hd).
    fold code. unfold bind at 1.
    destruct (isSourceDirty _ w) as [[dirty|e'] w1] eqn:Ed;
      apply isSourceDirty_world in Ed as ->; [|reflexivity].
    destruct dirty; unfold bind at 1.
    - destruct (regenerateSource _ w) as [[d|e'] w1] eqn:Er;
        apply regenerateSource_frame in Er
          as (_ & _ & _ & _ & _ & _ & _ & Ec & _); exact Ec.
    - destruct (isBuilt _ w) as [[built|e'] w1] eqn:Eb;
        apply isBuilt_world in Eb as ->; reflexivity. }
  split; [exact Hit|]. split.
  - intros e He.
    destruct (isEmpty (cached (w_cache w) sFile code)) eqn:Hd; [|now apply Hit].
    unfold r in *. rewrite (sourceCppContext_miss _ _ _ _ Hd) in *.
    unfold bind at 1 in He. unfold bind at 1.
    destruct (SourceCppDynlib_new sFile sPlatform w) as [[d|e'] w1] eqn:En.
    + unfold_monad. simpl in He. discriminate He.
    + simpl. exact (SourceCppDynlib_new_cache _ _ _ _ _ En).
  - intros Hd ctx Hr. unfold r in *.
    rewrite (sourceCppContext_miss _ _ _ _ Hd) in *. fold code in Hr |- *.
    unfold bind at 1 in Hr. unfold bind at 1.
    destruct (SourceCppDynlib_new sFile sPlatform w) as [[d|e'] w1] eqn:En;
      [|discriminate Hr].
    pose proof (SourceCppDynlib_new_cache _ _ _ _ _ En) as Ec.
    apply SourceCppDynlib_new_inv in En as (P1 & _).
    unfold_monad. simpl in *. injection Hr as <-.
    exists d. rewrite Ec. unfold insertCode, insertFile.
    destruct (negb (Text.empty code)); tauto.
Qed.

(** X5. A call that finds a unit in the cache does not look at the platform
    it is given, and with code to key the cache by, not at the file either:
    the unit keeps the separator, the extension and the source path of the
    call that made it. *)
Theorem hit_ignores_platform (sFile sFile' : string) (sCode : option string)
    (sPlatform sPlatform' : Platform) (w : World) :
  isEmpty (cached (w_cache w) sFile (default EmptyString sCode)) = false ->
  sourceCppContext sFile sCode sPlatform w =
  sourceCppContext sFile sCode sPlatform' w /\
  (Text.empty (default EmptyString sCode) = false ->
   sourceCppContext sFile sCode sPlatform w =
   sourceCppContext sFile' sCode sPlatform' w).
Proof.
  intros Hd. split.
  - now rewrite !(sourceCppContext_hit _ _ _ _ Hd).
  - intros Hc.
    assert (Hk : cached (w_cache w) sFile' (default EmptyString sCode) =
                 cached (w_cache w) sFile (default EmptyString sCode))
      by (unfold cached; now rewrite Hc).
    assert (Hd' : isEmpty (cached (w_cache w) sFile' (default EmptyString sCode))
                  = false) by now rewrite Hk.
    rewrite (sourceCppContext_hit _ _ _ _ Hd), (sourceCppContext_hit _ _ _ _ Hd').
    now rewrite Hk.
Qed.

Lemma isSourceDirty_false (d : SourceCppDynlib) (w w' : World) :
  isSourceDirty d w = (Ok false, w') ->
  isBuilt d w = (Ok true, w).
Proof.
  unfold isSourceDirty, isBuilt, bind.
  destruct (FileInfo_new (cppSourcePath_ d) w) as [[i1|e] w1] eqn:E1;
    apply FileInfo_new_snd in E1 as ->; [|discriminate].
  destruct (FileInfo_new (generatedCppSourcePath d) w) as [[i2|e] w1] eqn:E2;
    apply FileInfo_new_snd in E2 as ->; [|discriminate].
  match goal with |- context [if ?b then _ else _] => destruct b end;
    [discriminate|].
  destruct (FileInfo_new (dynlibPath d) w) as [[i3|e] w1] eqn:E3;
    apply FileInfo_new_snd in E3 as ->; [|discriminate].
  unfold ret. destruct (exists_ i3); simpl; [reflexivity | discriminate].
Qed.

(** X6. On a call that finds a unit in the cache and returns,
    [buildRequired] is what [isSourceDirty] answers: a unit that is not
    dirty has its compiled artifact, so that the test of [isBuilt] that
    follows never asks for a build; and such a call changes nothing. *)
Theorem hit_buildRequired_is_dirty (sFile : string) (sCode : option string)
    (sPlatform : Platform) (ctx : Context) (w w' : World) :
  isEmpty (cached (w_cache w) sFile (default EmptyString sCode)) = false ->
  sourceCppContext sFile sCode sPlatform w = (Ok ctx, w') ->
  isSourceDirty (cached (w_cache w) sFile (default EmptyString sCode)) w
    = (Ok (ctx_buildRequired ctx), w) /\
  (ctx_buildRequired ctx = false ->
   w' = w /\
   ctx = context_of (cached (w_cache w) sFile (default EmptyString sCode)) false).
Proof.
  intros Hd E. rewrite (sourceCppContext_hit _ _ _ _ Hd) in E.
  apply bind_Ok in E as (dirty & w1 & Ed & E).
  pose proof (isSourceDirty_world _ _ _ _ Ed) as ->.
  destruct dirty.
  - apply bind_Ok in E as (d' & w2 & Er & E).
    unfold ret in E. injection E as <- <-. simpl.
    split; [exact Ed | discriminate].
  - rewrite (bind_eq _ _ _ _ _ (isSourceDirty_false _ _ _ Ed)) in E.
    unfold ret in E. injection E as <- <-. simpl.
    split; [exact Ed|]. intros _. split; reflexivity.
Qed.

End LookupMore.

(** ** The build unit and its generated source *)

Lemma set_fs_set_fs (f g : gmap string node -> gmap string node) (w : World) :
  set_fs f (set_fs g w) = set_fs (fun m => f (g m)) w.
Proof. reflexivity. Qed.



Lemma can_open_insert (w : World) (path : string) (c : string) (t : Z) :
  can_open w path = true ->
  can_open (set_fs (<[path := RegFile c t]>) w) path = true.
Proof.
  intros Ho. pose proof (can_open_nonempty _ _ Ho) as Hn.
  unfold can_open in *. rewrite fs_lookup_insert_eq by exact Hn.
  apply andb_prop in Ho as [Ho _]. simpl. now rewrite Ho.
Qed.

Section UnitMore.
Context `{AttributesParser} `{RBase}.

(** [regenerateSource] when the source can be copied and the copy opened. *)
Lemma regenerateSource_eq (d : SourceCppDynlib) (src : string) (w : World) :
  file_content w (cppSourcePath_ d) = Some src ->
  can_open w (generatedCppSourcePath d) = true ->
  cppSourcePath_ d <> generatedCppSourcePath d ->
  let sa := parseSourceFile (cppSourcePath_ d) (Some src) in
  let block :=
    fst (generateCppModule EmptyString EmptyString (moduleName d) sa false) in
  regenerateSource d w =
    (Ok (mkSourceCppDynlib (cppSourcePath_ d) (cppSourceLastModified_ d)
           block (cppSourceFilename_ d) (moduleName_ d) (buildDirectory_ d)
           (fileSep_ d) (dynlibExt_ d) (fst (discover sa)) (snd (discover sa))),
     set_fs (<[generatedCppSourcePath d :=
                 RegFile (src +:+ Text.endl +:+ block) (w_clock w)]>) w).
Proof.
  intros Hs Ho Hne sa block.
  pose proof (can_open_nonempty _ _ Ho) as Hn.
  unfold regenerateSource, R_file_copy, SourceFileAttributes_new, append_stream.
  unfold_monad. rewrite Hs, Ho. simpl.
  set (w1 := set_fs (<[generatedCppSourcePath d := RegFile src (w_clock w)]>) w).
  assert (F1 : file_content w1 (cppSourcePath_ d) = Some src).
  { unfold file_content, w1. rewrite fs_lookup_insert_ne by congruence.
    exact Hs. }
  assert (F2 : file_content w1 (generatedCppSourcePath d) = Some src).
  { unfold file_content, w1. now rewrite fs_lookup_insert_eq. }
  assert (F3 : can_open w1 (generatedCppSourcePath d) = true).
  { now apply can_open_insert. }
  rewrite F1, F2, F3. simpl. fold sa. fold block.
  destruct (discover sa) as [ex de]. simpl.
  unfold w1. rewrite set_fs_set_fs. f_equal. unfold set_fs. simpl.
  f_equal. apply insert_insert_eq.
Qed.

(** X7. When the source is a regular file, distinct from the copy, and the
    copy can be opened, [regenerateSource] leaves in the copy the source
    followed by a line end and the module block, whatever the copy held,
    and leaves the source as it was; the unit keeps its names and records
    the block, the exported functions and the dependencies of that source.
    Run again on its result, it returns the same unit and the same world. *)
Theorem regenerateSource_idempotent (d : SourceCppDynlib) (src : string)
    (w : World) :
  file_content w (cppSourcePath_ d) = Some src ->
  can_open w (generatedCppSourcePath d) = true ->
  cppSourcePath_ d <> generatedCppSourcePath d ->
  let sa := parseSourceFile (cppSourcePath_ d) (Some src) in
  let block :=
    fst (generateCppModule EmptyString EmptyString (moduleName d) sa false) in
  exists d' w',
    regenerateSource d w = (Ok d', w') /\
    same_unit d d' /\
    generatedCpp d' = block /\
    exportedFunctions d' = fst (discover sa) /\
    depends d' = snd (discover sa) /\
    file_content w' (generatedCppSourcePath d) =
      Some (src +:+ Text.endl +:+ block) /\
    file_content w' (cppSourcePath_ d) = Some src /\
    regenerateSource d' w' = (Ok d', w').
Proof.
  intros Hs Ho Hne sa block.
  pose proof (can_open_nonempty _ _ Ho) as Hn.
  rewrite (regenerateSource_eq d src w Hs Ho Hne). fold sa block.
  eexists _, _. split; [reflexivity|].
  split; [repeat split|]. split; [reflexivity|]. split; [reflexivity|].
  split; [reflexivity|].
  assert (F1 : forall c t,
    file_content (set_fs (<[generatedCppSourcePath d := RegFile c t]>) w)
                 (generatedCppSourcePath d) = Some c).
  { intros c t. unfold file_content. now rewrite fs_lookup_insert_eq. }
  assert (F2 : forall c t,
    file_content (set_fs (<[generatedCppSourcePath d := RegFile c t]>) w)
                 (cppSourcePath_ d) = Some src).
  { intros c t. unfold file_content. rewrite fs_lookup_insert_ne by congruence.
    exact Hs. }
  split; [apply F1|]. split; [apply F2|].
  match goal with |- regenerateSource ?d1 ?w1 = _ =>
    rewrite (regenerateSource_eq d1 src w1)
  end.
  - simpl. fold sa. unfold moduleName. simpl. fold (moduleName d). fold block.
    f_equal. unfold set_fs. simpl. f_equal. apply insert_insert_eq.
  - apply F2.
  - now apply can_open_insert.
  - exact Hne.
Qed.

Lemma regenerateSource_only (d : SourceCppDynlib)
    (r : result SourceCppDynlib) (w w' : World) :
  regenerateSource d w = (r, w') ->
  forall p, p <> generatedCppSourcePath d -> fs_lookup w' p = fs_lookup w p.
Proof.
  intros E p Hp. revert E.
  unfold regenerateSource, R_file_copy, SourceFileAttributes_new, append_stream.
  unfold_monad. simpl.
  destruct (file_content w (cppSourcePath_ d)) as [c|]; simpl.
  - destruct (can_open w (generatedCppSourcePath d)); simpl.
    + match goal with |- context [can_open ?w0 ?q] =>
        destruct (can_open w0 q) end; simpl.
      * destruct (discover _). intros [= _ <-].
        rewrite !fs_lookup_insert_ne by congruence. reflexivity.
      * intros [= _ <-]. now rewrite fs_lookup_insert_ne by congruence.
    + destruct (can_open w (generatedCppSourcePath d)); simpl.
      * destruct (discover _). intros [= _ <-].
        now rewrite fs_lookup_insert_ne by congruence.
      * now intros [= _ <-].
  - destruct (can_open w (generatedCppSourcePath d)); simpl.
    + destruct (discover _). intros [= _ <-].
      now rewrite fs_lookup_insert_ne by congruence.
    + now intros [= _ <-].
Qed.

(** X8. A call that finds a unit in the cache changes at most the generated
    copy of that unit, whether it returns or throws: every other path, the
    source file among them when it is not the copy, the cache, the draws of
    [sample] and [tempfile] and what was printed are as before. *)
Theorem hit_writes_only_copy (sFile : string) (sCode : option string)
    (sPlatform : Platform) (r : result Context) (w w' : World) :
  isEmpty (cached (w_cache w) sFile (default EmptyString sCode)) = false ->
  sourceCppContext sFile sCode sPlatform w = (r, w') ->
  same_but_fs w w' /\
  forall p,
    p <> generatedCppSourcePath
           (cached (w_cache w) sFile (default EmptyString sCode)) ->
    fs_lookup w' p = fs_lookup w p.
Proof.
  intros Hd E. rewrite (sourceCppContext_hit _ _ _ _ Hd) in E.
  unfold bind at 1 in E.
  destruct (isSourceDirty _ w) as [[dirty|e'] w1] eqn:Ed;
    apply isSourceDirty_world in Ed as ->.
  - destruct dirty; unfold bind at 1 in E.
    + destruct (regenerateSource _ w) as [[d|e'] w1] eqn:Er;
        injection E as <- <-;
        (split; [exact (regenerateSource_frame _ _ _ _ Er)
                | exact (regenerateSource_only _ _ _ _ Er)]).
    + destruct (isBuilt _ w) as [[built|e'] w1] eqn:Eb;
        apply isBuilt_world in Eb as ->; injection E as <- <-;
        (split; [apply same_but_fs_refl | reflexivity]).
  - injection E as <- <-. split; [apply same_but_fs_refl | reflexivity].
Qed.

Lemma R_dir_create_only (path : string) (r : result unit) (w w' : World) :
  R_dir_create path w = (r, w') ->
  forall p, p <> path -> fs_lookup w' p = fs_lookup w p.
Proof.
  unfold R_dir_create, modify. intros [= _ <-] p Hp.
  destruct (Text.empty path); [reflexivity|].
  destruct (fs_lookup w path); [reflexivity|].
  now rewrite fs_lookup_insert_ne by congruence.
Qed.

Lemma regenerateSource_lastModified (d d' : SourceCppDynlib) (w w' : World) :
  regenerateSource d w = (Ok d', w') ->
  cppSourceLastModified_ d' = cppSourceLastModified_ d.
Proof.
  unfold regenerateSource. unfold bind at 1.
  destruct (R_file_copy _ _ w) as [[[]|e] w1]; [|discriminate].
  unfold SourceFileAttributes_new, append_stream. unfold_monad. simpl.
  destruct (can_open w1 (generatedCppSourcePath d)); simpl; [|discriminate].
  destruct (discover _). now intros [= <- _].
Qed.

(** What the constructor of a build unit records. *)
Lemma SourceCppDynlib_new_fields (cppSourcePath : string) (platform : Platform)
    (d : SourceCppDynlib) (w w' : World) :
  SourceCppDynlib_new cppSourcePath platform w = (Ok d, w') ->
  buildDirectory_ d =
    Text.replace "\"%char "/"%char (w_tempfile w (w_tempfiles w)) /\
  cppSourceFilename_ d = basename cppSourcePath /\
  cppSourceLastModified_ d = lastModified w cppSourcePath /\
  w_tempfiles w' = S (w_tempfiles w) /\
  (forall p, p <> buildDirectory_ d -> p <> generatedCppSourcePath d ->
     fs_lookup w' p = fs_lookup w p).
Proof.
  intros E. unfold SourceCppDynlib_new in E.
  apply bind_Ok in E as (info & wa & E1 & E).
  apply FileInfo_new_Ok in E1 as (-> & _ & ->). simpl in E.
  destruct (fs_lookup w cppSourcePath) as [n|] eqn:El; simpl in E;
    [|discriminate].
  apply bind_Ok in E as (tmp & wb & E1 & E).
  rewrite R_tempfile_eq in E1. injection E1 as <- <-.
  apply bind_Ok in E as ([] & wc & E1 & E).
  apply bind_Ok in E as (n0 & wd & E2 & E).
  rewrite R_sample_eq in E2. injection E2 as <- <-.
  pose proof (regenerateSource_only _ _ _ _ E) as Fo.
  pose proof (regenerateSource_lastModified _ _ _ _ E) as Fm. simpl in Fm.
  apply regenerateSource_inv in E as [Su Sf].
  destruct Su as (S1 & S2 & S3 & S4 & S5 & S6).
  destruct Sf as (_ & _ & _ & _ & _ & _ & Et & _ & _). simpl in *.
  unfold generatedCppSourcePath, cppSourceFilename in *. simpl in Fo.
  rewrite S4, S2, S5. split; [reflexivity|]. split; [reflexivity|].
  split; [rewrite Fm; unfold lastModified; now rewrite El|].
  pose proof (R_dir_create_only _ _ _ _ E1) as Df.
  pose proof (R_dir_create_frame
    (Text.replace "\"%char "/"%char (w_tempfile w (w_tempfiles w)))
    (set_tempfiles (S (w_tempfiles w)) w)) as [_ Dt].
  rewrite E1 in Dt. destruct Dt as (_ & _ & _ & _ & _ & _ & Dt & _).
  simpl in Dt. split; [congruence|].
  intros p Hp1 Hp2. rewrite Fo by exact Hp2. exact (Df p Hp1).
Qed.


(** X10. The construction of a unit writes at two paths only, the build
    directory it makes and the copy of the source in it; it records the
    base name and the modification time of the source, and takes one name
    from [tempfile]. *)
Theorem construction_writes_only_build_directory (cppSourcePath : string)
    (platform : Platform) (d : SourceCppDynlib) (w w' : World) :
  SourceCppDynlib_new cppSourcePath platform w = (Ok d, w') ->
  cppSourceFilename d = basename cppSourcePath /\
  cppSourceLastModified_ d = lastModified w cppSourcePath /\
  generatedCppSourcePath d =
    buildDirectory d +:+ file_sep platform +:+ basename cppSourcePath /\
  w_tempfiles w' = S (w_tempfiles w) /\
  (forall p, p <> buildDirectory d -> p <> generatedCppSourcePath d ->
     fs_lookup w' p = fs_lookup w p).
Proof.
  intros E.
  pose proof (SourceCppDynlib_new_inv _ _ _ _ _ E)
    as (_ & _ & _ & Hsep & _).
  apply SourceCppDynlib_new_fields in E as (_ & Hb & Hm & Ht & Hf).
  unfold cppSourceFilename, generatedCppSourcePath, buildDirectory,
    cppSourceFilename in *.
  rewrite Hsep, Hb. split; [reflexivity|]. split; [exact Hm|].
  split; [reflexivity|]. split; [exact Ht|].
  intros p Hp1 Hp2. apply Hf; [exact Hp1|].
  unfold generatedCppSourcePath, cppSourceFilename. now rewrite Hsep, Hb.
Qed.

(** X11. [regenerateSource] records, in the order of the attributes, the
    exported name of every exported function, and the names of the
    parameters of every attribute named [depends] that is not an exported
    function. *)
Theorem discover_lists (a : SourceFileAttributes) :
  discover a =
    (map exportedName (List.filter isExportedFunction (sfa_attributes a)),
     flat_map (fun it => map Param_name (Attribute_params it))
       (List.filter
          (fun it => negb (isExportedFunction it) &&
                     String.eqb (Attribute_name it) kDependsAttribute)
          (sfa_attributes a))).
Proof.
  unfold discover.
  assert (P : forall ps acc,
    fold_left (fun depends p => depends ++ [Param_name p]) ps acc
    = acc ++ map Param_name ps).
  { induction ps as [|p ps IH]; intros acc; simpl.
    - now rewrite app_nil_r.
    - rewrite IH. now rewrite <- app_assoc. }
  assert (G : forall l acc dep,
    fold_left
      (fun (found : list string * list string) (it : Attribute) =>
         let (exportedFunctions, depends) := found in
         if String.eqb (Attribute_name it) kExportAttribute &&
            negb (Function_empty (Attribute_function it))
         then (exportedFunctions ++ [exportedName it], depends)
         else if String.eqb (Attribute_name it) kDependsAttribute
         then (exportedFunctions,
               fold_left (fun depends p => depends ++ [Param_name p])
                         (Attribute_params it) depends)
         else (exportedFunctions, depends)) l (acc, dep)
    = (acc ++ map exportedName (List.filter isExportedFunction l),
       dep ++ flat_map (fun it => map Param_name (Attribute_params it))
         (List.filter
            (fun it => negb (isExportedFunction it) &&
                       String.eqb (Attribute_name it) kDependsAttribute) l))).
  { induction l as [|it l IH]; intros acc dep; simpl.
    - now rewrite !app_nil_r.
    - change (String.eqb (Attribute_name it) kExportAttribute &&
              negb (Function_empty (Attribute_function it)))
        with (isExportedFunction it).
      destruct (isExportedFunction it) eqn:E; simpl.
      + rewrite IH. now rewrite <- app_assoc.
      + destruct (String.eqb (Attribute_name it) kDependsAttribute); simpl.
        * rewrite IH, P. now rewrite <- app_assoc.
        * apply IH. }
  apply (G (sfa_attributes a) [] []).
Qed.

End UnitMore.

(** ** Loops that write lists *)

Lemma app_empty_r_s (a : string) : a +:+ EmptyString = a.
Proof.
  induction a as [|x a IH]; [reflexivity|]. rewrite app_cons_s. now rewrite IH.
Qed.

Lemma concat_cons2 (sep x y : string) (l : list string) :
  String.concat sep (x :: y :: l) = x +:+ sep +:+ String.concat sep (y :: l).
Proof. reflexivity. Qed.

(** The loop that writes the elements with a separator after each but the
    last writes the elements joined by the separator. *)
Lemma for_i_separated {A : Type} (f : A -> string) (sep : string)
    (v : list A) (ostr : string) :
  Text.for_i v
    (fun i x ostr =>
       let ostr := ostr +:+ f x in
       if negb (Nat.eqb i (length v - 1)) then ostr +:+ sep else ostr)
    ostr
  = ostr +:+ String.concat sep (map f v).
Proof.
  unfold Text.for_i.
  assert (G : forall l k N o, N = k + length l ->
    fold_left
      (fun o ix =>
         (fun i x ostr =>
            let ostr := ostr +:+ f x in
            if negb (Nat.eqb i (N - 1)) then ostr +:+ sep else ostr)
         (fst ix) (snd ix) o)
      (combine (seq k (length l)) l) o
    = o +:+ String.concat sep (map f l)).
  { induction l as [|x l IH]; intros k N o HN.
    - simpl. now rewrite app_empty_r_s.
    - simpl length in *. simpl seq. simpl combine. simpl fold_left.
      rewrite (IH (S k) N) by lia.
      destruct l as [|y l].
      + simpl. replace (k =? N - 1) with true
          by (symmetry; apply Nat.eqb_eq; simpl in HN; lia).
        simpl. now rewrite app_empty_r_s.
      + replace (k =? N - 1) with false
          by (symmetry; apply Nat.eqb_neq; simpl in HN; lia).
        cbv zeta. simpl negb. cbv iota.
        change (map f (x :: y :: l)) with (f x :: f y :: map f l).
        rewrite concat_cons2. now rewrite !app_assoc_s. }
  apply (G v 0 (length v) ostr). reflexivity.
Qed.

(** The loop of [writeEnd]: every name in quotes, a comma and a line end
    after each but the last, an indentation before each but the first. *)
Lemma for_i_indented (indent : string) (v : list string) (ostr : string) :
  Text.for_i v
    (fun i name ostr =>
       let ostr := if negb (Nat.eqb i 0) then ostr +:+ indent else ostr in
       let ostr := ostr +:+ Text.dquote +:+ name +:+ Text.dquote in
       if negb (Nat.eqb i (length v - 1))
       then ostr +:+ "," +:+ Text.endl
       else ostr)
    ostr
  = ostr +:+ String.concat ("," +:+ Text.endl +:+ indent)
               (map (fun name => Text.dquote +:+ name +:+ Text.dquote) v).
Proof.
  unfold Text.for_i.
  set (q := fun name => Text.dquote +:+ name +:+ Text.dquote).
  assert (G : forall l k N o, N = k + length l ->
    fold_left
      (fun o ix =>
         (fun i name ostr =>
            let ostr := if negb (Nat.eqb i 0) then ostr +:+ indent else ostr in
            let ostr := ostr +:+ Text.dquote +:+ name +:+ Text.dquote in
            if negb (Nat.eqb i (N - 1))
            then ostr +:+ "," +:+ Text.endl
            else ostr)
         (fst ix) (snd ix) o)
      (combine (seq k (length l)) l) o
    = o +:+ (if Nat.eqb k 0 then EmptyString
             else match l with [] => EmptyString | _ => indent end)
        +:+ String.concat ("," +:+ Text.endl +:+ indent) (map q l)).
  { induction l as [|x l IH]; intros k N o HN.
    - simpl. destruct (k =? 0); now rewrite !app_empty_r_s.
    - simpl length in *. simpl seq. simpl combine. simpl fold_left.
      rewrite (IH (S k) N) by lia. simpl (S k =? 0).
      destruct l as [|y l].
      + simpl. replace (k =? N - 1) with true
          by (symmetry; apply Nat.eqb_eq; simpl in HN; lia).
        simpl. rewrite !app_empty_r_s. unfold q.
        destruct (k =? 0); simpl; now rewrite ?app_assoc_s.
      + replace (k =? N - 1) with false
          by (symmetry; apply Nat.eqb_neq; simpl in HN; lia).
        cbv zeta. simpl negb. cbv iota.
        change (map q (x :: y :: l)) with (q x :: q y :: map q l).
        rewrite concat_cons2. unfold q.
        destruct (k =? 0); simpl negb; cbv iota; now rewrite !app_assoc_s. }
  etransitivity; [apply (G v 0 (length v) ostr); reflexivity|]. reflexivity.
Qed.

(** ** The generated text *)

Section TextMore.
Context `{AttributesParser} `{RBase}.

(** X12. The placeholder of an exported function is its exported name,
    [<- function(], the names of its arguments joined by a comma and a
    space, and [) {}]: no separator follows the last argument, and a function
    without arguments gets an empty list. *)
Theorem roxygen_placeholder_text (ostr : string) (attribute : Attribute) :
  generateRoxygenPlaceholder ostr attribute =
    ostr +:+ exportedName attribute +:+ "<- function("
         +:+ String.concat ", "
               (map Argument_name
                    (Function_arguments (Attribute_function attribute)))
         +:+ ") {}" +:+ Text.endl.
Proof.
  unfold generateRoxygenPlaceholder. cbv zeta.
  rewrite (for_i_separated Argument_name ", ").
  now rewrite !app_assoc_s.
Qed.

Lemma loadModule_text_aux (g : RExportsGenerator) :
  RExportsGenerator_writeEnd g =
    mkRExportsGenerator
      (ostr_write (r_base g)
         ("Rcpp::loadModule(" +:+ Text.dquote +:+ "RcppExports" +:+ Text.dquote
            +:+ ", " +:+
          match rExports_ g with
          | [] => "what = character())"
          | _ :: _ =>
              "what = c(" +:+
              String.concat
                ("," +:+ Text.endl +:+
                 "                                         ")
                (map (fun name => Text.dquote +:+ name +:+ Text.dquote)
                     (rExports_ g))
              +:+ "))" +:+ Text.endl
          end))
      (rExports_ g).
Proof.
  unfold RExportsGenerator_writeEnd, ostr_write. cbv zeta. f_equal. f_equal.
  simpl.
  destruct (rExports_ g) as [|x l] eqn:E.
  - simpl. now rewrite !app_assoc_s.
  - rewrite <- E. replace (0 <? length (rExports_ g))%nat with true
      by (rewrite E; reflexivity).
    rewrite for_i_indented. now rewrite !app_assoc_s.
Qed.

(** X13. [writeEnd] of the wrapper script adds one call of
    [Rcpp::loadModule] to the code and leaves the list of names: with no
    exported name the call asks for [character()] and ends without a line
    end; otherwise it lists the names in quotes, joined by a comma, a line
    end and an indentation, and ends the line. *)
Theorem loadModule_text (g : RExportsGenerator) :
  RExportsGenerator_writeEnd g =
    mkRExportsGenerator
      (ostr_write (r_base g)
         ("Rcpp::loadModule(" +:+ Text.dquote +:+ "RcppExports" +:+ Text.dquote
            +:+ ", " +:+
          match rExports_ g with
          | [] => "what = character())"
          | _ :: _ =>
              "what = c(" +:+
              String.concat
                ("," +:+ Text.endl +:+
                 "                                         ")
                (map (fun name => Text.dquote +:+ name +:+ Text.dquote)
                     (rExports_ g))
              +:+ "))" +:+ Text.endl
          end))
      (rExports_ g).
Proof. apply loadModule_text_aux. Qed.

(** What [generateCppModuleFunctions] adds to the two streams. *)
Lemma generateCppModuleFunctions_eq (ostr rcout : string)
    (attributes : SourceFileAttributes) (verbose : bool) :
  generateCppModuleFunctions ostr rcout attributes verbose =
    (ostr +:+ String.concat EmptyString
       (map (fun it =>
               "    Rcpp::function(" +:+ Text.dquote +:+ exportedName it
                 +:+ Text.dquote +:+ ", &"
                 +:+ Function_name (Attribute_function it) +:+ ");"
                 +:+ Text.endl)
            (List.filter isExportedFunction (sfa_attributes attributes))),
     rcout +:+ String.concat EmptyString
       (map (fun it =>
               if verbose
               then "  " +:+ printFunction (Attribute_function it) +:+ Text.endl
               else EmptyString)
            (List.filter isExportedFunction (sfa_attributes attributes)))).
Proof.
  unfold generateCppModuleFunctions.
  generalize (sfa_attributes attributes). intros l. revert ostr rcout.
  induction l as [|it l IH]; intros ostr rcout.
  - simpl. now rewrite !app_empty_r_s.
  - simpl. destruct (isExportedFunction it) eqn:E.
    + rewrite IH. simpl map.
      assert (C : forall x xs, String.concat EmptyString (x :: xs)
                               = x +:+ String.concat EmptyString xs).
      { intros x [|y xs]; [simpl; now rewrite app_empty_r_s | reflexivity]. }
      rewrite !C. destruct verbose; f_equal; now rewrite ?app_assoc_s.
    + apply IH.
Qed.

(** X14. The module block of a source file is the opening line with the
    module name, one registration line for every exported function, in
    order, that binds its exported name to the address of the function, and
    the closing line; the verbose flag changes what is printed and nothing
    of the block. *)
Theorem module_block_text (ostr rcout moduleName : string)
    (attributes : SourceFileAttributes) (verbose : bool) :
  fst (generateCppModule ostr rcout moduleName attributes verbose) =
    ostr +:+ "RCPP_MODULE(" +:+ moduleName +:+ ") {" +:+ Text.endl
      +:+ String.concat EmptyString
            (map (fun it =>
                    "    Rcpp::function(" +:+ Text.dquote +:+ exportedName it
                      +:+ Text.dquote +:+ ", &"
                      +:+ Function_name (Attribute_function it) +:+ ");"
                      +:+ Text.endl)
                 (List.filter isExportedFunction (sfa_attributes attributes)))
      +:+ "}" +:+ Text.endl /\
  fst (generateCppModule ostr rcout moduleName attributes verbose) =
  fst (generateCppModule ostr EmptyString moduleName attributes false) /\
  snd (generateCppModule ostr rcout moduleName attributes false) = rcout.
Proof.
  unfold generateCppModule. cbv zeta.
  rewrite !generateCppModuleFunctions_eq. simpl.
  split; [now rewrite !app_assoc_s|]. split; [reflexivity|].
  induction (List.filter isExportedFunction (sfa_attributes attributes))
    as [|it l IH]; simpl.
  - apply app_empty_r_s.
  - destruct l; [apply app_empty_r_s | exact IH].
Qed.

(** X15. The header holds no stub for an exported function whose exported
    name starts with a dot, under whatever name the function is defined:
    [writeFunctions] of the header does what it does on the attributes
    without those functions. *)
Theorem hidden_functions_skipped (g : CppIncludeGenerator)
    (attributes : SourceFileAttributes) (verbose : bool) :
  (forall ostr it,
     Text.starts_with "."%char (exportedName it) = true ->
     forwarding_stub ostr it = ostr) /\
  CppIncludeGenerator_writeFunctions g attributes verbose =
  CppIncludeGenerator_writeFunctions g
    (mkSourceFileAttributes (sfa_sourceFile attributes)
       (List.filter
          (fun it => negb (isExportedFunction it &&
                           Text.starts_with "."%char (exportedName it)))
          (sfa_attributes attributes))
       (sfa_prototypes attributes) (sfa_interfaces attributes))
    verbose.
Proof.
  assert (Hh : forall ostr it,
     Text.starts_with "."%char (exportedName it) = true ->
     forwarding_stub ostr it = ostr).
  { intros ostr it Hd. unfold forwarding_stub. cbv zeta. simpl.
    now rewrite Hd. }
  split; [exact Hh|].
  unfold CppIncludeGenerator_writeFunctions, hasInterface. simpl.
  destruct (negb _); [reflexivity|]. f_equal. f_equal.
  generalize (codeStream_ (inc_base g)).
  induction (sfa_attributes attributes) as [|it l IH]; intros o; simpl;
    [reflexivity|].
  destruct (isExportedFunction it) eqn:E; simpl.
  - destruct (Text.starts_with "."%char (exportedName it)) eqn:Ed; simpl.
    + rewrite (Hh o it Ed). apply IH.
    + rewrite E. apply IH.
  - rewrite E. apply IH.
Qed.

End TextMore.

(** ** What is printed does not steer the run *)

Lemma bind_blind {A B : Type} (c : M A) (k : A -> M B) :
  (forall o w, c (set_Rcout o w) = (fst (c w), set_Rcout o (snd (c w)))) ->
  (forall a o w, k a (set_Rcout o w) = (fst (k a w), set_Rcout o (snd (k a w)))) ->
  forall o w, bind c k (set_Rcout o w)
              = (fst (bind c k w), set_Rcout o (snd (bind c k w))).
Proof.
  intros Hc Hk o w. unfold bind. rewrite Hc.
  destruct (c w) as [[a|e] w']; simpl; [apply Hk | reflexivity].
Qed.

Lemma FileInfo_new_blind (path : string) (o : string) (w : World) :
  FileInfo_new path (set_Rcout o w)
  = (fst (FileInfo_new path w), set_Rcout o (snd (FileInfo_new path w))).
Proof.
  unfold FileInfo_new. unfold_monad. simpl.
  destruct (w_staterr w path); [reflexivity|].
  change (fs_lookup (set_Rcout o w) path) with (fs_lookup w path).
  destruct (fs_lookup w path); reflexivity.
Qed.

Lemma write_stream_blind (path text : string) (o : string) (w : World) :
  write_stream path text (set_Rcout o w)
  = (fst (write_stream path text w), set_Rcout o (snd (write_stream path text w))).
Proof.
  unfold write_stream. unfold_monad.
  change (can_open (set_Rcout o w) path) with (can_open w path).
  destruct (can_open w path); reflexivity.
Qed.

Lemma R_dir_create_blind (path : string) (o : string) (w : World) :
  R_dir_create path (set_Rcout o w)
  = (fst (R_dir_create path w), set_Rcout o (snd (R_dir_create path w))).
Proof.
  unfold R_dir_create. unfold_monad. simpl. f_equal.
  destruct (Text.empty path); [reflexivity|].
  change (fs_lookup (set_Rcout o w) path) with (fs_lookup w path).
  destruct (fs_lookup w path); reflexivity.
Qed.

Lemma R_file_remove_blind (path : string) (o : string) (w : World) :
  R_file_remove path (set_Rcout o w)
  = (fst (R_file_remove path w), set_Rcout o (snd (R_file_remove path w))).
Proof.
  unfold R_file_remove. unfold_monad. simpl. f_equal.
  change (fs_lookup (set_Rcout o w) path) with (fs_lookup w path).
  destruct (fs_lookup w path) as [[c t|t]|]; reflexivity.
Qed.

Lemma ret_blind {A : Type} (a : A) (o : string) (w : World) :
  ret a (set_Rcout o w) = (fst (ret a w), set_Rcout o (snd (ret a w))).
Proof. reflexivity. Qed.

Lemma ExportsGenerator_commit_blind (g : ExportsGenerator) (preamble : string)
    (o : string) (w : World) :
  ExportsGenerator_commit g preamble (set_Rcout o w)
  = (fst (ExportsGenerator_commit g preamble w),
     set_Rcout o (snd (ExportsGenerator_commit g preamble w))).
Proof.
  revert o w. unfold ExportsGenerator_commit. cbv zeta.
  apply bind_blind.
  - destruct (Text.empty (codeStream_ g)); [|intros; apply ret_blind].
    apply bind_blind; [apply FileInfo_new_blind | intros; apply ret_blind].
  - intros [|]; [intros; apply ret_blind|].
    destruct (negb _); [|intros; apply ret_blind].
    apply bind_blind; [apply write_stream_blind | intros; apply ret_blind].
Qed.

Section Blind.
Context `{AttributesParser} `{RBase}.

Lemma commit_blind (g : Generator) (includes prototypes : list string)
    (o : string) (w : World) :
  commit g includes prototypes (set_Rcout o w)
  = (fst (commit g includes prototypes w),
     set_Rcout o (snd (commit g includes prototypes w))).
Proof.
  destruct g as [g|g|g]; simpl.
  - apply ExportsGenerator_commit_blind.
  - apply ExportsGenerator_commit_blind.
  - revert o w. unfold CppIncludeGenerator_commit.
    destruct (hasCppInterface_ g).
    + apply bind_blind; [|intros; apply ExportsGenerator_commit_blind].
      unfold createDirectory.
      apply bind_blind; [apply FileInfo_new_blind|].
      intros a. destruct (negb _); intros;
        [apply R_dir_create_blind | apply ret_blind].
    + apply bind_blind; [|intros; apply ret_blind].
      unfold ExportsGenerator_remove, removeFile.
      apply bind_blind; [apply FileInfo_new_blind|].
      intros a. destruct (exists_ a); intros;
        [apply R_file_remove_blind | apply ret_blind].
Qed.

Lemma ExportsGenerators_commit_blind (generators_ : ExportsGenerators)
    (includes prototypes : list string) (o : string) (w : World) :
  ExportsGenerators_commit generators_ includes prototypes (set_Rcout o w)
  = (fst (ExportsGenerators_commit generators_ includes prototypes w),
     set_Rcout o (snd (ExportsGenerators_commit generators_ includes prototypes w))).
Proof.
  unfold ExportsGenerators_commit. cbv zeta. generalize false.
  revert o w. induction generators_ as [|g rest IH]; intros o w wrote.
  - reflexivity.
  - simpl. revert o w. apply bind_blind.
    + intros. apply commit_blind.
    + intros a o w. apply IH.
Qed.

(** The flag [verbose] changes what [writeFunctions] prints, not what it
    writes; without it nothing is printed. *)
Lemma writeFunctions_verbose (g : Generator) (attributes : SourceFileAttributes)
    (rcout rcout' : string) (verbose verbose' : bool) :
  fst (writeFunctions g rcout attributes verbose)
  = fst (writeFunctions g rcout' attributes verbose') /\
  snd (writeFunctions g rcout attributes false) = rcout.
Proof.
  destruct g as [g|g|g]; simpl; [|split; reflexivity..].
  unfold CppExportsGenerator_writeFunctions.
  rewrite !generateCppModuleFunctions_eq. simpl. split; [reflexivity|].
  induction (List.filter isExportedFunction (sfa_attributes attributes))
    as [|it l IHl]; simpl; [apply app_empty_r_s|].
  destruct l; [apply app_empty_r_s | exact IHl].
Qed.

Lemma ExportsGenerators_writeFunctions_verbose (generators_ : ExportsGenerators)
    (attributes : SourceFileAttributes) (rcout rcout' : string)
    (verbose verbose' : bool) :
  fst (ExportsGenerators_writeFunctions generators_ rcout attributes verbose)
  = fst (ExportsGenerators_writeFunctions generators_ rcout' attributes verbose').
Proof.
  revert rcout rcout'.
  induction generators_ as [|g rest IH]; intros rcout rcout'; [reflexivity|].
  simpl.
  pose proof (proj1 (writeFunctions_verbose g attributes rcout rcout'
                       verbose verbose')) as G.
  destruct (writeFunctions g rcout attributes verbose) as [g1 r1].
  destruct (writeFunctions g rcout' attributes verbose') as [g2 r2].
  simpl in G. subst g2. specialize (IH r1 r2).
  destruct (ExportsGenerators_writeFunctions rest r1 attributes verbose).
  destruct (ExportsGenerators_writeFunctions rest r2 attributes verbose').
  simpl in *. now subst.
Qed.

Lemma ExportsGenerators_writeFunctions_quiet (generators_ : ExportsGenerators)
    (attributes : SourceFileAttributes) (rcout : string) :
  snd (ExportsGenerators_writeFunctions generators_ rcout attributes false)
  = rcout.
Proof.
  revert rcout.
  induction generators_ as [|g rest IH]; intros rcout; [reflexivity|].
  simpl.
  pose proof (proj2 (writeFunctions_verbose g attributes rcout rcout
                       false false)) as G.
  destruct (writeFunctions g rcout attributes false) as [g1 r1].
  simpl in G. subst r1. specialize (IH rcout).
  destruct (ExportsGenerators_writeFunctions rest rcout attributes false).
  exact IH.
Qed.

Lemma generated_verbose (parsed : list SourceFileAttributes) (verbose : bool)
    (generators : ExportsGenerators) (prototypes : list string) :
  generated parsed verbose generators prototypes
  = generated parsed false generators prototypes.
Proof.
  revert generators prototypes.
  induction parsed as [|a rest IH]; intros generators prototypes; simpl;
    [reflexivity|].
  destruct (SourceFileAttributes_empty a); [apply IH|].
  rewrite IH.
  now rewrite (ExportsGenerators_writeFunctions_verbose
                 generators a EmptyString EmptyString verbose false).
Qed.

(** Without [verbose] the loop over the files prints nothing. *)
Lemma compileAttributes_files_quiet (cppFiles : list string)
    (generators : ExportsGenerators) (prototypes : list string) (w : World) :
  compileAttributes_files cppFiles false generators prototypes w =
    (Ok (generated (parsed_in w cppFiles) false generators prototypes),
     set_Rcout (w_Rcout w) w).
Proof.
  revert generators prototypes.
  induction cppFiles as [|f rest IH]; intros generators prototypes.
  - destruct w; reflexivity.
  - simpl. unfold SourceFileAttributes_new. unfold_monad.
    destruct (SourceFileAttributes_empty _); [apply IH|].
    pose proof (ExportsGenerators_writeFunctions_quiet generators
                  (parseSourceFile f (file_content w f)) EmptyString) as Q.
    destruct (ExportsGenerators_writeFunctions generators EmptyString
                (parseSourceFile f (file_content w f)) false) as [g r] eqn:E.
    simpl in Q. subst r. unfold Rcout. unfold_monad.
    rewrite app_empty_r_s.
    specialize (IH g (prototypes ++ sfa_prototypes (parseSourceFile f (file_content w f)))).
    destruct w; simpl in *. exact IH.
Qed.

End Blind.

(** ** A run of [compileAttributes], step by step *)

Section RunMore.
Context `{AttributesParser} `{RBase}.

Lemma ExportsGenerator_new_run {A : Type} (targetFile commentPrefix : string)
    (f : ExportsGenerator -> A) (w : World) :
  (let! b := ExportsGenerator_new targetFile commentPrefix in ret (f b)) w =
  match fst (ExportsGenerator_new targetFile commentPrefix w) with
  | Ok b => (Ok (f b), w)
  | Throw e => (Throw e, w)
  end.
Proof.
  unfold bind, ret.
  pose proof (ExportsGenerator_new_world targetFile commentPrefix w) as E.
  destruct (ExportsGenerator_new targetFile commentPrefix w) as [[b|e] w'].
  - simpl in *. now subst.
  - simpl in *. now subst.
Qed.

(** A run of [compileAttributes], step by step: the three constructors,
    which leave the world as it is; the code, which is computed from the
    parsed files; the commit; and what is printed, which nothing reads. *)
Lemma compileAttributes_eq (packageDir scope : string)
    (cppFiles basenames includes : list string) (verbose : bool)
    (platform : Platform) (w : World) :
  let fileSep := file_sep platform in
  exists out : option bool -> string,
    (verbose = false -> forall x, out x = w_Rcout w) /\
    compileAttributes packageDir scope cppFiles basenames includes verbose
                      platform w =
    match fst (ExportsGenerator_new (cppExportsFile packageDir fileSep) "//" w) with
    | Throw e => (Throw e, w)
    | Ok b1 =>
    match fst (ExportsGenerator_new (rExportsFile packageDir fileSep) "#" w) with
    | Throw e => (Throw e, w)
    | Ok b2 =>
    match fst (ExportsGenerator_new (includeFile packageDir fileSep scope) "//" w) with
    | Throw e => (Throw e, w)
    | Ok b3 =>
        let state :=
          generated (parsed_in w cppFiles) false
            (ExportsGenerators_writeBegin
               [GenCpp (mkCppExportsGenerator b1);
                GenR (mkRExportsGenerator b2 []);
                GenInclude (mkCppIncludeGenerator b3 scope
                              (includeDir packageDir fileSep) false)]) [] in
        match ExportsGenerators_commit (ExportsGenerators_writeEnd (fst state))
                includes (snd state) w with
        | (Ok wrote, w') => (Ok wrote, set_Rcout (out (Some wrote)) w')
        | (Throw e, w') => (Throw e, set_Rcout (out None) w')
        end
    end end end.
Proof.
  intros fileSep. unfold compileAttributes. cbv zeta. fold fileSep.
  unfold CppExportsGenerator_new, RExportsGenerator_new, CppIncludeGenerator_new.
  unfold bind at 1. rewrite ExportsGenerator_new_run.
  change (packageDir +:+ fileSep +:+ "src" +:+ fileSep +:+ "RcppExports.cpp")
    with (cppExportsFile packageDir fileSep).
  destruct (fst (ExportsGenerator_new (cppExportsFile packageDir fileSep) "//" w))
    as [b1|e]; [|exists (fun _ => w_Rcout w); split; [auto | reflexivity]].
  unfold bind at 1. rewrite ExportsGenerator_new_run.
  change (packageDir +:+ fileSep +:+ "R" +:+ fileSep +:+ "RcppExports.R")
    with (rExportsFile packageDir fileSep).
  destruct (fst (ExportsGenerator_new (rExportsFile packageDir fileSep) "#" w))
    as [b2|e]; [|exists (fun _ => w_Rcout w); split; [auto | reflexivity]].
  unfold bind at 1. rewrite ExportsGenerator_new_run.
  change (packageDir +:+ fileSep +:+ "inst" +:+ fileSep +:+ "include"
                     +:+ fileSep +:+ scope +:+ ".hpp")
    with (includeFile packageDir fileSep scope).
  change (packageDir +:+ fileSep +:+ "inst" +:+ fileSep +:+ "include")
    with (includeDir packageDir fileSep).
  destruct (fst (ExportsGenerator_new (includeFile packageDir fileSep scope) "//" w))
    as [b3|e]; [|exists (fun _ => w_Rcout w); split; [auto | reflexivity]].
  unfold ExportsGenerators_add. simpl app.
  set (gens := ExportsGenerators_writeBegin _).
  destruct verbose.
  - destruct (compileAttributes_files_eq cppFiles true gens [] w) as [out Eo].
    exists (fun x => match x with
                     | None => out
                     | Some true => out +:+ "Rcpp exports files updated" +:+ Text.endl
                     | Some false =>
                         out +:+ "Rcpp exports files already up to date"
                             +:+ Text.endl
                     end).
    split; [discriminate|].
    rewrite (bind_eq _ _ _ _ _ Eo). rewrite generated_verbose.
    cbv zeta. unfold bind at 1. rewrite ExportsGenerators_commit_blind.
    destruct (ExportsGenerators_commit _ _ _ w) as [[wrote|e] w']; simpl;
      [|reflexivity].
    destruct wrote; reflexivity.
  - exists (fun _ => w_Rcout w). split; [auto|].
    rewrite (bind_eq _ _ _ _ _ (compileAttributes_files_quiet cppFiles gens [] w)).
    cbv zeta. unfold bind at 1. rewrite ExportsGenerators_commit_blind.
    destruct (ExportsGenerators_commit _ _ _ w) as [[wrote|e] w']; simpl;
      reflexivity.
Qed.

End RunMore.

(** ** The code of a package *)

Lemma concat_cons_s (x : string) (xs : list string) :
  String.concat EmptyString (x :: xs) = x +:+ String.concat EmptyString xs.
Proof. destruct xs; [simpl; now rewrite app_empty_r_s | reflexivity]. Qed.

Lemma concat_app_s (xs ys : list string) :
  String.concat EmptyString (xs ++ ys)
  = String.concat EmptyString xs +:+ String.concat EmptyString ys.
Proof.
  induction xs as [|x xs IH]; [reflexivity|].
  rewrite <- app_comm_cons, !concat_cons_s, IH. now rewrite app_assoc_s.
Qed.

Lemma fold_left_append {A : Type} (f : A -> string) (keep : A -> bool)
    (l : list A) (ostr : string) :
  fold_left (fun ostr it => if keep it then ostr +:+ f it else ostr) l ostr
  = ostr +:+ String.concat EmptyString (map f (List.filter keep l)).
Proof.
  revert ostr. induction l as [|it l IH]; intros ostr; simpl.
  - now rewrite app_empty_r_s.
  - destruct (keep it); [|apply IH].
    rewrite IH. cbn [map]. rewrite concat_cons_s. now rewrite app_assoc_s.
Qed.

Lemma filter_both {A : Type} (p q : A -> bool) (l : list A) :
  List.filter q (List.filter p l) = List.filter (fun x => p x && q x) l.
Proof.
  induction l as [|x l IH]; [reflexivity|]. simpl.
  destruct (p x); simpl; [destruct (q x); now rewrite IH | exact IH].
Qed.

Section Streams.
Context `{AttributesParser} `{RBase}.

Lemma exported_in_cons (a : SourceFileAttributes)
    (parsed : list SourceFileAttributes) :
  exported_in (a :: parsed)
  = List.filter isExportedFunction (sfa_attributes a) ++ exported_in parsed.
Proof. unfold exported_in. simpl. apply List.filter_app. Qed.

Lemma exported_in_empty (a : SourceFileAttributes)
    (parsed : list SourceFileAttributes) :
  SourceFileAttributes_empty a = true ->
  exported_in (a :: parsed) = exported_in parsed.
Proof.
  intros E. rewrite exported_in_cons. unfold SourceFileAttributes_empty in E.
  destruct (sfa_attributes a); [reflexivity | discriminate].
Qed.

Lemma declaring_empty (name : string) (a : SourceFileAttributes)
    (parsed : list SourceFileAttributes) :
  SourceFileAttributes_empty a = true ->
  exported_in (declaring name (a :: parsed)) = exported_in (declaring name parsed).
Proof.
  intros E. unfold declaring. simpl. destruct (hasInterface a name); [|reflexivity].
  now apply exported_in_empty.
Qed.

(** The stub of a function does not depend on what is before it. *)
Lemma forwarding_stub_append (ostr : string) (it : Attribute) :
  forwarding_stub ostr it = ostr +:+ forwarding_stub EmptyString it.
Proof.
  unfold forwarding_stub. cbv zeta.
  destruct (Text.starts_with _ _); [now rewrite app_empty_r_s|].
  rewrite !(for_i_separated Argument_type ","),
          !(for_i_separated Argument_name ",").
  now rewrite !app_assoc_s, ?app_nil_s.
Qed.

Lemma CppExportsGenerator_writeFunctions_eq (g : CppExportsGenerator)
    (rcout : string) (attributes : SourceFileAttributes) (verbose : bool) :
  fst (CppExportsGenerator_writeFunctions g rcout attributes verbose) =
  mkCppExportsGenerator
    (ostr_write (cpp_base g)
       (String.concat EmptyString
          (map registration
               (List.filter isExportedFunction (sfa_attributes attributes))))).
Proof.
  unfold CppExportsGenerator_writeFunctions.
  rewrite generateCppModuleFunctions_eq. reflexivity.
Qed.

Lemma RExportsGenerator_writeFunctions_eq (g : RExportsGenerator)
    (attributes : SourceFileAttributes) (verbose : bool) :
  RExportsGenerator_writeFunctions g attributes verbose =
  if hasInterface attributes kInterfaceR then
    mkRExportsGenerator
      (ostr_write (r_base g)
         (String.concat EmptyString
            (map documentation
               (List.filter
                  (fun it => negb (bool_decide (Attribute_roxygen it = [])))
                  (List.filter isExportedFunction (sfa_attributes attributes))))))
      (rExports_ g ++
       map exportedName
           (List.filter isExportedFunction (sfa_attributes attributes)))
  else g.
Proof.
  unfold RExportsGenerator_writeFunctions.
  destruct (hasInterface attributes kInterfaceR); [|reflexivity].
  cbv zeta. f_equal.
  - unfold ostr_write. f_equal. unfold generateRoxygen.
    rewrite filter_both.
    rewrite <- (fold_left_append documentation
                  (fun it => isExportedFunction it &&
                             negb (bool_decide (Attribute_roxygen it = [])))).
    generalize (codeStream_ (r_base g)).
    induction (sfa_attributes attributes) as [|it l IH]; intros o;
      [reflexivity|].
    cbn [fold_left]. rewrite <- IH.
    destruct (isExportedFunction it && _); [|reflexivity].
    f_equal. unfold documentation.
    assert (L : forall lines o,
      Text.for_i lines (fun _ line ostr => ostr +:+ line +:+ Text.endl) o
      = o +:+ String.concat EmptyString
                (map (fun line => line +:+ Text.endl) lines)).
    { intros lines o'. unfold Text.for_i. generalize 0. revert o'.
      induction lines as [|x xs IHl]; intros o' k.
      - cbn [map]. simpl. now rewrite app_empty_r_s.
      - cbn [map]. rewrite concat_cons_s. simpl. rewrite IHl.
        now rewrite !app_assoc_s. }
    rewrite L. unfold generateRoxygenPlaceholder. cbv zeta.
    rewrite (for_i_separated Argument_name ", ").
    now rewrite !app_assoc_s.
  - generalize (rExports_ g).
    induction (sfa_attributes attributes) as [|it l IH]; intros acc; simpl.
    + now rewrite app_nil_r.
    + destruct (isExportedFunction it); simpl; [|apply IH].
      rewrite IH. now rewrite <- app_assoc.
Qed.

Lemma CppIncludeGenerator_writeFunctions_eq (g : CppIncludeGenerator)
    (attributes : SourceFileAttributes) (verbose : bool) :
  CppIncludeGenerator_writeFunctions g attributes verbose =
  if hasInterface attributes kInterfaceCpp then
    mkCppIncludeGenerator
      (ostr_write (inc_base g)
         (String.concat EmptyString
            (map (forwarding_stub EmptyString)
               (List.filter isExportedFunction (sfa_attributes attributes)))))
      (scope_ g) (includeDir_ g) true
  else g.
Proof.
  unfold CppIncludeGenerator_writeFunctions.
  destruct (hasInterface attributes kInterfaceCpp); [|reflexivity].
  simpl. f_equal. unfold ostr_write. f_equal.
  rewrite <- (fold_left_append (forwarding_stub EmptyString) isExportedFunction).
  generalize (codeStream_ (inc_base g)).
  induction (sfa_attributes attributes) as [|it l IH]; intros o; [reflexivity|].
  cbn [fold_left]. rewrite <- IH.
  destruct (isExportedFunction it); [|reflexivity].
  now rewrite forwarding_stub_append.
Qed.

(** What the loop over the files leaves in the three streams. *)
Lemma generated_streams (parsed : list SourceFileAttributes) (verbose : bool) :
  forall t1 p1 e1 code1 t2 p2 e2 code2 rex t3 p3 e3 code3 sc dir hc prototypes,
    generated parsed verbose
      [GenCpp (mkCppExportsGenerator (mkExportsGenerator t1 p1 e1 code1));
       GenR (mkRExportsGenerator (mkExportsGenerator t2 p2 e2 code2) rex);
       GenInclude (mkCppIncludeGenerator (mkExportsGenerator t3 p3 e3 code3)
                                         sc dir hc)]
      prototypes
    = ([GenCpp (mkCppExportsGenerator
                  (mkExportsGenerator t1 p1 e1
                     (code1 +:+ String.concat EmptyString
                                  (map registration (exported_in parsed)))));
        GenR (mkRExportsGenerator
                (mkExportsGenerator t2 p2 e2
                   (code2 +:+ String.concat EmptyString
                      (map documentation
                         (List.filter
                            (fun it => negb (bool_decide (Attribute_roxygen it = [])))
                            (exported_in (declaring kInterfaceR parsed))))))
                (rex ++ map exportedName
                          (exported_in (declaring kInterfaceR parsed))));
        GenInclude (mkCppIncludeGenerator
                      (mkExportsGenerator t3 p3 e3
                         (code3 +:+ String.concat EmptyString
                            (map (forwarding_stub EmptyString)
                               (exported_in (declaring kInterfaceCpp parsed)))))
                      sc dir (hc || native_interface parsed))],
       prototypes ++ prototypes_in parsed).
Proof.
  induction parsed as [|a rest IH]; intros.
  - simpl. rewrite !app_empty_r_s, !app_nil_r, orb_false_r. reflexivity.
  - cbn [generated]. destruct (SourceFileAttributes_empty a) eqn:Ea.
    + rewrite IH. rewrite !(declaring_empty _ a rest Ea).
      rewrite (exported_in_empty a rest Ea).
      unfold native_interface, prototypes_in. simpl. rewrite Ea. reflexivity.
    + cbn [ExportsGenerators_writeFunctions].
      destruct (writeFunctions (GenCpp _) _ _ _) as [g1 r1] eqn:E1.
      destruct (writeFunctions (GenR _) _ _ _) as [g2 r2] eqn:E2.
      destruct (writeFunctions (GenInclude _) _ _ _) as [g3 r3] eqn:E3.
      cbn [fst].
      simpl in E1, E2, E3.
      match type of E1 with context [CppExportsGenerator_writeFunctions ?g ?r ?a ?v] =>
        pose proof (CppExportsGenerator_writeFunctions_eq g r a v) as Q1;
        destruct (CppExportsGenerator_writeFunctions g r a v) as [x1 y1]
      end.
      simpl in Q1. injection E1 as <- <-. subst x1.
      rewrite RExportsGenerator_writeFunctions_eq in E2.
      rewrite CppIncludeGenerator_writeFunctions_eq in E3.
      injection E2 as <- <-. injection E3 as <- <-.
      unfold native_interface, prototypes_in, declaring.
      cbn [existsb List.filter flat_map]. rewrite Ea. cbn [negb andb flat_map].
      fold (native_interface rest).
      destruct (hasInterface a kInterfaceR), (hasInterface a kInterfaceCpp);
        unfold ostr_write; cbn [codeStream_ targetFile_ commentPrefix_
                                existingCode_ cpp_base r_base inc_base
                                rExports_ scope_ includeDir_ hasCppInterface_];
        rewrite IH; rewrite ?exported_in_cons, ?List.filter_app, ?map_app,
                            ?concat_app_s, ?app_assoc_s, <- ?app_assoc,
                            ?orb_true_r, ?orb_true_l, ?orb_false_l;
        reflexivity.
Qed.

End Streams.

(** ** What a run changes *)




Section RunFrame.
Context `{AttributesParser} `{RBase}.




(** The generators at the end of the loop over the files, after
    [writeEnd]. *)
Lemma final_streams (packageDir fileSep scope : string)
    (parsed : list SourceFileAttributes) (verbose : bool) (e1 e2 e3 : string) :
  let state :=
    generated parsed verbose
      (ExportsGenerators_writeBegin
         (initial_generators packageDir fileSep scope e1 e2 e3)) [] in
  snd state = prototypes_in parsed /\
  ExportsGenerators_writeEnd (fst state) =
    [GenCpp (mkCppExportsGenerator
               (mkExportsGenerator (cppExportsFile packageDir fileSep) "//"
                                   e1 (manifest_code parsed)));
     GenR (mkRExportsGenerator
             (mkExportsGenerator (rExportsFile packageDir fileSep) "#"
                                 e2 (wrapper_code parsed))
             (map exportedName (exported_in (declaring kInterfaceR parsed))));
     GenInclude (mkCppIncludeGenerator
                   (mkExportsGenerator (includeFile packageDir fileSep scope)
                                       "//" e3 (header_code scope parsed))
                   scope (includeDir packageDir fileSep)
                   (native_interface parsed))].
Proof.
  intros state. unfold state, initial_generators, ExportsGenerators_writeBegin.
  cbn [map writeBegin].
  unfold CppExportsGenerator_writeBegin, RExportsGenerator_writeBegin,
    CppIncludeGenerator_writeBegin, ostr_write.
  cbn [cpp_base r_base inc_base targetFile_ commentPrefix_
       existingCode_ codeStream_ scope_ includeDir_ hasCppInterface_].
  rewrite generated_streams. cbn [fst snd]. split; [reflexivity|].
  unfold ExportsGenerators_writeEnd. cbn [map writeEnd].
  unfold CppExportsGenerator_writeEnd, CppIncludeGenerator_writeEnd, ostr_write.
  cbn [cpp_base r_base inc_base targetFile_ commentPrefix_
       existingCode_ codeStream_ scope_ includeDir_ hasCppInterface_ app orb].
  apply (f_equal2 cons);
    [|apply (f_equal2 cons); [|apply (f_equal2 cons); [|reflexivity]]].
  - do 2 apply f_equal. unfold manifest_code.
    now rewrite !app_nil_s, !app_assoc_s.
  - apply f_equal.
    etransitivity; [apply loadModule_text_aux|].
    unfold ostr_write. cbn [r_base rExports_ targetFile_ commentPrefix_
      existingCode_ codeStream_].
    unfold wrapper_code, loadModule_call. now rewrite !app_nil_s.
  - apply f_equal.
    apply (f_equal (fun c => mkCppIncludeGenerator
             (mkExportsGenerator (includeFile packageDir fileSep scope) "//" e3 c)
             scope (includeDir packageDir fileSep) (native_interface parsed))).
    unfold header_code. now rewrite !app_nil_s, !app_assoc_s.
Qed.

End RunFrame.

Section RunTheorems.
Context `{AttributesParser} `{RBase}.


(** X17. The flag [verbose] changes what is printed and nothing else: the
    run gives the same result and leaves the same world but for the text
    printed; and a run without it prints nothing. *)
Theorem verbose_only_prints (packageDir scope : string)
    (cppFiles basenames includes : list string)
    (platform : Platform) (w : World) :
  let quiet := compileAttributes packageDir scope cppFiles basenames includes
                                 false platform w in
  let loud := compileAttributes packageDir scope cppFiles basenames includes
                                true platform w in
  fst loud = fst quiet /\
  (exists out, snd loud = set_Rcout out (snd quiet)) /\
  w_Rcout (snd quiet) = w_Rcout w.
Proof.
  intros quiet loud. subst quiet loud.
  destruct (compileAttributes_eq packageDir scope cppFiles basenames includes
              true platform w) as (out1 & _ & E1).
  destruct (compileAttributes_eq packageDir scope cppFiles basenames includes
              false platform w) as (out2 & Q & E2).
  specialize (Q eq_refl). rewrite E1, E2. clear E1 E2.
  assert (R : set_Rcout (w_Rcout w) w = w) by (destruct w; reflexivity).
  destruct (fst (ExportsGenerator_new _ _ w)) as [b1|e];
    [|simpl; split; [reflexivity|]; split; [exists (w_Rcout w); now rewrite R
                                           | reflexivity]].
  destruct (fst (ExportsGenerator_new _ _ w)) as [b2|e];
    [|simpl; split; [reflexivity|]; split; [exists (w_Rcout w); now rewrite R
                                           | reflexivity]].
  destruct (fst (ExportsGenerator_new _ _ w)) as [b3|e];
    [|simpl; split; [reflexivity|]; split; [exists (w_Rcout w); now rewrite R
                                           | reflexivity]].
  cbv zeta.
  destruct (ExportsGenerators_commit _ _ _ w) as [[wrote|e] w1]; simpl;
    rewrite Q; (split; [reflexivity|]); (split; [|reflexivity]); eauto.
Qed.


End RunTheorems.

(** ** What a run leaves in the generated files *)

Section Contents.
Context `{AttributesParser} `{RBase}.

Lemma manifest_code_nonempty (parsed : list SourceFileAttributes) :
  manifest_code parsed <> EmptyString.
Proof. unfold manifest_code. rewrite app_cons_s. discriminate. Qed.

Lemma wrapper_code_nonempty (parsed : list SourceFileAttributes) :
  wrapper_code parsed <> EmptyString.
Proof.
  unfold wrapper_code, loadModule_call. intros E.
  apply app_empty_inv in E as [_ E]. rewrite app_cons_s in E. discriminate.
Qed.

Lemma header_code_nonempty' (scope : string)
    (parsed : list SourceFileAttributes) :
  header_code scope parsed <> EmptyString.
Proof. unfold header_code. rewrite app_cons_s. discriminate. Qed.

Lemma settled_content (b : ExportsGenerator) (preamble : string) (w : World) :
  codeStream_ b <> EmptyString ->
  settled b preamble w ->
  file_content w (targetFile_ b)
  = Some (commit_header (commentPrefix_ b) preamble +:+ codeStream_ b).
Proof. intros Hn (_ & [[E _]|[E _]]); [exact E | contradiction]. Qed.

(** What a run of [compileAttributes] that returns leaves in its three
    target files. *)
Lemma compileAttributes_contents (packageDir scope : string)
    (cppFiles basenames includes : list string) (verbose : bool)
    (platform : Platform) (wrote : bool) (w0 w1 : World) :
  compileAttributes packageDir scope cppFiles basenames includes verbose
                    platform w0 = (Ok wrote, w1) ->
  let fileSep := file_sep platform in
  let parsed := parsed_in w0 cppFiles in
  file_content w1 (cppExportsFile packageDir fileSep) =
    Some (commit_header "//"
            (prototypes_preamble (includes_preamble includes)
                                 (prototypes_in parsed))
          +:+ manifest_code parsed) /\
  file_content w1 (rExportsFile packageDir fileSep) =
    Some (commit_header "#" EmptyString +:+ wrapper_code parsed) /\
  file_content w1 (includeFile packageDir fileSep scope) =
    if native_interface parsed
    then Some (commit_header "//" (includes_preamble includes)
               +:+ header_code scope parsed)
    else None.
Proof.
  intros E fileSep parsed.
  apply compileAttributes_effect in E.
  destruct E as (code1 & code2 & rex & code3 & prototypes & Hfinal & _ & _
                 & S1 & S2 & S3 & _).
  fold fileSep parsed in Hfinal, S1, S2, S3.
  destruct (Hfinal EmptyString EmptyString EmptyString) as [Hp Hg].
  destruct (final_streams packageDir fileSep scope parsed verbose
              EmptyString EmptyString EmptyString) as [Hp' Hg'].
  cbv zeta in Hp, Hg, Hp', Hg'.
  rewrite Hp' in Hp. rewrite Hg' in Hg. subst prototypes.
  injection Hg as <- <- <- <-.
  split; [|split].
  - refine (settled_content _ _ _ _ S1). apply manifest_code_nonempty.
  - refine (settled_content _ _ _ _ S2). apply wrapper_code_nonempty.
  - destruct (native_interface parsed).
    + destruct S3 as [S3 _].
      refine (settled_content _ _ _ _ S3). apply header_code_nonempty'.
    + destruct S3 as [_ S3]. unfold file_content. now rewrite S3.
Qed.

(** X19. After a run that returns, the manifest holds the header with the
    generator token, the include lines, the prototypes of the source files
    that have attributes, and the module [RcppExports] with one
    registration line for every exported function of the package, in the
    order of the files, whatever interfaces the files declare. *)
Theorem manifest_content (packageDir scope : string)
    (cppFiles basenames includes : list string) (verbose : bool)
    (platform : Platform) (wrote : bool) (w0 w1 : World) :
  compileAttributes packageDir scope cppFiles basenames includes verbose
                    platform w0 = (Ok wrote, w1) ->
  let parsed := parsed_in w0 cppFiles in
  file_content w1 (cppExportsFile packageDir (file_sep platform)) =
    Some (commit_header "//"
            (prototypes_preamble (includes_preamble includes)
                                 (prototypes_in parsed))
          +:+ "RCPP_MODULE(RcppExports) {" +:+ Text.endl
          +:+ String.concat EmptyString
                (map (fun it =>
                        "    Rcpp::function(" +:+ Text.dquote
                          +:+ exportedName it +:+ Text.dquote +:+ ", &"
                          +:+ Function_name (Attribute_function it) +:+ ");"
                          +:+ Text.endl)
                     (List.filter isExportedFunction
                                  (flat_map sfa_attributes parsed)))
          +:+ "}" +:+ Text.endl).
Proof.
  intros E parsed.
  apply compileAttributes_contents in E as (E & _ & _). exact E.
Qed.

(** X20. After a run that returns, the wrapper script holds the header with
    the generator token, the documentation and placeholder of every
    documented exported function of the source files that declare the R
    interface, and one call of [Rcpp::loadModule] that names every exported
    function of those files, documented or not. *)
Theorem wrapper_content (packageDir scope : string)
    (cppFiles basenames includes : list string) (verbose : bool)
    (platform : Platform) (wrote : bool) (w0 w1 : World) :
  compileAttributes packageDir scope cppFiles basenames includes verbose
                    platform w0 = (Ok wrote, w1) ->
  let exported :=
    exported_in (declaring kInterfaceR (parsed_in w0 cppFiles)) in
  file_content w1 (rExportsFile packageDir (file_sep platform)) =
    Some (commit_header "#" EmptyString
          +:+ String.concat EmptyString
                (map documentation
                   (List.filter
                      (fun it => negb (bool_decide (Attribute_roxygen it = [])))
                      exported))
          +:+ loadModule_call (map exportedName exported)).
Proof.
  intros E exported.
  apply compileAttributes_contents in E as (_ & E & _). exact E.
Qed.

(** X21. After a run that returns, the header exists exactly when a source
    file with attributes declares the C++ interface, and then holds the
    header with the generator token, the include lines, and in the
    namespace of the package the stubs of the exported functions of the
    files that declare the C++ interface. *)
Theorem header_content (packageDir scope : string)
    (cppFiles basenames includes : list string) (verbose : bool)
    (platform : Platform) (wrote : bool) (w0 w1 : World) :
  compileAttributes packageDir scope cppFiles basenames includes verbose
                    platform w0 = (Ok wrote, w1) ->
  let parsed := parsed_in w0 cppFiles in
  file_content w1 (includeFile packageDir (file_sep platform) scope) =
    if native_interface parsed
    then Some (commit_header "//" (includes_preamble includes)
               +:+ "namespace " +:+ scope +:+ " {" +:+ Text.endl
               +:+ String.concat EmptyString
                     (map (forwarding_stub EmptyString)
                          (exported_in (declaring kInterfaceCpp parsed)))
               +:+ "}" +:+ Text.endl)
    else None.
Proof.
  intros E parsed.
  apply compileAttributes_contents in E as (_ & _ & E). exact E.
Qed.


End Contents.

(** ** The preamble of the manifest *)

Lemma for_i_each {A : Type} (f : A -> string) (v : list A) (ostr : string) :
  Text.for_i v (fun _ x ostr => ostr +:+ f x) ostr
  = ostr +:+ String.concat EmptyString (map f v).
Proof.
  unfold Text.for_i. generalize 0. revert ostr.
  induction v as [|x xs IH]; intros ostr k.
  - simpl. now rewrite app_empty_r_s.
  - cbn [map]. rewrite concat_cons_s. simpl. rewrite IH.
    now rewrite !app_assoc_s.
Qed.

Section Preamble.
Context `{AttributesParser} `{RBase}.

(** X23. The preamble of the manifest is the include lines, one a line,
    and an empty line, then the prototypes, each with a semicolon on a line
    of its own, and an empty line; a list that is empty leaves nothing, not
    even its empty line. *)
Theorem preamble_text (includes prototypes : list string) :
  prototypes_preamble (includes_preamble includes) prototypes =
    match includes with
    | [] => EmptyString
    | _ :: _ =>
        String.concat EmptyString (map (fun x => x +:+ Text.endl) includes)
          +:+ Text.endl
    end +:+
    match prototypes with
    | [] => EmptyString
    | _ :: _ =>
        String.concat EmptyString
          (map (fun x => x +:+ ";" +:+ Text.endl) prototypes)
          +:+ Text.endl
    end.
Proof.
  unfold prototypes_preamble, includes_preamble.
  assert (I : Text.for_i includes (fun _ x ostr => ostr +:+ x +:+ Text.endl)
                EmptyString
              = String.concat EmptyString (map (fun x => x +:+ Text.endl) includes)).
  { etransitivity; [apply (for_i_each (fun x => x +:+ Text.endl))|].
    apply app_nil_s. }
  rewrite I. clear I.
  assert (P : forall o,
            Text.for_i prototypes
              (fun _ x ostr => ostr +:+ x +:+ ";" +:+ Text.endl) o
            = o +:+ String.concat EmptyString
                      (map (fun x => x +:+ ";" +:+ Text.endl) prototypes)).
  { intros o. apply (for_i_each (fun x => x +:+ ";" +:+ Text.endl)). }
  rewrite P. clear P.
  destruct includes as [|i il], prototypes as [|p pl]; simpl negb; cbv iota;
    rewrite ?app_assoc_s, ?app_empty_r_s, ?app_nil_s; reflexivity.
Qed.

End Preamble.

(** ** The further properties at concrete source files and packages *)

(** X3 at a source file that does not exist. *)
Lemma missing_source_not_found_witness :
  let w := Example.world ∅ in
  isEmpty (cached (w_cache w) "a.cpp" EmptyString) = true /\
  w_staterr w "a.cpp" = false /\
  fs_lookup w "a.cpp" = None /\
  @sourceCppContext Example.parser Example.rbase "a.cpp" None Example.platform w
    = (Throw (file_not_found "a.cpp"), w).
Proof.
  intros w.
  assert (H1 : isEmpty (cached (w_cache w) "a.cpp" EmptyString) = true)
    by reflexivity.
  assert (H2 : w_staterr w "a.cpp" = false) by reflexivity.
  assert (H3 : fs_lookup w "a.cpp" = None) by (vm_compute; reflexivity).
  split; [exact H1|]. split; [exact H2|]. split; [exact H3|].
  exact (@missing_source_not_found Example.parser Example.rbase
           "a.cpp" None Example.platform w H1 H2 H3).
Defined.

(** X5 at a second call for the same file on another platform. *)
Lemma hit_ignores_platform_witness :
  let w0 := Example.world {["a.cpp" := RegFile "int f(int x);" 50%Z]} in
  exists ctx1 w1,
    @sourceCppContext Example.parser Example.rbase "a.cpp" None Example.platform w0
      = (Ok ctx1, w1) /\
    isEmpty (cached (w_cache w1) "a.cpp" EmptyString) = false /\
    @sourceCppContext Example.parser Example.rbase
      "a.cpp" None Example.platform w1 =
    @sourceCppContext Example.parser Example.rbase
      "a.cpp" None (mkPlatform "\" ".dll") w1.
Proof.
  intros w0.
  evaluate E1 (@sourceCppContext Example.parser Example.rbase
                 "a.cpp" None Example.platform w0).
  match type of E1 with _ = (Ok ?ctx1, ?w1) =>
    exists ctx1, w1;
    assert (Hh : isEmpty (cached (w_cache w1) "a.cpp" EmptyString) = false)
      by (vm_compute; reflexivity);
    split; [exact E1|]; split; [exact Hh|];
    exact (proj1 (@hit_ignores_platform Example.parser Example.rbase
                    "a.cpp" "b.cpp" None Example.platform
                    (mkPlatform "\" ".dll") w1 Hh))
  end.
Defined.

(** X6 at a second call before the unit is built. *)
Lemma hit_buildRequired_is_dirty_witness :
  let w0 := Example.world {["a.cpp" := RegFile "int f(int x);" 50%Z]} in
  exists ctx1 w1 ctx2 w2,
    @sourceCppContext Example.parser Example.rbase "a.cpp" None Example.platform w0
      = (Ok ctx1, w1) /\
    isEmpty (cached (w_cache w1) "a.cpp" EmptyString) = false /\
    @sourceCppContext Example.parser Example.rbase "a.cpp" None Example.platform w1
      = (Ok ctx2, w2) /\
    isSourceDirty
      (cached (w_cache w1) "a.cpp" EmptyString) w1
      = (Ok (ctx_buildRequired ctx2), w1).
Proof.
  intros w0.
  evaluate E1 (@sourceCppContext Example.parser Example.rbase
                 "a.cpp" None Example.platform w0).
  match type of E1 with _ = (Ok ?ctx1, ?w1) =>
    exists ctx1, w1;
    assert (Hh : isEmpty (cached (w_cache w1) "a.cpp" EmptyString) = false)
      by (vm_compute; reflexivity);
    evaluate E2 (@sourceCppContext Example.parser Example.rbase
                   "a.cpp" None Example.platform w1);
    match type of E2 with _ = (Ok ?ctx2, ?w2) =>
      exists ctx2, w2;
      split; [exact E1|]; split; [exact Hh|]; split; [exact E2|];
      exact (proj1 (@hit_buildRequired_is_dirty Example.parser Example.rbase
                      "a.cpp" None Example.platform ctx2 w1 w2 Hh E2))
    end
  end.
Defined.

(** X7 at a unit whose source file exports one function. *)
Lemma regenerateSource_idempotent_witness :
  let w := Example.world {["a.cpp" := RegFile "int f(int x);" 50%Z]} in
  let d := mkSourceCppDynlib "a.cpp" 50 EmptyString "a.cpp" "sourceCpp_7"
             "/tmp/b" "/" ".so" [] [] in
  file_content w (cppSourcePath_ d) = Some "int f(int x);" /\
  can_open w (generatedCppSourcePath d) = true /\
  cppSourcePath_ d <> generatedCppSourcePath d /\
  exists d' w',
    @regenerateSource Example.parser d w = (Ok d', w') /\
    @regenerateSource Example.parser d' w' = (Ok d', w').
Proof.
  intros w d.
  assert (H1 : file_content w (cppSourcePath_ d) = Some "int f(int x);")
    by (vm_compute; reflexivity).
  assert (H2 : can_open w (generatedCppSourcePath d) = true)
    by (vm_compute; reflexivity).
  assert (H3 : cppSourcePath_ d <> generatedCppSourcePath d)
    by (vm_compute; discriminate).
  split; [exact H1|]. split; [exact H2|]. split; [exact H3|].
  destruct (@regenerateSource_idempotent Example.parser
              d "int f(int x);" w H1 H2 H3)
    as (d' & w' & R1 & _ & _ & _ & _ & _ & _ & R2).
  exists d', w'. split; [exact R1 | exact R2].
Defined.

(** X8 at a second call for a file that is in the cache. *)
Lemma hit_writes_only_copy_witness :
  let w0 := Example.world {["a.cpp" := RegFile "int f(int x);" 50%Z]} in
  exists ctx1 w1 r w2,
    @sourceCppContext Example.parser Example.rbase "a.cpp" None Example.platform w0
      = (Ok ctx1, w1) /\
    isEmpty (cached (w_cache w1) "a.cpp" EmptyString) = false /\
    @sourceCppContext Example.parser Example.rbase "a.cpp" None Example.platform w1
      = (r, w2) /\
    same_but_fs w1 w2 /\
    fs_lookup w2 "a.cpp" = fs_lookup w1 "a.cpp".
Proof.
  intros w0.
  evaluate E1 (@sourceCppContext Example.parser Example.rbase
                 "a.cpp" None Example.platform w0).
  match type of E1 with _ = (Ok ?ctx1, ?w1) =>
    exists ctx1, w1;
    assert (Hh : isEmpty (cached (w_cache w1) "a.cpp" EmptyString) = false)
      by (vm_compute; reflexivity);
    evaluate E2 (@sourceCppContext Example.parser Example.rbase
                   "a.cpp" None Example.platform w1);
    match type of E2 with _ = (?r, ?w2) =>
      exists r, w2;
      split; [exact E1|]; split; [exact Hh|]; split; [exact E2|];
      destruct (@hit_writes_only_copy Example.parser Example.rbase
                  "a.cpp" None Example.platform r w1 w2 Hh E2) as [F1 F2];
      split; [exact F1|]; apply F2; vm_compute; discriminate
    end
  end.
Defined.


(** X10 at the construction of a unit for a source file. *)
Lemma construction_writes_only_build_directory_witness :
  let w := Example.world {["a.cpp" := RegFile "int f(int x);" 50%Z]} in
  exists d w',
    @SourceCppDynlib_new Example.parser Example.rbase "a.cpp" Example.platform w
      = (Ok d, w') /\
    w_tempfiles w' = S (w_tempfiles w) /\
    fs_lookup w' "a.cpp" = fs_lookup w "a.cpp".
Proof.
  intros w.
  evaluate E (@SourceCppDynlib_new Example.parser Example.rbase
                "a.cpp" Example.platform w).
  match type of E with _ = (Ok ?d, ?w') =>
    exists d, w'; split; [exact E|];
    destruct (@construction_writes_only_build_directory
                Example.parser Example.rbase "a.cpp" Example.platform d w w' E)
      as (_ & _ & _ & T & F);
    split; [exact T|]; apply F; vm_compute; discriminate
  end.
Defined.


(** X19 at the first run over a package. *)
Lemma manifest_content_witness :
  let w0 := Example.package in
  exists wrote w1,
    @compileAttributes Example.parser
      "pkg" "mypkg" ["pkg/src/a.cpp"] ["a.cpp"] ["#include <Rcpp.h>"]
      false Example.platform w0 = (Ok wrote, w1) /\
    file_content w1 "pkg/src/RcppExports.cpp" = Some Example.manifest_text.
Proof.
  intros w0.
  evaluate E (@compileAttributes Example.parser
      "pkg" "mypkg" ["pkg/src/a.cpp"] ["a.cpp"] ["#include <Rcpp.h>"]
      false Example.platform w0).
  match type of E with _ = (Ok ?b, ?w) => exists b, w end.
  split; [exact E|].
  etransitivity;
    [exact (@manifest_content Example.parser _ _ _ _ _ _ _ _ _ _ E)|].
  vm_compute. reflexivity.
Defined.

(** X20 at the first run over a package. *)
Lemma wrapper_content_witness :
  let w0 := Example.package in
  exists wrote w1,
    @compileAttributes Example.parser
      "pkg" "mypkg" ["pkg/src/a.cpp"] ["a.cpp"] ["#include <Rcpp.h>"]
      false Example.platform w0 = (Ok wrote, w1) /\
    file_content w1 "pkg/R/RcppExports.R" = Some Example.wrapper_text.
Proof.
  intros w0.
  evaluate E (@compileAttributes Example.parser
      "pkg" "mypkg" ["pkg/src/a.cpp"] ["a.cpp"] ["#include <Rcpp.h>"]
      false Example.platform w0).
  match type of E with _ = (Ok ?b, ?w) => exists b, w end.
  split; [exact E|].
  etransitivity;
    [exact (@wrapper_content Example.parser _ _ _ _ _ _ _ _ _ _ E)|].
  vm_compute. reflexivity.
Defined.

(** X21 at the first run over a package that declares the R interface
    only. *)
Lemma header_content_witness :
  let w0 := Example.package in
  exists wrote w1,
    @compileAttributes Example.parser
      "pkg" "mypkg" ["pkg/src/a.cpp"] ["a.cpp"] ["#include <Rcpp.h>"]
      false Example.platform w0 = (Ok wrote, w1) /\
    file_content w1 "pkg/inst/include/mypkg.hpp" = None.
Proof.
  intros w0.
  evaluate E (@compileAttributes Example.parser
      "pkg" "mypkg" ["pkg/src/a.cpp"] ["a.cpp"] ["#include <Rcpp.h>"]
      false Example.platform w0).
  match type of E with _ = (Ok ?b, ?w) => exists b, w end.
  split; [exact E|].
  etransitivity;
    [exact (@header_content Example.parser _ _ _ _ _ _ _ _ _ _ E)|].
  vm_compute. reflexivity.
Defined.

